(** * hexagonal-example: entities, in-memory repositories, processors,
      validators, event bus and services.

    A shallow embedding of the Go sources.  Conventions:

    - a Go [string] is a [string] (a sequence of bytes; [len] counts bytes,
      which the validators' messages call "characters");
    - a Go [int] is a [Z] kept in the 64-bit two's-complement range, with the
      wrap-around of [+] and [-] written out ([GoInt.add], [GoInt.sub]);
    - a Go [float64] is a primitive binary64 [float], so that [<], [>] and
      [>=] behave on NaN as they do in Go;
    - [time.Time] is an instant, and every call of [time.Now()] is an
      explicit argument [now] of the function that makes the call;
    - [errors.New msg] is the message [msg]; a function returning
      [(T, error)] returns a [result T];
    - a run-time panic is an [outcome] of its own, distinct from any
      returned value;
    - the repositories copy the entity structs on the way in ([Save]) and on
      the way out ([FindByID], the finders); the structs hold only strings,
      numbers, instants and a boolean, so a map from identifiers to struct
      values is the store, and no alias to it escapes. *)

From Stdlib Require Import ZArith Ascii String List PrimFloat Sorted.
From stdpp Require Import base gmap strings list.

Local Open Scope string_scope.
Local Open Scope list_scope.
Local Open Scope Z_scope.

(** ** Go's 64-bit [int] *)

Module GoInt.

Definition min_int : Z := - 2 ^ 63.
Definition max_int : Z := 2 ^ 63 - 1.

Definition in_range (z : Z) : Prop := min_int <= z <= max_int.

(** Two's-complement wrap-around of an exact result. *)
Definition wrap (z : Z) : Z := (z + 2 ^ 63) mod 2 ^ 64 - 2 ^ 63.

Definition add (a b : Z) : Z := wrap (a + b).
Definition sub (a b : Z) : Z := wrap (a - b).

(** [len xs] of a slice, [len s] of a string. *)
Definition len {A} (xs : list A) : Z := Z.of_nat (length xs).
Definition strlen (s : string) : Z := Z.of_nat (String.length s).

End GoInt.

(** ** Results, errors and panics *)

Definition error : Type := string.

(** The pair [(value, err)] a Go function returns: either the value with a
    nil error, or nil with the error. *)
Inductive result (A : Type) : Type :=
| Ok (a : A)
| Err (e : error).
Arguments Ok {A} a.
Arguments Err {A} e.

Definition is_err {A} (r : result A) : bool :=
  match r with Ok _ => false | Err _ => true end.

(** What a call does: it returns, or it panics. *)
Inductive outcome (A : Type) : Type :=
| Returns (a : A)
| Panics (msg : string).
Arguments Returns {A} a.
Arguments Panics {A} msg.

Definition Time : Type := Z.

(** ** Entities *)

(** *** entities.User *)

Record User : Type := mkUser {
  user_ID : string;
  user_Email : string;
  user_Name : string;
  user_CreatedAt : Time;
  user_UpdatedAt : Time;
  user_IsActive : bool
}.

Definition NewUser (id email name : string) (now : Time) : result User :=
  if decide (id = "") then Err "user ID cannot be empty"
  else if decide (email = "") then Err "user email cannot be empty"
  else if decide (name = "") then Err "user name cannot be empty"
  else Ok {| user_ID := id;
             user_Email := email;
             user_Name := name;
             user_CreatedAt := now;
             user_UpdatedAt := now;
             user_IsActive := true |}.

(** The mutators work on the receiver [u]; the updated receiver is returned
    next to the error.  On an error the receiver is returned untouched, as
    the Go method returns before any assignment. *)
Definition User_UpdateEmail (u : User) (newEmail : string) (now : Time)
  : User * option error :=
  if decide (newEmail = "") then (u, Some "email cannot be empty")
  else (mkUser (user_ID u) newEmail (user_Name u)
               (user_CreatedAt u) now (user_IsActive u), None).

Definition User_UpdateName (u : User) (newName : string) (now : Time)
  : User * option error :=
  if decide (newName = "") then (u, Some "name cannot be empty")
  else (mkUser (user_ID u) (user_Email u) newName
               (user_CreatedAt u) now (user_IsActive u), None).

Definition User_Deactivate (u : User) (now : Time) : User :=
  mkUser (user_ID u) (user_Email u) (user_Name u)
         (user_CreatedAt u) now false.

Definition User_Activate (u : User) (now : Time) : User :=
  mkUser (user_ID u) (user_Email u) (user_Name u)
         (user_CreatedAt u) now true.

Definition User_IsValid (u : User) : bool :=
  negb (String.eqb (user_ID u) "") &&
  negb (String.eqb (user_Email u) "") &&
  negb (String.eqb (user_Name u) "").

(** *** entities.Product *)

Record Product : Type := mkProduct {
  ID : string;
  Name : string;
  Description : string;
  Price : float;
  Stock : Z;
  Category : string;
  CreatedAt : Time;
  UpdatedAt : Time;
  IsActive : bool
}.

(** Assignments to single fields of the receiver. *)
Definition set_Name (p : Product) (v : string) : Product :=
  mkProduct (ID p) v (Description p) (Price p) (Stock p) (Category p)
            (CreatedAt p) (UpdatedAt p) (IsActive p).
Definition set_Description (p : Product) (v : string) : Product :=
  mkProduct (ID p) (Name p) v (Price p) (Stock p) (Category p)
            (CreatedAt p) (UpdatedAt p) (IsActive p).
Definition set_Category (p : Product) (v : string) : Product :=
  mkProduct (ID p) (Name p) (Description p) (Price p) (Stock p) v
            (CreatedAt p) (UpdatedAt p) (IsActive p).
Definition set_Price (p : Product) (v : float) : Product :=
  mkProduct (ID p) (Name p) (Description p) v (Stock p) (Category p)
            (CreatedAt p) (UpdatedAt p) (IsActive p).
Definition set_Stock (p : Product) (v : Z) : Product :=
  mkProduct (ID p) (Name p) (Description p) (Price p) v (Category p)
            (CreatedAt p) (UpdatedAt p) (IsActive p).
Definition set_UpdatedAt (p : Product) (v : Time) : Product :=
  mkProduct (ID p) (Name p) (Description p) (Price p) (Stock p) (Category p)
            (CreatedAt p) v (IsActive p).
Definition set_IsActive (p : Product) (v : bool) : Product :=
  mkProduct (ID p) (Name p) (Description p) (Price p) (Stock p) (Category p)
            (CreatedAt p) (UpdatedAt p) v.

Definition NewProduct (id name description category : string)
    (price : float) (stock : Z) (now : Time) : result Product :=
  if decide (id = "") then Err "product ID cannot be empty"
  else if decide (name = "") then Err "product name cannot be empty"
  else if (price <? 0)%float then Err "product price cannot be negative"
  else if stock <? 0 then Err "product stock cannot be negative"
  else Ok {| ID := id;
             Name := name;
             Description := description;
             Price := price;
             Stock := stock;
             Category := category;
             CreatedAt := now;
             UpdatedAt := now;
             IsActive := true |}.

Definition Product_UpdatePrice (p : Product) (newPrice : float) (now : Time)
  : Product * option error :=
  if (newPrice <? 0)%float then (p, Some "price cannot be negative")
  else (set_UpdatedAt (set_Price p newPrice) now, None).

Definition Product_UpdateStock (p : Product) (newStock : Z) (now : Time)
  : Product * option error :=
  if newStock <? 0 then (p, Some "stock cannot be negative")
  else (set_UpdatedAt (set_Stock p newStock) now, None).

Definition Product_AddStock (p : Product) (quantity : Z) (now : Time)
  : Product * option error :=
  if quantity <=? 0 then (p, Some "quantity must be positive")
  else (set_UpdatedAt (set_Stock p (GoInt.add (Stock p) quantity)) now, None).

Definition Product_RemoveStock (p : Product) (quantity : Z) (now : Time)
  : Product * option error :=
  if quantity <=? 0 then (p, Some "quantity must be positive")
  else if Stock p <? quantity then (p, Some "insufficient stock")
  else (set_UpdatedAt (set_Stock p (GoInt.sub (Stock p) quantity)) now, None).

Definition Product_Deactivate (p : Product) (now : Time) : Product :=
  set_UpdatedAt (set_IsActive p false) now.

Definition Product_Activate (p : Product) (now : Time) : Product :=
  set_UpdatedAt (set_IsActive p true) now.

Definition Product_IsAvailable (p : Product) : bool :=
  IsActive p && (0 <? Stock p).

Definition Product_IsValid (p : Product) : bool :=
  negb (String.eqb (ID p) "") && negb (String.eqb (Name p) "") &&
  (0 <=? Price p)%float && (0 <=? Stock p).

(** ** In-memory repositories

    [InMemoryUserRepository] and [InMemoryProductRepository] are a map from
    the identifier to the stored copy; the mutex plays no part in a
    sequential run. *)

(** A [for _, v := range m] loop visits the values of [m] in an order the
    language leaves open: [iter] is the sequence of one such visit. *)
Definition ranges_over {V} (m : gmap string V) (iter : list V) : Prop :=
  iter ≡ₚ (map_to_list m).*2.

(** The runtime refuses a slice whose backing array would exceed its
    allocation limit: [maxAlloc] is 2^48 bytes on the 64-bit targets and the
    finders' slices hold 8-byte pointers. *)
Definition maxSliceCap : Z := 2 ^ 48 / 8.

(** [make([]*T, 0, cap)] panics unless this holds. *)
Definition makeslice_ok (cap : Z) : bool :=
  (0 <=? cap) && (cap <=? maxSliceCap).

(** [for i := start; i < end; i++ { c := *xs[i]; result = append(result, &c) }],
    as [n] iterations starting at index [i]. *)
Fixpoint copy_loop {A} (xs : list A) (i : Z) (n : nat) (result : list A)
  : outcome (list A) :=
  match n with
  | O => Returns result
  | S n' =>
      if (0 <=? i) && (i <? GoInt.len xs) then
        match xs !! Z.to_nat i with
        | Some x => copy_loop xs (i + 1) n' (result ++ [x])
        | None => Panics "index out of range"
        end
      else Panics "index out of range"
  end.

(** The pagination block shared, verbatim, by every paginated finder. *)
Definition paginate {A} (xs : list A) (limit offset : Z)
  : outcome (list A * option error) :=
  let start := offset in
  let end_ := GoInt.add offset limit in
  if GoInt.len xs <=? start then Returns ([], None)
  else
    let end_ := if GoInt.len xs <? end_ then GoInt.len xs else end_ in
    if makeslice_ok (GoInt.sub end_ start) then
      match copy_loop xs start (Z.to_nat (end_ - start)) [] with
      | Returns result => Returns (result, None)
      | Panics msg => Panics msg
      end
    else Panics "makeslice: cap out of range".

(** The finders that filter first collect the matches with [append] in a
    [range] loop, then run the pagination block on what they collected. *)
Definition find_where {A} (keep : A -> bool) (iter : list A)
    (limit offset : Z) : outcome (list A * option error) :=
  paginate (List.filter keep iter) limit offset.

Module InMemoryUserRepository.

Definition Save (r : gmap string User) (user : User)
  : gmap string User * option error :=
  (<[user_ID user := user]> r, None).

Definition FindByID (r : gmap string User) (id : string)
  : result (option User) :=
  Ok (r !! id).

(** The first user with this email in the order of the visit. *)
Definition FindByEmail (iter : list User) (email : string)
  : result (option User) :=
  Ok (List.find (fun user => String.eqb (user_Email user) email) iter).

Definition FindAll (iter : list User) (limit offset : Z)
  : outcome (list User * option error) :=
  if makeslice_ok (GoInt.len iter) then paginate iter limit offset
  else Panics "makeslice: cap out of range".

Definition FindActive (iter : list User) (limit offset : Z)
  : outcome (list User * option error) :=
  find_where user_IsActive iter limit offset.

Definition Delete (r : gmap string User) (id : string)
  : gmap string User * option error :=
  match r !! id with
  | None => (r, Some "user not found")
  | Some _ => (delete id r, None)
  end.

Definition Exists (r : gmap string User) (id : string) : result bool :=
  Ok (bool_decide (is_Some (r !! id))).

Definition Count (r : gmap string User) : result Z :=
  Ok (Z.of_nat (size r)).

End InMemoryUserRepository.

Module InMemoryProductRepository.

Definition Save (r : gmap string Product) (product : Product)
  : gmap string Product * option error :=
  (<[ID product := product]> r, None).

Definition FindByID (r : gmap string Product) (id : string)
  : result (option Product) :=
  Ok (r !! id).

Definition FindByCategory (iter : list Product) (category : string)
    (limit offset : Z) : outcome (list Product * option error) :=
  find_where (fun product => String.eqb (Category product) category)
             iter limit offset.

Definition FindAll (iter : list Product) (limit offset : Z)
  : outcome (list Product * option error) :=
  if makeslice_ok (GoInt.len iter) then paginate iter limit offset
  else Panics "makeslice: cap out of range".

Definition FindAvailable (iter : list Product) (limit offset : Z)
  : outcome (list Product * option error) :=
  find_where Product_IsAvailable iter limit offset.

Definition FindByPriceRange (iter : list Product) (minPrice maxPrice : float)
    (limit offset : Z) : outcome (list Product * option error) :=
  find_where (fun product => (minPrice <=? Price product)%float &&
                             (Price product <=? maxPrice)%float)
             iter limit offset.

Definition Delete (r : gmap string Product) (id : string)
  : gmap string Product * option error :=
  match r !! id with
  | None => (r, Some "product not found")
  | Some _ => (delete id r, None)
  end.

Definition Exists (r : gmap string Product) (id : string) : result bool :=
  Ok (bool_decide (is_Some (r !! id))).

Definition Count (r : gmap string Product) : result Z :=
  Ok (Z.of_nat (size r)).

(** No pagination here: every product of that name, in the order of the
    visit. *)
Definition FindByName (iter : list Product) (name : string)
  : list Product * option error :=
  (List.filter (fun product => String.eqb (Name product) name) iter, None).

(** [count++] for every product of the category. *)
Definition CountByCategory (iter : list Product) (category : string)
  : result Z :=
  Ok (fold_left
        (fun count product =>
           if String.eqb (Category product) category
           then GoInt.add count 1 else count)
        iter 0).

End InMemoryProductRepository.

(** ** Processors

    Every processor method takes the store and returns the store it leaves
    behind next to the pair it returns.  [iter] is the order in which the
    repository's [range] loop visits the store during the call. *)

Module UserProcessor.
Import InMemoryUserRepository.

Definition CreateUser (r : gmap string User) (iter : list User)
    (id email name : string) (now : Time)
  : gmap string User * result User :=
  match Exists r id with
  | Err err => (r, Err err)
  | Ok true => (r, Err "user already exists")
  | Ok false =>
      match FindByEmail iter email with
      | Err err => (r, Err err)
      | Ok (Some _) => (r, Err "email already in use")
      | Ok None =>
          match NewUser id email name now with
          | Err err => (r, Err err)
          | Ok user =>
              match Save r user with
              | (r', Some err) => (r', Err err)
              | (r', None) => (r', Ok user)
              end
          end
      end
  end.

(** [nowEmail] and [nowName] are the clock readings of [UpdateEmail] and
    of [UpdateName]. *)
Definition UpdateUser (r : gmap string User) (iter : list User)
    (id : string) (email name : option string) (nowEmail nowName : Time)
  : gmap string User * result User :=
  match FindByID r id with
  | Err err => (r, Err err)
  | Ok None => (r, Err "user not found")
  | Ok (Some user) =>
      let afterEmail : result User :=
        match email with
        | None => Ok user
        | Some e =>
            match FindByEmail iter e with
            | Err err => Err err
            | Ok existingUser =>
                if match existingUser with
                   | Some existing => negb (String.eqb (user_ID existing) id)
                   | None => false
                   end
                then Err "email already in use by another user"
                else match User_UpdateEmail user e nowEmail with
                     | (_, Some err) => Err err
                     | (user', None) => Ok user'
                     end
            end
        end in
      match afterEmail with
      | Err err => (r, Err err)
      | Ok user =>
          let afterName : result User :=
            match name with
            | None => Ok user
            | Some n =>
                match User_UpdateName user n nowName with
                | (_, Some err) => Err err
                | (user', None) => Ok user'
                end
            end in
          match afterName with
          | Err err => (r, Err err)
          | Ok user =>
              match Save r user with
              | (r', Some err) => (r', Err err)
              | (r', None) => (r', Ok user)
              end
          end
      end
  end.

Definition DeactivateUser (r : gmap string User) (id : string) (now : Time)
  : gmap string User * result User :=
  match FindByID r id with
  | Err err => (r, Err err)
  | Ok None => (r, Err "user not found")
  | Ok (Some user) =>
      let user := User_Deactivate user now in
      match Save r user with
      | (r', Some err) => (r', Err err)
      | (r', None) => (r', Ok user)
      end
  end.

Definition ActivateUser (r : gmap string User) (id : string) (now : Time)
  : gmap string User * result User :=
  match FindByID r id with
  | Err err => (r, Err err)
  | Ok None => (r, Err "user not found")
  | Ok (Some user) =>
      let user := User_Activate user now in
      match Save r user with
      | (r', Some err) => (r', Err err)
      | (r', None) => (r', Ok user)
      end
  end.

Definition GetUser (r : gmap string User) (id : string) : result User :=
  match FindByID r id with
  | Err err => Err err
  | Ok None => Err "user not found"
  | Ok (Some user) => Ok user
  end.

Definition GetUserByEmail (iter : list User) (email : string)
  : result User :=
  match FindByEmail iter email with
  | Err err => Err err
  | Ok None => Err "user not found"
  | Ok (Some user) => Ok user
  end.

Definition ListUsers (iter : list User) (limit offset : Z) :=
  FindAll iter limit offset.

Definition ListActiveUsers (iter : list User) (limit offset : Z) :=
  FindActive iter limit offset.

End UserProcessor.

Module ProductProcessor.
Import InMemoryProductRepository.

Definition CreateProduct (r : gmap string Product)
    (id name description category : string) (price : float) (stock : Z)
    (now : Time)
  : gmap string Product * result Product :=
  match Exists r id with
  | Err err => (r, Err err)
  | Ok true => (r, Err "product already exists")
  | Ok false =>
      match NewProduct id name description category price stock now with
      | Err err => (r, Err err)
      | Ok product =>
          match Save r product with
          | (r', Some err) => (r', Err err)
          | (r', None) => (r', Ok product)
          end
      end
  end.

(** The optional fields applied, in the order of the source, to the copy
    that [FindByID] handed out.  [nowPrice] and [nowStock] are the clock
    readings of [UpdatePrice] and of [UpdateStock]. *)
Definition apply_fields (product : Product)
    (name description category : option string)
    (price : option float) (stock : option Z) (nowPrice nowStock : Time)
  : result Product :=
  let product :=
    match name with Some v => set_Name product v | None => product end in
  let product :=
    match description with
    | Some v => set_Description product v
    | None => product
    end in
  let product :=
    match category with
    | Some v => set_Category product v
    | None => product
    end in
  let afterPrice : result Product :=
    match price with
    | None => Ok product
    | Some v =>
        match Product_UpdatePrice product v nowPrice with
        | (_, Some err) => Err err
        | (product', None) => Ok product'
        end
    end in
  match afterPrice with
  | Err err => Err err
  | Ok product =>
      match stock with
      | None => Ok product
      | Some v =>
          match Product_UpdateStock product v nowStock with
          | (_, Some err) => Err err
          | (product', None) => Ok product'
          end
      end
  end.

Definition UpdateProduct (r : gmap string Product) (id : string)
    (name description category : option string)
    (price : option float) (stock : option Z) (nowPrice nowStock : Time)
  : gmap string Product * result Product :=
  match FindByID r id with
  | Err err => (r, Err err)
  | Ok None => (r, Err "product not found")
  | Ok (Some product) =>
      match apply_fields product name description category price stock
                         nowPrice nowStock with
      | Err err => (r, Err err)
      | Ok product =>
          match Save r product with
          | (r', Some err) => (r', Err err)
          | (r', None) => (r', Ok product)
          end
      end
  end.

(** The shape shared by [UpdateStock], [AddStock] and [RemoveStock]: load,
    one entity mutator, save. *)
Definition mutate (r : gmap string Product) (id : string)
    (mutator : Product -> Product * option error)
  : gmap string Product * result Product :=
  match FindByID r id with
  | Err err => (r, Err err)
  | Ok None => (r, Err "product not found")
  | Ok (Some product) =>
      match mutator product with
      | (_, Some err) => (r, Err err)
      | (product, None) =>
          match Save r product with
          | (r', Some err) => (r', Err err)
          | (r', None) => (r', Ok product)
          end
      end
  end.

Definition UpdateStock (r : gmap string Product) (id : string)
    (newStock : Z) (now : Time) :=
  mutate r id (fun product => Product_UpdateStock product newStock now).

Definition AddStock (r : gmap string Product) (id : string)
    (quantity : Z) (now : Time) :=
  mutate r id (fun product => Product_AddStock product quantity now).

Definition RemoveStock (r : gmap string Product) (id : string)
    (quantity : Z) (now : Time) :=
  mutate r id (fun product => Product_RemoveStock product quantity now).

Definition DeactivateProduct (r : gmap string Product) (id : string)
    (now : Time) :=
  mutate r id (fun product => (Product_Deactivate product now, None)).

Definition ActivateProduct (r : gmap string Product) (id : string)
    (now : Time) :=
  mutate r id (fun product => (Product_Activate product now, None)).

Definition GetProduct (r : gmap string Product) (id : string)
  : result Product :=
  match FindByID r id with
  | Err err => Err err
  | Ok None => Err "product not found"
  | Ok (Some product) => Ok product
  end.

Definition ListProducts (iter : list Product) (limit offset : Z) :=
  FindAll iter limit offset.

Definition ListAvailableProducts (iter : list Product) (limit offset : Z) :=
  FindAvailable iter limit offset.

Definition ListProductsByCategory (iter : list Product) (category : string)
    (limit offset : Z) :=
  FindByCategory iter category limit offset.

Definition ListProductsByPriceRange (iter : list Product)
    (minPrice maxPrice : float) (limit offset : Z) :=
  FindByPriceRange iter minPrice maxPrice limit offset.

End ProductProcessor.

(** ** Validators

    [strings.TrimSpace] and the compiled [emailRegex] belong to the Go
    standard library, not to this repository: the validators take them as
    given. *)

Module UserValidator.
Section WithStdlib.
Variable TrimSpace : string -> string.
Variable emailRegex_MatchString : string -> bool.

Definition validateID (id : string) : option error :=
  if decide (TrimSpace id = "") then Some "user ID cannot be empty"
  else if GoInt.strlen id <? 3
       then Some "user ID must be at least 3 characters long"
  else if 50 <? GoInt.strlen id
       then Some "user ID cannot exceed 50 characters"
  else None.

Definition validateEmail (email : string) : option error :=
  if decide (TrimSpace email = "") then Some "email cannot be empty"
  else if 255 <? GoInt.strlen email
       then Some "email cannot exceed 255 characters"
  else if negb (emailRegex_MatchString email)
       then Some "invalid email format"
  else None.

Definition validateName (name : string) : option error :=
  if decide (TrimSpace name = "") then Some "name cannot be empty"
  else if GoInt.strlen name <? 2
       then Some "name must be at least 2 characters long"
  else if 100 <? GoInt.strlen name
       then Some "name cannot exceed 100 characters"
  else None.

Definition ValidateCreateUser (id email name : string) : option error :=
  match validateID id with
  | Some err => Some err
  | None =>
      match validateEmail email with
      | Some err => Some err
      | None => validateName name
      end
  end.

Definition ValidateUpdateUser (id : string) (email name : option string)
  : option error :=
  match validateID id with
  | Some err => Some err
  | None =>
      match match email with
            | Some e => validateEmail e
            | None => None
            end with
      | Some err => Some err
      | None =>
          match name with
          | Some n => validateName n
          | None => None
          end
      end
  end.
End WithStdlib.
End UserValidator.

Module ProductValidator.
Section WithStdlib.
Variable TrimSpace : string -> string.

Definition validateID (id : string) : option error :=
  if decide (TrimSpace id = "") then Some "product ID cannot be empty"
  else if GoInt.strlen id <? 3
       then Some "product ID must be at least 3 characters long"
  else if 50 <? GoInt.strlen id
       then Some "product ID cannot exceed 50 characters"
  else None.

Definition validateName (name : string) : option error :=
  if decide (TrimSpace name = "") then Some "product name cannot be empty"
  else if GoInt.strlen name <? 2
       then Some "product name must be at least 2 characters long"
  else if 200 <? GoInt.strlen name
       then Some "product name cannot exceed 200 characters"
  else None.

Definition validateDescription (description : string) : option error :=
  if 1000 <? GoInt.strlen description
  then Some "product description cannot exceed 1000 characters"
  else None.

Definition validateCategory (category : string) : option error :=
  if decide (TrimSpace category = "")
  then Some "product category cannot be empty"
  else if GoInt.strlen category <? 2
       then Some "product category must be at least 2 characters long"
  else if 100 <? GoInt.strlen category
       then Some "product category cannot exceed 100 characters"
  else None.

Definition validatePrice (price : float) : option error :=
  if (price <? 0)%float then Some "product price cannot be negative"
  else if (1000000 <? price)%float
       then Some "product price cannot exceed 1,000,000"
  else None.

Definition validateStock (stock : Z) : option error :=
  if stock <? 0 then Some "product stock cannot be negative"
  else if 1000000 <? stock
       then Some "product stock cannot exceed 1,000,000"
  else None.

(** The first failing check decides; [None] is the nil error. *)
Fixpoint first_error (checks : list (option error)) : option error :=
  match checks with
  | [] => None
  | Some err :: _ => Some err
  | None :: rest => first_error rest
  end.

Definition optional {A} (check : A -> option error) (field : option A)
  : option error :=
  match field with Some v => check v | None => None end.

Definition ValidateCreateProduct (id name description category : string)
    (price : float) (stock : Z) : option error :=
  first_error [validateID id; validateName name;
               validateDescription description;
               validateCategory category;
               validatePrice price; validateStock stock].

Definition ValidateUpdateProduct (id : string)
    (name description category : option string)
    (price : option float) (stock : option Z) : option error :=
  first_error [validateID id; optional validateName name;
               optional validateDescription description;
               optional validateCategory category;
               optional validatePrice price;
               optional validateStock stock].
End WithStdlib.
End ProductValidator.

(** ** Events and the in-memory event bus *)

(** The event structs of package [events], as the payloads of [Publish]. *)
Inductive Event : Type :=
| UserCreatedEvent (UserID Email Name : string) (CreatedAt : Time)
| UserUpdatedEvent (UserID Email Name : string) (UpdatedAt : Time)
| UserDeactivatedEvent (UserID Email : string) (DeactivatedAt : Time)
| UserActivatedEvent (UserID Email : string) (ActivatedAt : Time)
| ProductCreatedEvent (ProductID Name Category : string) (Price : float)
                      (Stock : Z) (CreatedAt : Time)
| ProductUpdatedEvent (ProductID Name Category : string) (Price : float)
                      (Stock : Z) (UpdatedAt : Time)
| StockUpdatedEvent (ProductID Name : string) (OldStock NewStock : Z)
                    (UpdatedAt : Time)
| ProductDeactivatedEvent (ProductID Name : string) (DeactivatedAt : Time)
| ProductActivatedEvent (ProductID Name : string) (ActivatedAt : Time).

Module InMemoryEventBus.
Section WithWorld.
(** What the handlers act upon (a log, a mail queue, ...). *)
Context {W : Type}.

(** [Handle(ctx, event) error], with its effect on [W]. *)
Definition EventHandler : Type := Event -> W -> W * option error.

Definition NewInMemoryEventBus : gmap string (list EventHandler) := ∅.

(** [b.handlers[eventType]]: the nil slice when the key is absent. *)
Definition handlers (b : gmap string (list EventHandler))
    (eventType : string) : list EventHandler :=
  default [] (b !! eventType).

(** The [for _, handler := range handlers] loop: the error of each
    [Handle] is looked at and dropped. *)
Fixpoint run_handlers (hs : list EventHandler) (event : Event) (w : W)
  : W :=
  match hs with
  | [] => w
  | handler :: rest =>
      match handler event w with
      | (w', Some _) => run_handlers rest event w'
      | (w', None) => run_handlers rest event w'
      end
  end.

Definition Publish (b : gmap string (list EventHandler))
    (eventType : string) (event : Event) (w : W) : W * option error :=
  (run_handlers (handlers b eventType) event w, None).

Definition Subscribe (b : gmap string (list EventHandler))
    (eventType : string) (handler : EventHandler)
  : gmap string (list EventHandler) :=
  <[eventType := handlers b eventType ++ [handler]]> b.
End WithWorld.
End InMemoryEventBus.

(** ** Event publishers *)

Module UserEventPublisher.
Import InMemoryEventBus.
Section WithWorld.
Context {W : Type}.
Variable eventBus : gmap string (list (@EventHandler W)).

Definition PublishUserCreated (user : User) :=
  Publish eventBus "user.created"
    (UserCreatedEvent (user_ID user) (user_Email user) (user_Name user)
                      (user_CreatedAt user)).

Definition PublishUserUpdated (user : User) :=
  Publish eventBus "user.updated"
    (UserUpdatedEvent (user_ID user) (user_Email user) (user_Name user)
                      (user_UpdatedAt user)).

Definition PublishUserDeactivated (user : User) :=
  Publish eventBus "user.deactivated"
    (UserDeactivatedEvent (user_ID user) (user_Email user)
                          (user_UpdatedAt user)).

Definition PublishUserActivated (user : User) :=
  Publish eventBus "user.activated"
    (UserActivatedEvent (user_ID user) (user_Email user)
                        (user_UpdatedAt user)).
End WithWorld.
End UserEventPublisher.

Module ProductEventPublisher.
Import InMemoryEventBus.
Section WithWorld.
Context {W : Type}.
Variable eventBus : gmap string (list (@EventHandler W)).

Definition PublishProductCreated (product : Product) :=
  Publish eventBus "product.created"
    (ProductCreatedEvent (ID product) (Name product) (Category product)
                         (Price product) (Stock product)
                         (CreatedAt product)).

Definition PublishProductUpdated (product : Product) :=
  Publish eventBus "product.updated"
    (ProductUpdatedEvent (ID product) (Name product) (Category product)
                         (Price product) (Stock product)
                         (UpdatedAt product)).

Definition PublishStockUpdated (product : Product) (oldStock : Z) :=
  Publish eventBus "product.stock.updated"
    (StockUpdatedEvent (ID product) (Name product) oldStock
                       (Stock product) (UpdatedAt product)).

Definition PublishProductDeactivated (product : Product) :=
  Publish eventBus "product.deactivated"
    (ProductDeactivatedEvent (ID product) (Name product)
                             (UpdatedAt product)).

Definition PublishProductActivated (product : Product) :=
  Publish eventBus "product.activated"
    (ProductActivatedEvent (ID product) (Name product)
                           (UpdatedAt product)).
End WithWorld.
End ProductEventPublisher.

(** ** Services

    A service call runs on the store [r] and on the handlers' world [w] and
    leaves both behind.  A failed [Publish...] is looked at and ignored. *)

Module UserService.
Import InMemoryEventBus.
Section WithDeps.
Context {W : Type}.
Variable TrimSpace : string -> string.
Variable emailRegex_MatchString : string -> bool.
Variable eventBus : gmap string (list (@EventHandler W)).

Definition CreateUser (r : gmap string User) (w : W) (iter : list User)
    (id email name : string) (now : Time)
  : gmap string User * W * result User :=
  match UserValidator.ValidateCreateUser TrimSpace emailRegex_MatchString
          id email name with
  | Some err => (r, w, Err err)
  | None =>
      match UserProcessor.CreateUser r iter id email name now with
      | (r', Err err) => (r', w, Err err)
      | (r', Ok user) =>
          let '(w', _) :=
            UserEventPublisher.PublishUserCreated eventBus user w in
          (r', w', Ok user)
      end
  end.

Definition UpdateUser (r : gmap string User) (w : W) (iter : list User)
    (id : string) (email name : option string) (nowEmail nowName : Time)
  : gmap string User * W * result User :=
  match UserValidator.ValidateUpdateUser TrimSpace emailRegex_MatchString
          id email name with
  | Some err => (r, w, Err err)
  | None =>
      match UserProcessor.UpdateUser r iter id email name
              nowEmail nowName with
      | (r', Err err) => (r', w, Err err)
      | (r', Ok user) =>
          let '(w', _) :=
            UserEventPublisher.PublishUserUpdated eventBus user w in
          (r', w', Ok user)
      end
  end.

Definition DeactivateUser (r : gmap string User) (w : W) (id : string)
    (now : Time) : gmap string User * W * result User :=
  match UserProcessor.DeactivateUser r id now with
  | (r', Err err) => (r', w, Err err)
  | (r', Ok user) =>
      let '(w', _) :=
        UserEventPublisher.PublishUserDeactivated eventBus user w in
      (r', w', Ok user)
  end.

Definition ActivateUser (r : gmap string User) (w : W) (id : string)
    (now : Time) : gmap string User * W * result User :=
  match UserProcessor.ActivateUser r id now with
  | (r', Err err) => (r', w, Err err)
  | (r', Ok user) =>
      let '(w', _) :=
        UserEventPublisher.PublishUserActivated eventBus user w in
      (r', w', Ok user)
  end.

Definition GetUser (r : gmap string User) (id : string) : result User :=
  UserProcessor.GetUser r id.

Definition ListUsers (iter : list User) (limit offset : Z) :=
  UserProcessor.ListUsers iter limit offset.

Definition ListActiveUsers (iter : list User) (limit offset : Z) :=
  UserProcessor.ListActiveUsers iter limit offset.

Definition GetUserByEmail (iter : list User) (email : string)
  : result User :=
  UserProcessor.GetUserByEmail iter email.
End WithDeps.
End UserService.

Module ProductService.
Import InMemoryEventBus.
Section WithDeps.
Context {W : Type}.
Variable TrimSpace : string -> string.
Variable eventBus : gmap string (list (@EventHandler W)).

Definition CreateProduct (r : gmap string Product) (w : W)
    (id name description category : string) (price : float) (stock : Z)
    (now : Time) : gmap string Product * W * result Product :=
  match ProductValidator.ValidateCreateProduct TrimSpace
          id name description category price stock with
  | Some err => (r, w, Err err)
  | None =>
      match ProductProcessor.CreateProduct r id name description category
              price stock now with
      | (r', Err err) => (r', w, Err err)
      | (r', Ok product) =>
          let '(w', _) :=
            ProductEventPublisher.PublishProductCreated eventBus
              product w in
          (r', w', Ok product)
      end
  end.

Definition UpdateProduct (r : gmap string Product) (w : W) (id : string)
    (name description category : option string)
    (price : option float) (stock : option Z) (nowPrice nowStock : Time)
  : gmap string Product * W * result Product :=
  match ProductValidator.ValidateUpdateProduct TrimSpace
          id name description category price stock with
  | Some err => (r, w, Err err)
  | None =>
      match ProductProcessor.UpdateProduct r id name description category
              price stock nowPrice nowStock with
      | (r', Err err) => (r', w, Err err)
      | (r', Ok product) =>
          let '(w', _) :=
            ProductEventPublisher.PublishProductUpdated eventBus
              product w in
          (r', w', Ok product)
      end
  end.

(** The shape shared by [UpdateStock], [AddStock] and [RemoveStock] after
    their first step: read the old stock, run the processor, publish the
    stock event. *)
Definition stock_step (r : gmap string Product) (w : W) (id : string)
    (process : gmap string Product -> gmap string Product * result Product)
  : gmap string Product * W * result Product :=
  match ProductProcessor.GetProduct r id with
  | Err err => (r, w, Err err)
  | Ok oldProduct =>
      let oldStock := Stock oldProduct in
      match process r with
      | (r', Err err) => (r', w, Err err)
      | (r', Ok product) =>
          let '(w', _) :=
            ProductEventPublisher.PublishStockUpdated eventBus
              product oldStock w in
          (r', w', Ok product)
      end
  end.

Definition UpdateStock (r : gmap string Product) (w : W) (id : string)
    (newStock : Z) (now : Time)
  : gmap string Product * W * result Product :=
  match ProductValidator.ValidateUpdateProduct TrimSpace
          id None None None None (Some newStock) with
  | Some err => (r, w, Err err)
  | None =>
      stock_step r w id
        (fun r => ProductProcessor.UpdateStock r id newStock now)
  end.

Definition AddStock (r : gmap string Product) (w : W) (id : string)
    (quantity : Z) (now : Time)
  : gmap string Product * W * result Product :=
  stock_step r w id
    (fun r => ProductProcessor.AddStock r id quantity now).

Definition RemoveStock (r : gmap string Product) (w : W) (id : string)
    (quantity : Z) (now : Time)
  : gmap string Product * W * result Product :=
  stock_step r w id
    (fun r => ProductProcessor.RemoveStock r id quantity now).

Definition DeactivateProduct (r : gmap string Product) (w : W)
    (id : string) (now : Time)
  : gmap string Product * W * result Product :=
  match ProductProcessor.DeactivateProduct r id now with
  | (r', Err err) => (r', w, Err err)
  | (r', Ok product) =>
      let '(w', _) :=
        ProductEventPublisher.PublishProductDeactivated eventBus
          product w in
      (r', w', Ok product)
  end.

Definition ActivateProduct (r : gmap string Product) (w : W)
    (id : string) (now : Time)
  : gmap string Product * W * result Product :=
  match ProductProcessor.ActivateProduct r id now with
  | (r', Err err) => (r', w, Err err)
  | (r', Ok product) =>
      let '(w', _) :=
        ProductEventPublisher.PublishProductActivated eventBus
          product w in
      (r', w', Ok product)
  end.

Definition GetProduct (r : gmap string Product) (id : string)
  : result Product :=
  ProductProcessor.GetProduct r id.

Definition ListProducts (iter : list Product) (limit offset : Z) :=
  ProductProcessor.ListProducts iter limit offset.

Definition ListAvailableProducts (iter : list Product) (limit offset : Z) :=
  ProductProcessor.ListAvailableProducts iter limit offset.

Definition ListProductsByCategory (iter : list Product) (category : string)
    (limit offset : Z) :=
  ProductProcessor.ListProductsByCategory iter category limit offset.

Definition ListProductsByPriceRange (iter : list Product)
    (minPrice maxPrice : float) (limit offset : Z) :=
  ProductProcessor.ListProductsByPriceRange iter minPrice maxPrice
    limit offset.
End WithDeps.
End ProductService.

(** ** Management services *)

(** [BulkOperationError]: the position of the failed request and the
    message of its error; [Error()] gives the message back. *)
Record BulkOperationError : Type := mkBulkOperationError {
  Index : Z;
  Message : string
}.

Definition BulkOperationError_Error (e : BulkOperationError) : string :=
  Message e.

(** The loop of the four bulk methods:
    [for i, req := range reqs { ent, err := call(req); ... }], appending to
    [errors] on an error and to the entities otherwise.  [call i] is the
    service call of the [i]-th turn on the state [st] the turns before it
    left. *)
Fixpoint bulk_loop {St Req Ent : Type}
    (call : nat -> St -> Req -> St * result Ent)
    (i : nat) (st : St) (reqs : list Req)
    (entities : list Ent) (errors : list BulkOperationError)
  : St * (list Ent * list BulkOperationError) :=
  match reqs with
  | [] => (st, (entities, errors))
  | req :: rest =>
      match call i st req with
      | (st', Err err) =>
          bulk_loop call (S i) st' rest entities
            (errors ++ [mkBulkOperationError (Z.of_nat i) err])
      | (st', Ok ent) =>
          bulk_loop call (S i) st' rest (entities ++ [ent]) errors
      end
  end.

Record CreateUserRequest : Type := mkCreateUserRequest {
  ureq_ID : string;
  ureq_Email : string;
  ureq_Name : string
}.

Record UserStatistics : Type := mkUserStatistics {
  TotalUsers : Z;
  ActiveUsers : Z;
  InactiveUsers : Z
}.

Record SearchCriteria : Type := mkSearchCriteria {
  crit_Email : string;
  crit_Limit : Z;
  crit_Offset : Z
}.

Record CreateProductRequest : Type := mkCreateProductRequest {
  preq_ID : string;
  preq_Name : string;
  preq_Description : string;
  preq_Category : string;
  preq_Price : float;
  preq_Stock : Z
}.

Record StockUpdateRequest : Type := mkStockUpdateRequest {
  sreq_ProductID : string;
  sreq_NewStock : Z
}.

Record ProductStatistics : Type := mkProductStatistics {
  TotalProducts : Z;
  AvailableProducts : Z;
  UnavailableProducts : Z
}.

Record ProductSearchCriteria : Type := mkProductSearchCriteria {
  pcrit_Category : string;
  pcrit_MinPrice : float;
  pcrit_MaxPrice : float;
  pcrit_Limit : Z;
  pcrit_Offset : Z
}.

(** In the bulk methods [visit i] is the order in which the repository
    visits the store during the [i]-th call and [clock i] what the clock
    reads then. *)
Module UserManagementService.
Import InMemoryEventBus.
Section WithDeps.
Context {W : Type}.
Variable TrimSpace : string -> string.
Variable emailRegex_MatchString : string -> bool.
Variable eventBus : gmap string (list (@EventHandler W)).

Definition BulkCreateUsers (r : gmap string User) (w : W)
    (visit : nat -> list User) (clock : nat -> Time)
    (users : list CreateUserRequest)
  : gmap string User * W * (list User * list BulkOperationError) :=
  bulk_loop
    (fun i '(r, w) req =>
       UserService.CreateUser TrimSpace emailRegex_MatchString eventBus
         r w (visit i) (ureq_ID req) (ureq_Email req) (ureq_Name req)
         (clock i))
    0 (r, w) users [] [].

Definition BulkDeactivateUsers (r : gmap string User) (w : W)
    (clock : nat -> Time) (userIDs : list string)
  : gmap string User * W * (list User * list BulkOperationError) :=
  bulk_loop
    (fun i '(r, w) userID =>
       UserService.DeactivateUser eventBus r w userID (clock i))
    0 (r, w) userIDs [] [].

Definition GetUserStatistics (r : gmap string User) (iter : list User)
  : outcome (result UserStatistics) :=
  match InMemoryUserRepository.Count r with
  | Err err => Returns (Err err)
  | Ok totalUsers =>
      match InMemoryUserRepository.FindActive iter 1000 0 with
      | Panics msg => Panics msg
      | Returns (_, Some err) => Returns (Err err)
      | Returns (activeUsers, None) =>
          let inactiveUsers :=
            GoInt.sub totalUsers (GoInt.len activeUsers) in
          Returns (Ok {| TotalUsers := totalUsers;
                         ActiveUsers := GoInt.len activeUsers;
                         InactiveUsers := inactiveUsers |})
      end
  end.

Definition SearchUsers (iter : list User) (criteria : SearchCriteria)
  : outcome (list User * option error) :=
  if negb (String.eqb (crit_Email criteria) "") then
    match UserService.GetUserByEmail iter (crit_Email criteria) with
    | Err err => Returns ([], Some err)
    | Ok user => Returns ([user], None)
    end
  else UserService.ListUsers iter (crit_Limit criteria)
         (crit_Offset criteria).
End WithDeps.
End UserManagementService.

Module ProductManagementService.
Import InMemoryEventBus.
Section WithDeps.
Context {W : Type}.
Variable TrimSpace : string -> string.
Variable eventBus : gmap string (list (@EventHandler W)).

Definition BulkCreateProducts (r : gmap string Product) (w : W)
    (clock : nat -> Time) (products : list CreateProductRequest)
  : gmap string Product * W * (list Product * list BulkOperationError) :=
  bulk_loop
    (fun i '(r, w) req =>
       ProductService.CreateProduct TrimSpace eventBus r w
         (preq_ID req) (preq_Name req) (preq_Description req)
         (preq_Category req) (preq_Price req) (preq_Stock req) (clock i))
    0 (r, w) products [] [].

Definition BulkUpdateStock (r : gmap string Product) (w : W)
    (clock : nat -> Time) (stockUpdates : list StockUpdateRequest)
  : gmap string Product * W * (list Product * list BulkOperationError) :=
  bulk_loop
    (fun i '(r, w) req =>
       ProductService.UpdateStock TrimSpace eventBus r w
         (sreq_ProductID req) (sreq_NewStock req) (clock i))
    0 (r, w) stockUpdates [] [].

Definition GetProductStatistics (r : gmap string Product)
    (iter : list Product) : outcome (result ProductStatistics) :=
  match InMemoryProductRepository.Count r with
  | Err err => Returns (Err err)
  | Ok totalProducts =>
      match InMemoryProductRepository.FindAvailable iter 1000 0 with
      | Panics msg => Panics msg
      | Returns (_, Some err) => Returns (Err err)
      | Returns (availableProducts, None) =>
          let unavailableProducts :=
            GoInt.sub totalProducts (GoInt.len availableProducts) in
          Returns (Ok {| TotalProducts := totalProducts;
                         AvailableProducts := GoInt.len availableProducts;
                         UnavailableProducts := unavailableProducts |})
      end
  end.

Definition SearchProducts (iter : list Product)
    (criteria : ProductSearchCriteria)
  : outcome (list Product * option error) :=
  if negb (String.eqb (pcrit_Category criteria) "") then
    ProductService.ListProductsByCategory iter (pcrit_Category criteria)
      (pcrit_Limit criteria) (pcrit_Offset criteria)
  else if (0 <? pcrit_MinPrice criteria)%float ||
          (0 <? pcrit_MaxPrice criteria)%float then
    let minPrice := pcrit_MinPrice criteria in
    let maxPrice :=
      if (pcrit_MaxPrice criteria =? 0)%float then 1000000%float
      else pcrit_MaxPrice criteria in
    ProductService.ListProductsByPriceRange iter minPrice maxPrice
      (pcrit_Limit criteria) (pcrit_Offset criteria)
  else ProductService.ListProducts iter (pcrit_Limit criteria)
         (pcrit_Offset criteria).
End WithDeps.
End ProductManagementService.

(** ** The standard-library functions on ASCII input

    Instances of [strings.TrimSpace] and of the email pattern
    [^[a-zA-Z0-9._%+-]+@[a-zA-Z0-9.-]+\.[a-zA-Z]{2,}$] for running the
    services on concrete requests.  They agree with the Go functions on
    strings of ASCII bytes. *)

Module AsciiStdlib.
Local Open Scope char_scope.

Definition byte_in (lo hi : ascii) (c : ascii) : bool :=
  (nat_of_ascii lo <=? nat_of_ascii c)%nat &&
  (nat_of_ascii c <=? nat_of_ascii hi)%nat.

(** The bytes 9..13 and the blank. *)
Definition is_space (c : ascii) : bool :=
  byte_in (ascii_of_nat 9) (ascii_of_nat 13) c || Ascii.eqb c " ".

Definition is_letter (c : ascii) : bool :=
  byte_in "a" "z" c || byte_in "A" "Z" c.

Definition is_alnum (c : ascii) : bool :=
  is_letter c || byte_in "0" "9" c.

Definition is_local (c : ascii) : bool :=
  is_alnum c || existsb (Ascii.eqb c) ["."; "_"; "%"; "+"; "-"].

Definition is_domain (c : ascii) : bool :=
  is_alnum c || existsb (Ascii.eqb c) ["."; "-"].

Fixpoint drop_spaces (cs : list ascii) : list ascii :=
  match cs with
  | c :: rest => if is_space c then drop_spaces rest else cs
  | [] => []
  end.

Definition TrimSpace (s : string) : string :=
  string_of_list_ascii
    (rev (drop_spaces (rev (drop_spaces (list_ascii_of_string s))))).

(** [cs] cut at the first byte equal to [sep]. *)
Fixpoint cut (sep : ascii) (cs : list ascii)
  : option (list ascii * list ascii) :=
  match cs with
  | [] => None
  | c :: rest =>
      if Ascii.eqb c sep then Some ([], rest)
      else match cut sep rest with
           | Some (before, after) => Some (c :: before, after)
           | None => None
           end
  end.

(** The local part runs to the only [@]; the top-level domain is what
    follows the last dot. *)
Definition emailRegex_MatchString (s : string) : bool :=
  match cut "@" (list_ascii_of_string s) with
  | None => false
  | Some (local_part, host) =>
      match cut "." (rev host) with
      | None => false
      | Some (tld_rev, domain_rev) =>
          negb (length local_part =? 0)%nat && forallb is_local local_part &&
          negb (length domain_rev =? 0)%nat && forallb is_domain domain_rev &&
          (2 <=? length tld_rev)%nat && forallb is_letter tld_rev
      end
  end.
End AsciiStdlib.

(** ** Requests and runs, for stating the properties *)

(** An update request whose price or whose stock is provided and negative:
    what [Product.UpdatePrice] and [Product.UpdateStock] turn down. *)
Definition negative_field (price : option float) (stock : option Z) : bool :=
  match price with Some v => (v <? 0)%float | None => false end ||
  match stock with Some v => v <? 0 | None => false end.

(** The [n]-th of a family of users with distinct identifiers and emails,
    and the first [n] of them, for running the finders. *)
Definition sample_user (active : bool) (n : nat) : User :=
  let tag := String (ascii_of_nat (65 + n)) "" in
  mkUser ("user-" ++ tag)%string (tag ++ "@example.com")%string
         ("User " ++ tag)%string 1 1 active.

Definition sample_users (n : nat) : list User :=
  map (sample_user true) (seq 0 n).

(** The store that holds exactly the given users. *)
Definition user_store (users : list User) : gmap string User :=
  list_to_map (map (fun user => (user_ID user, user)) users).

(** Every entry of the store sits under the identifier it carries. *)
Definition users_keyed (r : gmap string User) : Prop :=
  forall k u, r !! k = Some u -> user_ID u = k.

Definition products_keyed (r : gmap string Product) : Prop :=
  forall k p, r !! k = Some p -> ID p = k.

(** No two entries of the store carry the same email. *)
Definition emails_unique (r : gmap string User) : Prop :=
  forall k1 k2 u1 u2,
    r !! k1 = Some u1 -> r !! k2 = Some u2 ->
    user_Email u1 = user_Email u2 -> k1 = k2.

(** Every stored user passes the entity's [IsValid]. *)
Definition users_valid (r : gmap string User) : Prop :=
  forall k u, r !! k = Some u -> User_IsValid u = true.

(** The [n]-th of a family of products with distinct identifiers, [n]
    pieces in stock each, in category Home for an even [n] and Garden for
    an odd one; the first [n] of them; the store that holds given
    products. *)
Definition sample_product (n : nat) : Product :=
  let tag := String (ascii_of_nat (65 + n)) "" in
  mkProduct ("prod-" ++ tag)%string ("Product " ++ tag)%string ""
            10 (Z.of_nat n) (if Nat.even n then "Home" else "Garden")
            1 1 true.

Definition sample_products (n : nat) : list Product :=
  map sample_product (seq 0 n).

Definition product_store (products : list Product) : gmap string Product :=
  list_to_map (map (fun product => (ID product, product)) products).

(** The calls that write to a user store: the processor's methods and the
    repository's [Delete], each with the arguments of the call. *)
Inductive UserOp : Type :=
| OpCreateUser (iter : list User) (id email name : string) (now : Time)
| OpUpdateUser (iter : list User) (id : string) (email name : option string)
               (nowEmail nowName : Time)
| OpDeactivateUser (id : string) (now : Time)
| OpActivateUser (id : string) (now : Time)
| OpDeleteUser (id : string).

(** The store a call leaves behind. *)
Definition run_user_op (r : gmap string User) (op : UserOp)
  : gmap string User :=
  match op with
  | OpCreateUser iter id email name now =>
      (UserProcessor.CreateUser r iter id email name now).1
  | OpUpdateUser iter id email name nowEmail nowName =>
      (UserProcessor.UpdateUser r iter id email name nowEmail nowName).1
  | OpDeactivateUser id now => (UserProcessor.DeactivateUser r id now).1
  | OpActivateUser id now => (UserProcessor.ActivateUser r id now).1
  | OpDeleteUser id => (InMemoryUserRepository.Delete r id).1
  end.

(** The order of the visit a call is given is an order of the store it runs
    on. *)
Definition user_op_visits (r : gmap string User) (op : UserOp) : Prop :=
  match op with
  | OpCreateUser iter _ _ _ _ => ranges_over r iter
  | OpUpdateUser iter _ _ _ _ _ => ranges_over r iter
  | _ => True
  end.

(** The stores these calls lead to from the empty store. *)
Inductive reachable_users : gmap string User -> Prop :=
| reachable_users_empty : reachable_users ∅
| reachable_users_step r op :
    reachable_users r -> user_op_visits r op ->
    reachable_users (run_user_op r op).

Inductive ProductOp : Type :=
| OpCreateProduct (id name description category : string) (price : float)
                  (stock : Z) (now : Time)
| OpUpdateProduct (id : string) (name description category : option string)
                  (price : option float) (stock : option Z)
                  (nowPrice nowStock : Time)
| OpUpdateStock (id : string) (newStock : Z) (now : Time)
| OpAddStock (id : string) (quantity : Z) (now : Time)
| OpRemoveStock (id : string) (quantity : Z) (now : Time)
| OpDeactivateProduct (id : string) (now : Time)
| OpActivateProduct (id : string) (now : Time)
| OpDeleteProduct (id : string).

Definition run_product_op (r : gmap string Product) (op : ProductOp)
  : gmap string Product :=
  match op with
  | OpCreateProduct id name description category price stock now =>
      (ProductProcessor.CreateProduct r id name description category
         price stock now).1
  | OpUpdateProduct id name description category price stock
                    nowPrice nowStock =>
      (ProductProcessor.UpdateProduct r id name description category
         price stock nowPrice nowStock).1
  | OpUpdateStock id newStock now =>
      (ProductProcessor.UpdateStock r id newStock now).1
  | OpAddStock id quantity now =>
      (ProductProcessor.AddStock r id quantity now).1
  | OpRemoveStock id quantity now =>
      (ProductProcessor.RemoveStock r id quantity now).1
  | OpDeactivateProduct id now =>
      (ProductProcessor.DeactivateProduct r id now).1
  | OpActivateProduct id now => (ProductProcessor.ActivateProduct r id now).1
  | OpDeleteProduct id => (InMemoryProductRepository.Delete r id).1
  end.

Inductive reachable_products : gmap string Product -> Prop :=
| reachable_products_empty : reachable_products ∅
| reachable_products_step r op :
    reachable_products r -> reachable_products (run_product_op r op).

(** The validators' messages speak of characters where the code takes
    [len], the number of bytes.  In a well-formed UTF-8 string the
    characters are the bytes that do not continue one, those outside
    128..191. *)
Definition starts_character (c : ascii) : bool :=
  negb ((128 <=? nat_of_ascii c)%nat && (nat_of_ascii c <=? 191)%nat).

Fixpoint utf8_characters (s : string) : Z :=
  match s with
  | EmptyString => 0
  | String c rest =>
      (if starts_character c then 1 else 0) + utf8_characters rest
  end.

(** * Properties *)

(** ** Facts on Go's [int] *)

Module GoIntFacts.
Import GoInt.

Lemma wrap_in_range z : in_range (wrap z).
Proof.
  unfold in_range, wrap, min_int, max_int.
  pose proof (Z.mod_pos_bound (z + 2 ^ 63) (2 ^ 64)). lia.
Qed.

Lemma wrap_id z : in_range z -> wrap z = z.
Proof.
  unfold in_range, wrap, min_int, max_int. intros Hz.
  rewrite Z.mod_small; lia.
Qed.

Lemma add_exact a b : in_range (a + b) -> add a b = a + b.
Proof. apply wrap_id. Qed.

Lemma sub_exact a b : in_range (a - b) -> sub a b = a - b.
Proof. apply wrap_id. Qed.

Lemma len_nonneg {A} (xs : list A) : 0 <= len xs.
Proof. unfold len. lia. Qed.

End GoIntFacts.

(** ** Creating and reading back a user *)

Section UserCreation.
Import InMemoryUserRepository.

Lemma NewUser_ok id email name now :
  id ≠ "" -> email ≠ "" -> name ≠ "" ->
  NewUser id email name now = Ok (mkUser id email name now now true).
Proof.
  intros Hid Hemail Hname. unfold NewUser.
  destruct (decide (id = "")) as [->|_]; [done|].
  destruct (decide (email = "")) as [->|_]; [done|].
  destruct (decide (name = "")) as [->|_]; done.
Qed.

Lemma NewUser_inv id email name now u :
  NewUser id email name now = Ok u ->
  u = mkUser id email name now now true /\
  id ≠ "" /\ email ≠ "" /\ name ≠ "".
Proof.
  unfold NewUser. intros H.
  destruct (decide (id = "")); [discriminate|].
  destruct (decide (email = "")); [discriminate|].
  destruct (decide (name = "")); [discriminate|].
  by inversion H.
Qed.

Lemma ranges_over_empty {V} (iter : list V) :
  ranges_over (∅ : gmap string V) iter -> iter = [].
Proof.
  unfold ranges_over. rewrite map_to_list_empty. simpl.
  apply Permutation_nil_r.
Qed.

Lemma Exists_spec (r : gmap string User) id :
  Exists r id = Ok (bool_decide (is_Some (r !! id))).
Proof. reflexivity. Qed.

(** A create on a store without the identifier and without the email saves
    the freshly built user under its identifier. *)
Lemma CreateUser_fresh (r : gmap string User) iter id email name now :
  r !! id = None ->
  List.find (fun user => String.eqb (user_Email user) email) iter = None ->
  id ≠ "" -> email ≠ "" -> name ≠ "" ->
  UserProcessor.CreateUser r iter id email name now =
    (<[id := mkUser id email name now now true]> r,
     Ok (mkUser id email name now now true)).
Proof.
  intros Hfree Hmail Hid Hemail Hname. unfold UserProcessor.CreateUser.
  rewrite Exists_spec, Hfree, bool_decide_eq_false_2 by (by intros [? ?]).
  unfold FindByEmail. rewrite Hmail, NewUser_ok by done. reflexivity.
Qed.

(** A create that succeeds returns the user built from its arguments and
    leaves it in the store under the identifier. *)
Lemma CreateUser_Ok_inv (r r' : gmap string User) iter id email name now u :
  UserProcessor.CreateUser r iter id email name now = (r', Ok u) ->
  u = mkUser id email name now now true /\ r' = <[id := u]> r /\
  r !! id = None.
Proof.
  unfold UserProcessor.CreateUser. rewrite Exists_spec.
  destruct (r !! id) as [old|] eqn:Hold.
  - rewrite bool_decide_eq_true_2 by eauto. discriminate.
  - rewrite bool_decide_eq_false_2 by (by intros [? ?]).
    unfold FindByEmail.
    destruct (List.find _ iter); [discriminate|].
    destruct (NewUser id email name now) as [user|err] eqn:Hnew;
      [|discriminate].
    apply NewUser_inv in Hnew as (-> & _). simpl.
    intros [= <- <-]. done.
Qed.

(** C1: on an empty user store, for every triple the constructor accepts
    (no field empty), [CreateUser] succeeds and a following [GetUser] of
    the same identifier returns a user with exactly the given ID, Email
    and Name, active, and with CreatedAt equal to UpdatedAt.  The same
    holds through the service for every such triple its validator lets
    through, whatever the subscribed handlers do with the event. *)
Theorem create_then_get_user (iter : list User) (id email name : string)
    (now : Time) :
  ranges_over (∅ : gmap string User) iter ->
  id ≠ "" -> email ≠ "" -> name ≠ "" ->
  (exists r' created got,
      UserProcessor.CreateUser ∅ iter id email name now = (r', Ok created) /\
      UserProcessor.GetUser r' id = Ok got /\
      got = created /\
      user_ID got = id /\ user_Email got = email /\ user_Name got = name /\
      user_IsActive got = true /\
      user_CreatedAt got = user_UpdatedAt got) /\
  (forall (W : Type) (TrimSpace : string -> string)
          (emailRegex_MatchString : string -> bool)
          (eventBus : gmap string (list (@InMemoryEventBus.EventHandler W)))
          (w : W),
      UserValidator.ValidateCreateUser TrimSpace emailRegex_MatchString
        id email name = None ->
      exists r' w' created got,
        UserService.CreateUser TrimSpace emailRegex_MatchString eventBus
          ∅ w iter id email name now = (r', w', Ok created) /\
        UserService.GetUser r' id = Ok got /\
        got = created /\
        user_ID got = id /\ user_Email got = email /\ user_Name got = name /\
        user_IsActive got = true /\
        user_CreatedAt got = user_UpdatedAt got).
Proof.
  intros Hiter Hid Hemail Hname.
  apply ranges_over_empty in Hiter as ->.
  pose proof (CreateUser_fresh ∅ [] id email name now
                (lookup_empty id) eq_refl Hid Hemail Hname) as Hcreate.
  split.
  - eexists _, _, _. split; [exact Hcreate|].
    unfold UserProcessor.GetUser, FindByID.
    rewrite lookup_insert_eq. simpl. done.
  - intros W TrimSpace emailRegex_MatchString eventBus w Hvalid.
    unfold UserService.CreateUser. rewrite Hvalid, Hcreate.
    destruct (UserEventPublisher.PublishUserCreated _ _ _) as [w' err].
    eexists _, _, _, _. split; [reflexivity|].
    unfold UserService.GetUser, UserProcessor.GetUser, FindByID.
    rewrite lookup_insert_eq. simpl. done.
Qed.

Lemma create_then_get_user_witness :
  exists r' w' created got,
    UserService.CreateUser (W := list string) AsciiStdlib.TrimSpace
      AsciiStdlib.emailRegex_MatchString ∅ ∅ [] [] "test-user"
      "test@example.com" "Test User" 1700000000 = (r', w', Ok created) /\
    UserService.GetUser r' "test-user" = Ok got /\
    got = created /\
    user_ID got = "test-user" /\ user_Email got = "test@example.com" /\
    user_Name got = "Test User" /\
    user_IsActive got = true /\
    user_CreatedAt got = user_UpdatedAt got.
Proof.
  refine (proj2 (create_then_get_user [] "test-user" "test@example.com"
                   "Test User" 1700000000 _ _ _ _)
            (list string) AsciiStdlib.TrimSpace
            AsciiStdlib.emailRegex_MatchString ∅ [] _).
  - unfold ranges_over. rewrite map_to_list_empty. reflexivity.
  - discriminate.
  - discriminate.
  - discriminate.
  - vm_compute. reflexivity.
Defined.

End UserCreation.

(** ** Creating twice under one identifier *)

Section DuplicateCreate.

Lemma NewProduct_inv id name description category price stock now p :
  NewProduct id name description category price stock now = Ok p ->
  p = mkProduct id name description price stock category now now true /\
  id ≠ "" /\ name ≠ "" /\ (price <? 0)%float = false /\ 0 <= stock.
Proof.
  unfold NewProduct. intros H.
  destruct (decide (id = "")); [discriminate|].
  destruct (decide (name = "")); [discriminate|].
  destruct (price <? 0)%float eqn:Hprice; [discriminate|].
  destruct (stock <? 0) eqn:Hstock; [discriminate|].
  apply Z.ltb_ge in Hstock. by inversion H.
Qed.

Lemma NewProduct_ok id name description category price stock now :
  id ≠ "" -> name ≠ "" -> (price <? 0)%float = false -> 0 <= stock ->
  NewProduct id name description category price stock now =
    Ok (mkProduct id name description price stock category now now true).
Proof.
  intros Hid Hname Hprice Hstock. unfold NewProduct.
  destruct (decide (id = "")); [done|].
  destruct (decide (name = "")); [done|].
  rewrite Hprice. destruct (Z.ltb_spec stock 0); [lia|done].
Qed.

Lemma CreateProduct_Ok_inv (r r' : gmap string Product)
    id name description category price stock now p :
  ProductProcessor.CreateProduct r id name description category price stock
    now = (r', Ok p) ->
  p = mkProduct id name description price stock category now now true /\
  r' = <[id := p]> r /\ r !! id = None /\
  (price <? 0)%float = false /\ 0 <= stock.
Proof.
  unfold ProductProcessor.CreateProduct, InMemoryProductRepository.Exists.
  destruct (r !! id) as [old|] eqn:Hold.
  - rewrite bool_decide_eq_true_2 by eauto. discriminate.
  - rewrite bool_decide_eq_false_2 by (by intros [? ?]).
    destruct (NewProduct id name description category price stock now)
      as [product|err] eqn:Hnew; [|discriminate].
    apply NewProduct_inv in Hnew as (-> & _ & _ & Hprice & Hstock). simpl.
    intros [= <- <-]. done.
Qed.

Lemma CreateUser_existing (r : gmap string User) iter id email name now :
  is_Some (r !! id) ->
  UserProcessor.CreateUser r iter id email name now =
    (r, Err "user already exists").
Proof.
  intros Hsome. unfold UserProcessor.CreateUser, InMemoryUserRepository.Exists.
  by rewrite bool_decide_eq_true_2.
Qed.

Lemma CreateProduct_existing (r : gmap string Product)
    id name description category price stock now :
  is_Some (r !! id) ->
  ProductProcessor.CreateProduct r id name description category price stock
    now = (r, Err "product already exists").
Proof.
  intros Hsome.
  unfold ProductProcessor.CreateProduct, InMemoryProductRepository.Exists.
  by rewrite bool_decide_eq_true_2.
Qed.

(** C5 as stated fails for the empty identifier: the constructors turn it
    down, so on the empty store the first create does not succeed, and the
    second fails the same way, not with the already-exists error. *)
Lemma empty_identifier_is_never_created :
  UserProcessor.CreateUser ∅ [] "" "ana@example.com" "Ana" 10 =
    (∅, Err "user ID cannot be empty") /\
  UserProcessor.CreateUser ∅ [] "" "ana@example.com" "Ana" 20 =
    (∅, Err "user ID cannot be empty") /\
  ProductProcessor.CreateProduct ∅ "" "Lamp" "Desk lamp" "Home" 20 10 10 =
    (∅, Err "product ID cannot be empty") /\
  ProductProcessor.CreateProduct ∅ "" "Lamp" "Desk lamp" "Home" 20 10 20 =
    (∅, Err "product ID cannot be empty").
Proof. repeat split; vm_compute; reflexivity. Qed.

(** C5, amended: for a non-empty identifier the store does not hold yet and
    a first request the constructor accepts (for a user an email and a name
    that are not empty, the email found with no stored user; for a product
    a name that is not empty and a price and a stock that are not
    negative), the first create succeeds and saves the entity built from
    its arguments, and a second create with that identifier, whatever its
    other arguments, fails with the already-exists error and leaves the
    store as the first create left it: the identifier still maps to the
    first entity and every other entry is as before.  This holds for users
    and for products, and through the user service for a request the
    validator lets through. *)
Theorem second_create_already_exists :
  (forall (r : gmap string User) iter1 iter2 id
          email1 name1 now1 email2 name2 now2,
      id ≠ "" -> email1 ≠ "" -> name1 ≠ "" ->
      r !! id = None ->
      InMemoryUserRepository.FindByEmail iter1 email1 = Ok None ->
      exists r1 u1,
        UserProcessor.CreateUser r iter1 id email1 name1 now1 = (r1, Ok u1) /\
        u1 = mkUser id email1 name1 now1 now1 true /\
        UserProcessor.CreateUser r1 iter2 id email2 name2 now2 =
          (r1, Err "user already exists") /\
        r1 !! id = Some u1 /\
        UserProcessor.GetUser r1 id = Ok u1 /\
        (forall k, k ≠ id -> r1 !! k = r !! k)) /\
  (forall (r : gmap string Product) id
          name1 description1 category1 price1 stock1 now1
          name2 description2 category2 price2 stock2 now2,
      id ≠ "" -> name1 ≠ "" ->
      (price1 <? 0)%float = false -> 0 <= stock1 ->
      r !! id = None ->
      exists r1 p1,
        ProductProcessor.CreateProduct r id name1 description1 category1
          price1 stock1 now1 = (r1, Ok p1) /\
        p1 = mkProduct id name1 description1 price1 stock1 category1
                       now1 now1 true /\
        ProductProcessor.CreateProduct r1 id name2 description2 category2
          price2 stock2 now2 = (r1, Err "product already exists") /\
        r1 !! id = Some p1 /\
        ProductProcessor.GetProduct r1 id = Ok p1 /\
        (forall k, k ≠ id -> r1 !! k = r !! k)) /\
  (forall (W : Type) (TrimSpace : string -> string)
          (emailRegex_MatchString : string -> bool)
          (eventBus : gmap string (list (@InMemoryEventBus.EventHandler W)))
          (r : gmap string User) (w : W) iter1 iter2 id email name
          now1 now2,
      UserValidator.ValidateCreateUser TrimSpace emailRegex_MatchString
        id email name = None ->
      id ≠ "" -> email ≠ "" -> name ≠ "" ->
      r !! id = None ->
      InMemoryUserRepository.FindByEmail iter1 email = Ok None ->
      exists r1 w1 u1,
        UserService.CreateUser TrimSpace emailRegex_MatchString eventBus
          r w iter1 id email name now1 = (r1, w1, Ok u1) /\
        u1 = mkUser id email name now1 now1 true /\
        UserService.CreateUser TrimSpace emailRegex_MatchString eventBus
          r1 w1 iter2 id email name now2 =
          (r1, w1, Err "user already exists") /\
        r1 !! id = Some u1 /\
        UserService.GetUser r1 id = Ok u1).
Proof.
  split; [|split].
  - intros * Hid Hemail Hname Hfree [= Hfind].
    eexists _, _. split; [by apply CreateUser_fresh|].
    split; [reflexivity|]. split.
    + apply CreateUser_existing. rewrite lookup_insert_eq. eauto.
    + split; [apply lookup_insert_eq|]. split.
      * unfold UserProcessor.GetUser, InMemoryUserRepository.FindByID.
        by rewrite lookup_insert_eq.
      * intros k Hk. by rewrite lookup_insert_ne.
  - intros * Hid Hname Hprice Hstock Hfree.
    eexists _, _. split.
    + unfold ProductProcessor.CreateProduct,
        InMemoryProductRepository.Exists, InMemoryProductRepository.Save.
      rewrite Hfree, bool_decide_eq_false_2 by (by intros [? ?]).
      rewrite NewProduct_ok by done. reflexivity.
    + split; [reflexivity|]. split.
      * apply CreateProduct_existing. rewrite lookup_insert_eq. eauto.
      * split; [apply lookup_insert_eq|]. split.
        -- unfold ProductProcessor.GetProduct,
             InMemoryProductRepository.FindByID.
           by rewrite lookup_insert_eq.
        -- intros k Hk. by rewrite lookup_insert_ne.
  - intros * Hvalid Hid Hemail Hname Hfree [= Hfind].
    unfold UserService.CreateUser. rewrite Hvalid.
    rewrite (CreateUser_fresh r iter1 id email name now1) by done.
    destruct (UserEventPublisher.PublishUserCreated _ _ _) as [w1 perr].
    eexists _, _, _. split; [reflexivity|]. split; [reflexivity|].
    rewrite CreateUser_existing by (rewrite lookup_insert_eq; eauto).
    split; [reflexivity|]. split; [apply lookup_insert_eq|].
    unfold UserService.GetUser, UserProcessor.GetUser,
      InMemoryUserRepository.FindByID.
    by rewrite lookup_insert_eq.
Qed.

Lemma second_create_already_exists_witness :
  let u1 := mkUser "user-1" "ana@example.com" "Ana" 10 10 true in
  let p1 := mkProduct "prod-1" "Lamp" "Desk lamp" 20 10 "Home" 10 10 true in
  (exists r1 u,
      UserProcessor.CreateUser ∅ [] "user-1" "ana@example.com" "Ana" 10 =
        (r1, Ok u) /\
      u = u1 /\
      UserProcessor.CreateUser r1 [u1] "user-1" "other@example.com" "Other"
        20 = (r1, Err "user already exists") /\
      r1 !! "user-1" = Some u /\
      UserProcessor.GetUser r1 "user-1" = Ok u /\
      (forall k, k ≠ "user-1" -> r1 !! k = (∅ : gmap string User) !! k)) /\
  (exists r1 p,
      ProductProcessor.CreateProduct ∅ "prod-1" "Lamp" "Desk lamp" "Home"
        20 10 10 = (r1, Ok p) /\
      p = p1 /\
      ProductProcessor.CreateProduct r1 "prod-1" "Chair" "" "Home" 5 1 20 =
        (r1, Err "product already exists") /\
      r1 !! "prod-1" = Some p /\
      ProductProcessor.GetProduct r1 "prod-1" = Ok p /\
      (forall k, k ≠ "prod-1" -> r1 !! k = (∅ : gmap string Product) !! k)).
Proof.
  intros u1 p1. split.
  - apply (proj1 second_create_already_exists
             ∅ [] [u1] "user-1" "ana@example.com" "Ana" 10
             "other@example.com" "Other" 20);
      try discriminate; reflexivity.
  - apply (proj1 (proj2 second_create_already_exists)
             ∅ "prod-1" "Lamp" "Desk lamp" "Home" 20%float 10 10
             "Chair" "" "Home" 5%float 1 20);
      try discriminate; reflexivity.
Defined.

End DuplicateCreate.

(** ** Requests the validators turn down *)

Section Validation.
Context {W : Type}.
Variable TrimSpace : string -> string.
Variable emailRegex_MatchString : string -> bool.

Lemma user_validateID_short id :
  GoInt.strlen id < 3 ->
  UserValidator.validateID TrimSpace id = Some "user ID cannot be empty" \/
  UserValidator.validateID TrimSpace id =
    Some "user ID must be at least 3 characters long".
Proof.
  intros Hshort. unfold UserValidator.validateID.
  destruct (decide (TrimSpace id = "")); [by left|right].
  destruct (Z.ltb_spec (GoInt.strlen id) 3); [done|lia].
Qed.

Lemma product_validateID_short id :
  GoInt.strlen id < 3 ->
  ProductValidator.validateID TrimSpace id =
    Some "product ID cannot be empty" \/
  ProductValidator.validateID TrimSpace id =
    Some "product ID must be at least 3 characters long".
Proof.
  intros Hshort. unfold ProductValidator.validateID.
  destruct (decide (TrimSpace id = "")); [by left|right].
  destruct (Z.ltb_spec (GoInt.strlen id) 3); [done|lia].
Qed.

(** What the validators do turn down: a create request whose identifier
    takes fewer than 3 bytes ([len id < 3]) is answered with the
    identifier's validation error, and
    the call leaves the store (and the handlers' world) exactly as it found
    them, so a lookup of the identifier afterwards gives what it gave
    before.  This holds for the user service and for the product
    service. *)
Theorem short_id_create_rejected (id : string) :
  GoInt.strlen id < 3 ->
  (forall (eventBus : gmap string (list (@InMemoryEventBus.EventHandler W)))
          (r : gmap string User) (w : W) iter email name now,
      exists err,
        UserService.CreateUser TrimSpace emailRegex_MatchString eventBus
          r w iter id email name now = (r, w, Err err) /\
        (err = "user ID cannot be empty" \/
         err = "user ID must be at least 3 characters long") /\
        UserService.GetUser
          (UserService.CreateUser TrimSpace emailRegex_MatchString eventBus
             r w iter id email name now).1.1 id = UserService.GetUser r id) /\
  (forall (eventBus : gmap string (list (@InMemoryEventBus.EventHandler W)))
          (r : gmap string Product) (w : W)
          name description category price stock now,
      exists err,
        ProductService.CreateProduct TrimSpace eventBus
          r w id name description category price stock now = (r, w, Err err) /\
        (err = "product ID cannot be empty" \/
         err = "product ID must be at least 3 characters long") /\
        ProductService.GetProduct
          (ProductService.CreateProduct TrimSpace eventBus
             r w id name description category price stock now).1.1 id =
          ProductService.GetProduct r id).
Proof.
  intros Hshort. split.
  - intros. unfold UserService.CreateUser, UserValidator.ValidateCreateUser.
    destruct (user_validateID_short id Hshort) as [-> | ->];
      eexists; (split; [reflexivity|split; [auto|reflexivity]]).
  - intros.
    unfold ProductService.CreateProduct,
      ProductValidator.ValidateCreateProduct.
    cbn [ProductValidator.first_error].
    destruct (product_validateID_short id Hshort) as [-> | ->];
      eexists; (split; [reflexivity|split; [auto|reflexivity]]).
Qed.

End Validation.

Lemma short_id_create_rejected_witness :
  (exists err,
      UserService.CreateUser (W := list string) AsciiStdlib.TrimSpace
        AsciiStdlib.emailRegex_MatchString ∅ ∅ [] []
        "ab" "ab@example.com" "Ab Cd" 10 = (∅, [], Err err) /\
      (err = "user ID cannot be empty" \/
       err = "user ID must be at least 3 characters long") /\
      UserService.GetUser
        (UserService.CreateUser (W := list string) AsciiStdlib.TrimSpace
           AsciiStdlib.emailRegex_MatchString ∅ ∅ [] []
           "ab" "ab@example.com" "Ab Cd" 10).1.1 "ab" =
        UserService.GetUser ∅ "ab") /\
  (exists err,
      ProductService.CreateProduct (W := list string) AsciiStdlib.TrimSpace
        ∅ ∅ [] "ab" "Lamp" "Desk lamp" "Home" 20 10 10 = (∅, [], Err err) /\
      (err = "product ID cannot be empty" \/
       err = "product ID must be at least 3 characters long") /\
      ProductService.GetProduct
        (ProductService.CreateProduct (W := list string)
           AsciiStdlib.TrimSpace ∅ ∅ [] "ab" "Lamp" "Desk lamp" "Home"
           20 10 10).1.1 "ab" =
        ProductService.GetProduct ∅ "ab").
Proof.
  assert (Hshort : GoInt.strlen "ab" < 3) by (vm_compute; reflexivity).
  split.
  - apply (proj1 (short_id_create_rejected (W := list string)
                    AsciiStdlib.TrimSpace AsciiStdlib.emailRegex_MatchString
                    "ab" Hshort)).
  - apply (proj2 (short_id_create_rejected (W := list string)
                    AsciiStdlib.TrimSpace AsciiStdlib.emailRegex_MatchString
                    "ab" Hshort)).
Defined.

Section ShortIdentifiers.
Context {W : Type}.
Variable TrimSpace : string -> string.
Variable emailRegex_MatchString : string -> bool.

Lemma strlen_nonempty (s : string) : 0 < GoInt.strlen s -> s ≠ "".
Proof. intros Hlen ->. unfold GoInt.strlen in Hlen. simpl in Hlen. lia. Qed.

(** C6, where the code departs from it: [validateID] measures the
    identifier with [len], which counts bytes, although its message speaks
    of characters.  An identifier of fewer than 3 characters that takes
    from 3 to 50 bytes passes it, and with an email and a name the
    validator accepts, on a store that holds neither the identifier nor the
    email, the service answers with no error and writes the user to the
    store, where a lookup of the identifier then finds it. *)
Theorem short_multibyte_id_is_created (id email name : string)
    (eventBus : gmap string (list (@InMemoryEventBus.EventHandler W)))
    (r : gmap string User) (w : W) (iter : list User) (now : Time) :
  utf8_characters id < 3 ->
  3 <= GoInt.strlen id <= 50 ->
  TrimSpace id ≠ "" ->
  UserValidator.validateEmail TrimSpace emailRegex_MatchString email = None ->
  UserValidator.validateName TrimSpace name = None ->
  email ≠ "" -> name ≠ "" ->
  r !! id = None ->
  InMemoryUserRepository.FindByEmail iter email = Ok None ->
  let u := mkUser id email name now now true in
  UserValidator.validateID TrimSpace id = None /\
  (exists w',
      UserService.CreateUser TrimSpace emailRegex_MatchString eventBus
        r w iter id email name now = (<[id := u]> r, w', Ok u)) /\
  UserService.GetUser r id = Err "user not found" /\
  UserService.GetUser (<[id := u]> r) id = Ok u.
Proof.
  intros _ [Hmin Hmax] Htrim Hemail Hname Hemail' Hname' Hfree [= Hfind] u.
  assert (Hid : UserValidator.validateID TrimSpace id = None).
  { unfold UserValidator.validateID.
    destruct (decide (TrimSpace id = "")); [done|].
    destruct (Z.ltb_spec (GoInt.strlen id) 3); [lia|].
    destruct (Z.ltb_spec 50 (GoInt.strlen id)); [lia|done]. }
  split; [exact Hid|]. split; [|split].
  - unfold UserService.CreateUser, UserValidator.ValidateCreateUser.
    rewrite Hid, Hemail, Hname.
    rewrite (CreateUser_fresh r iter id email name now); try done;
      [|apply strlen_nonempty; lia].
    destruct (UserEventPublisher.PublishUserCreated _ _ _) as [w' perr].
    by exists w'.
  - unfold UserService.GetUser, UserProcessor.GetUser,
      InMemoryUserRepository.FindByID.
    by rewrite Hfree.
  - unfold UserService.GetUser, UserProcessor.GetUser,
      InMemoryUserRepository.FindByID.
    by rewrite lookup_insert_eq.
Qed.

End ShortIdentifiers.

(** The identifier is the one character U+65E5, three bytes in UTF-8. *)
Lemma short_multibyte_id_is_created_witness :
  let id := String "230" (String "151" (String "165" "")) in
  let u := mkUser id "ana@example.com" "Ana" 10 10 true in
  utf8_characters id = 1 /\
  GoInt.strlen id = 3 /\
  UserValidator.validateID AsciiStdlib.TrimSpace id = None /\
  (exists w',
      UserService.CreateUser (W := list string) AsciiStdlib.TrimSpace
        AsciiStdlib.emailRegex_MatchString ∅ ∅ [] [] id "ana@example.com"
        "Ana" 10 = (<[id := u]> ∅, w', Ok u)) /\
  UserService.GetUser ∅ id = Err "user not found" /\
  UserService.GetUser (<[id := u]> ∅) id = Ok u.
Proof.
  intros id u.
  split; [reflexivity|]. split; [reflexivity|].
  apply (short_multibyte_id_is_created (W := list string)
           AsciiStdlib.TrimSpace AsciiStdlib.emailRegex_MatchString
           id "ana@example.com" "Ana" ∅ ∅ [] [] 10);
    try (vm_compute; reflexivity); try discriminate.
  vm_compute. split; discriminate.
Defined.

(** ** Updating a product *)

Section ProductUpdate.
Import InMemoryProductRepository.

Lemma apply_fields_negative product name description category price stock
    nowPrice nowStock :
  negative_field price stock = true ->
  ProductProcessor.apply_fields product name description category price stock
    nowPrice nowStock = Err "price cannot be negative" \/
  ProductProcessor.apply_fields product name description category price stock
    nowPrice nowStock = Err "stock cannot be negative".
Proof.
  unfold negative_field, ProductProcessor.apply_fields,
    Product_UpdatePrice, Product_UpdateStock.
  intros Hneg.
  destruct price as [v|]; [destruct (v <? 0)%float eqn:Hv|]; auto;
    simpl in Hneg; destruct stock as [s|]; try discriminate;
    rewrite Hneg; auto.
Qed.

(** Whatever makes [UpdateProduct] fail, it fails before [Save]. *)
Lemma UpdateProduct_Err_unchanged (r r' : gmap string Product) id
    name description category price stock nowPrice nowStock err :
  ProductProcessor.UpdateProduct r id name description category price stock
    nowPrice nowStock = (r', Err err) ->
  r' = r.
Proof.
  unfold ProductProcessor.UpdateProduct, FindByID, Save.
  destruct (r !! id); [|by intros [= <-]].
  destruct (ProductProcessor.apply_fields _ _ _ _ _ _ _ _);
    [discriminate|by intros [= <-]].
Qed.

(** What [UpdateProduct] does turn down: for a stored product and an update
    request whose provided price or stock is negative, whatever other
    fields the request provides,
    [ProductProcessor.UpdateProduct] returns the mutator's error and the
    store it leaves behind is the store it was given: nothing of the fields
    applied before the failing one is saved.  More generally a failed
    [UpdateProduct] never changes the store, and at the service, where the
    validator runs first, a request it turns down or one with a negative
    price or stock is answered with an error on an unchanged store. *)
Theorem failed_update_saves_nothing :
  (forall (r : gmap string Product) id p name description category
          price stock nowPrice nowStock,
      r !! id = Some p ->
      negative_field price stock = true ->
      exists err,
        ProductProcessor.UpdateProduct r id name description category
          price stock nowPrice nowStock = (r, Err err) /\
        (err = "price cannot be negative" \/
         err = "stock cannot be negative")) /\
  (forall (r r' : gmap string Product) id name description category
          price stock nowPrice nowStock err,
      ProductProcessor.UpdateProduct r id name description category
        price stock nowPrice nowStock = (r', Err err) ->
      r' = r) /\
  (forall (W : Type) (TrimSpace : string -> string)
          (eventBus : gmap string (list (@InMemoryEventBus.EventHandler W)))
          (r : gmap string Product) (w : W) id name description category
          price stock nowPrice nowStock,
      is_Some (ProductValidator.ValidateUpdateProduct TrimSpace id name
                 description category price stock) \/
      negative_field price stock = true ->
      exists err,
        ProductService.UpdateProduct TrimSpace eventBus r w id name
          description category price stock nowPrice nowStock =
          (r, w, Err err)).
Proof.
  split; [|split].
  - intros * Hstored Hneg.
    unfold ProductProcessor.UpdateProduct, FindByID. rewrite Hstored.
    destruct (apply_fields_negative p name description category price stock
                nowPrice nowStock Hneg) as [-> | ->]; eauto.
  - intros *. apply UpdateProduct_Err_unchanged.
  - intros * Hbad. unfold ProductService.UpdateProduct.
    destruct (ProductValidator.ValidateUpdateProduct _ _ _ _ _ _ _)
      as [verr|] eqn:Hval; [eauto|].
    destruct Hbad as [[? [=]]|Hneg].
    unfold ProductProcessor.UpdateProduct, FindByID.
    destruct (r !! id) as [p|]; [|eauto].
    destruct (apply_fields_negative p name description category price stock
                nowPrice nowStock Hneg) as [-> | ->]; eauto.
Qed.

Lemma failed_update_saves_nothing_witness :
  let p := mkProduct "prod-1" "Lamp" "Desk lamp" 20 10 "Home" 5 5 true in
  let r : gmap string Product := <["prod-1" := p]> ∅ in
  (exists err,
      ProductProcessor.UpdateProduct r "prod-1" (Some "New lamp")
        (Some "Brighter") None (Some 25%float) (Some (-1)) 7 8 =
        (r, Err err) /\
      (err = "price cannot be negative" \/
       err = "stock cannot be negative")) /\
  (exists err,
      ProductService.UpdateProduct (W := list string) AsciiStdlib.TrimSpace
        ∅ r [] "prod-1" (Some "") None None (Some 25%float) None 7 8 =
        (r, [], Err err)).
Proof.
  split.
  - apply (proj1 failed_update_saves_nothing _ "prod-1"
             (mkProduct "prod-1" "Lamp" "Desk lamp" 20 10 "Home" 5 5 true)).
    + reflexivity.
    + reflexivity.
  - apply (proj2 (proj2 failed_update_saves_nothing) (list string)
             AsciiStdlib.TrimSpace).
    left. vm_compute. eexists. reflexivity.
Defined.

(** C2, where the code departs from it: [ProductProcessor.UpdateProduct]
    assigns a provided name to the product without asking the entity.  An
    update that provides the empty name, alone or together with any
    description and category and with a price and a stock that are not
    negative, returns no error and saves the product with the empty name
    and with every other provided field: a stored product that fails the
    entity's own [IsValid]. *)
Theorem empty_name_update_is_saved (r : gmap string Product) id p
    (description category : option string) (price : option float)
    (stock : option Z) (nowPrice nowStock : Time) :
  r !! id = Some p ->
  negative_field price stock = false ->
  exists p',
    ProductProcessor.UpdateProduct r id (Some "") description category
      price stock nowPrice nowStock = (<[ID p := p']> r, Ok p') /\
    <[ID p := p']> r !! ID p = Some p' /\
    Name p' = "" /\
    Description p' = default (Description p) description /\
    Category p' = default (Category p) category /\
    Price p' = default (Price p) price /\
    Stock p' = default (Stock p) stock /\
    Product_IsValid p' = false.
Proof.
  intros Hstored Hneg.
  apply orb_false_iff in Hneg as [Hprice Hstock].
  unfold ProductProcessor.UpdateProduct, FindByID. rewrite Hstored.
  unfold ProductProcessor.apply_fields, Save,
    Product_UpdatePrice, Product_UpdateStock.
  destruct price as [v|], stock as [n|]; rewrite ?Hprice, ?Hstock;
    destruct description, category; simpl;
    (eexists; split; [reflexivity|]; rewrite lookup_insert_eq;
     repeat split; try reflexivity;
     unfold Product_IsValid; simpl;
     by rewrite andb_false_r).
Qed.

Lemma empty_name_update_is_saved_witness :
  let p := mkProduct "prod-1" "Lamp" "Desk lamp" 20 10 "Home" 5 5 true in
  let r : gmap string Product := <["prod-1" := p]> ∅ in
  exists p',
    ProductProcessor.UpdateProduct r "prod-1" (Some "") None None
      (Some 25%float) None 7 8 = (<["prod-1" := p']> r, Ok p') /\
    <["prod-1" := p']> r !! "prod-1" = Some p' /\
    Name p' = "" /\
    Description p' = "Desk lamp" /\
    Category p' = "Home" /\
    Price p' = 25%float /\
    Stock p' = 10 /\
    Product_IsValid p' = false.
Proof.
  intros p r.
  apply (empty_name_update_is_saved r "prod-1" p None None (Some 25%float)
           None 7 8); reflexivity.
Defined.

End ProductUpdate.

(** ** The last-modified instant *)

Section Timestamps.
Import InMemoryProductRepository.

(** Every entity mutator that succeeds stamps the receiver with the clock
    reading of the call. *)
Lemma product_mutators_stamp (p p' : Product) (now : Time) :
  (forall v, Product_UpdatePrice p v now = (p', None) -> UpdatedAt p' = now) /\
  (forall v, Product_UpdateStock p v now = (p', None) -> UpdatedAt p' = now) /\
  (forall q, Product_AddStock p q now = (p', None) -> UpdatedAt p' = now) /\
  (forall q, Product_RemoveStock p q now = (p', None) -> UpdatedAt p' = now) /\
  UpdatedAt (Product_Deactivate p now) = now /\
  UpdatedAt (Product_Activate p now) = now.
Proof.
  unfold Product_UpdatePrice, Product_UpdateStock, Product_AddStock,
    Product_RemoveStock.
  repeat split; try done; intros v.
  - destruct (v <? 0)%float; [discriminate|]. by intros [= <-].
  - destruct (v <? 0); [discriminate|]. by intros [= <-].
  - destruct (v <=? 0); [discriminate|]. by intros [= <-].
  - destruct (v <=? 0); [discriminate|].
    destruct (Stock p <? v); [discriminate|]. by intros [= <-].
Qed.

Lemma user_mutators_stamp (u u' : User) (now : Time) :
  (forall v, User_UpdateEmail u v now = (u', None) -> user_UpdatedAt u' = now) /\
  (forall v, User_UpdateName u v now = (u', None) -> user_UpdatedAt u' = now) /\
  user_UpdatedAt (User_Deactivate u now) = now /\
  user_UpdatedAt (User_Activate u now) = now.
Proof.
  unfold User_UpdateEmail, User_UpdateName.
  repeat split; try done; intros v;
    (destruct (decide (v = "")); [discriminate|]); by intros [= <-].
Qed.

(** Deactivating and then activating a stored product stamps it on both
    calls and leaves it active. *)
Lemma deactivate_then_activate (r : gmap string Product) id p t1 t2 :
  r !! id = Some p -> ID p = id ->
  exists r1 p1 r2 p2,
    ProductProcessor.DeactivateProduct r id t1 = (r1, Ok p1) /\
    r1 !! id = Some p1 /\ IsActive p1 = false /\ UpdatedAt p1 = t1 /\
    Product_IsAvailable p1 = false /\
    ProductProcessor.ActivateProduct r1 id t2 = (r2, Ok p2) /\
    r2 !! id = Some p2 /\ IsActive p2 = true /\ UpdatedAt p2 = t2 /\
    Product_IsAvailable p2 = (0 <? Stock p).
Proof.
  intros Hstored Hid.
  unfold ProductProcessor.DeactivateProduct, ProductProcessor.ActivateProduct,
    ProductProcessor.mutate, FindByID, Save.
  rewrite Hstored. simpl. rewrite Hid.
  eexists _, _, _, _. split; [reflexivity|].
  rewrite lookup_insert_eq. simpl. rewrite Hid, lookup_insert_eq.
  repeat split; reflexivity.
Qed.

(** C3, where the code departs from it: an [UpdateProduct] that provides
    only name, description or category succeeds, saves the new fields, and
    leaves UpdatedAt at the instant of the previous mutation, whatever the
    clock reads during the call. *)
Theorem name_only_update_keeps_UpdatedAt (r : gmap string Product) id p
    (name description category : option string) (nowPrice nowStock : Time) :
  r !! id = Some p ->
  exists p',
    ProductProcessor.UpdateProduct r id name description category None None
      nowPrice nowStock = (<[ID p := p']> r, Ok p') /\
    Name p' = default (Name p) name /\
    Description p' = default (Description p) description /\
    Category p' = default (Category p) category /\
    UpdatedAt p' = UpdatedAt p.
Proof.
  intros Hstored.
  unfold ProductProcessor.UpdateProduct, FindByID. rewrite Hstored.
  unfold ProductProcessor.apply_fields, Save.
  destruct name, description, category;
    (eexists; split; [reflexivity|repeat split; reflexivity]).
Qed.

Lemma name_only_update_keeps_UpdatedAt_witness :
  let p := mkProduct "prod-1" "Lamp" "Desk lamp" 20 10 "Home" 100 100 true in
  let r : gmap string Product := <["prod-1" := p]> ∅ in
  exists p',
    ProductProcessor.UpdateProduct r "prod-1" (Some "Floor lamp") None None
      None None 200 200 = (<["prod-1" := p']> r, Ok p') /\
    Name p' = "Floor lamp" /\
    Description p' = "Desk lamp" /\
    Category p' = "Home" /\
    UpdatedAt p' = 100.
Proof.
  apply (name_only_update_keeps_UpdatedAt
           (<["prod-1" := mkProduct "prod-1" "Lamp" "Desk lamp" 20 10 "Home"
                                    100 100 true]> ∅)
           "prod-1"
           (mkProduct "prod-1" "Lamp" "Desk lamp" 20 10 "Home" 100 100 true)
           (Some "Floor lamp") None None 200 200).
  reflexivity.
Defined.

End Timestamps.

(** ** Stock arithmetic *)

Section StockMoves.
Import InMemoryProductRepository.

(** The processor's load, mutate, save on a stored product whose mutator
    succeeds, and on one whose mutator fails. *)
Lemma mutate_ok (r : gmap string Product) id p p' mutator :
  r !! id = Some p -> mutator p = (p', None) ->
  ProductProcessor.mutate r id mutator = (<[ID p' := p']> r, Ok p').
Proof.
  intros Hstored Hmut. unfold ProductProcessor.mutate, FindByID, Save.
  by rewrite Hstored, Hmut.
Qed.

Lemma mutate_err (r : gmap string Product) id p p' mutator err :
  r !! id = Some p -> mutator p = (p', Some err) ->
  ProductProcessor.mutate r id mutator = (r, Err err).
Proof.
  intros Hstored Hmut. unfold ProductProcessor.mutate, FindByID.
  by rewrite Hstored, Hmut.
Qed.

(** The service's stock step around a processor call that succeeds, and
    around one that fails. *)
Lemma stock_step_ok {W : Type}
    (eventBus : gmap string (list (@InMemoryEventBus.EventHandler W)))
    (r r' : gmap string Product) (w : W) id p p' process :
  r !! id = Some p -> process r = (r', Ok p') ->
  exists w', ProductService.stock_step eventBus r w id process =
               (r', w', Ok p').
Proof.
  intros Hstored Hprocess.
  unfold ProductService.stock_step, ProductProcessor.GetProduct, FindByID.
  rewrite Hstored, Hprocess.
  destruct (ProductEventPublisher.PublishStockUpdated _ _ _ _) as [w' err].
  by exists w'.
Qed.

Lemma stock_step_err {W : Type}
    (eventBus : gmap string (list (@InMemoryEventBus.EventHandler W)))
    (r r' : gmap string Product) (w : W) id p err process :
  r !! id = Some p -> process r = (r', Err err) ->
  ProductService.stock_step eventBus r w id process = (r', w, Err err).
Proof.
  intros Hstored Hprocess.
  unfold ProductService.stock_step, ProductProcessor.GetProduct, FindByID.
  by rewrite Hstored, Hprocess.
Qed.

(** C4: on a stored product with stock 10, [AddStock] of 5 then [AddStock]
    of 10 leave stock 25 in the store; [RemoveStock] of 30 then fails with
    the insufficient-stock error, distinct from the invalid-quantity error,
    and returns the store as it was, stock 25 included.  The service's
    calls end the same way, whatever handlers are subscribed. *)
Theorem stock_add_add_remove (r : gmap string Product) id p (t1 t2 t3 : Time) :
  r !! id = Some p -> ID p = id -> Stock p = 10 ->
  exists r1 p1 r2 p2,
    ProductProcessor.AddStock r id 5 t1 = (r1, Ok p1) /\ Stock p1 = 15 /\
    ProductProcessor.AddStock r1 id 10 t2 = (r2, Ok p2) /\ Stock p2 = 25 /\
    r2 !! id = Some p2 /\
    ProductProcessor.RemoveStock r2 id 30 t3 = (r2, Err "insufficient stock") /\
    "insufficient stock" ≠ "quantity must be positive" /\
    Stock <$> r2 !! id = Some 25 /\
    forall (W : Type)
           (eventBus : gmap string (list (@InMemoryEventBus.EventHandler W)))
           (w : W),
    exists w1 w2,
      ProductService.AddStock eventBus r w id 5 t1 = (r1, w1, Ok p1) /\
      ProductService.AddStock eventBus r1 w1 id 10 t2 = (r2, w2, Ok p2) /\
      ProductService.RemoveStock eventBus r2 w2 id 30 t3 =
        (r2, w2, Err "insufficient stock").
Proof.
  intros Hstored Hid Hstock.
  set (p1 := set_UpdatedAt (set_Stock p 15) t1).
  set (p2 := set_UpdatedAt (set_Stock p1 25) t2).
  assert (H1 : ProductProcessor.AddStock r id 5 t1 = (<[id := p1]> r, Ok p1)).
  { unfold ProductProcessor.AddStock.
    erewrite mutate_ok; [|exact Hstored|unfold Product_AddStock; simpl;
                                         rewrite Hstock; reflexivity].
    simpl. by rewrite Hid. }
  assert (H2 : ProductProcessor.AddStock (<[id := p1]> r) id 10 t2 =
               (<[id := p2]> (<[id := p1]> r), Ok p2)).
  { unfold ProductProcessor.AddStock.
    erewrite mutate_ok; [|apply lookup_insert_eq|reflexivity].
    simpl. by rewrite Hid. }
  assert (H3 : ProductProcessor.RemoveStock (<[id := p2]> (<[id := p1]> r))
                 id 30 t3 =
               (<[id := p2]> (<[id := p1]> r), Err "insufficient stock")).
  { unfold ProductProcessor.RemoveStock.
    erewrite mutate_err; [reflexivity|apply lookup_insert_eq|reflexivity]. }
  exists (<[id := p1]> r), p1, (<[id := p2]> (<[id := p1]> r)), p2.
  rewrite H1, H2, H3, lookup_insert_eq. repeat split; try done.
  intros W eventBus w. unfold ProductService.AddStock.
  destruct (stock_step_ok eventBus r _ w id p p1
              (fun r => ProductProcessor.AddStock r id 5 t1) Hstored H1)
    as [w1 Hs1].
  destruct (stock_step_ok eventBus (<[id := p1]> r) _ w1 id p1 p2
              (fun r => ProductProcessor.AddStock r id 10 t2)
              (lookup_insert_eq _ _ _) H2) as [w2 Hs2].
  exists w1, w2. rewrite Hs1, Hs2. repeat split.
  apply (stock_step_err eventBus _ _ w2 id p2 _
           (fun r => ProductProcessor.RemoveStock r id 30 t3));
    [apply lookup_insert_eq|exact H3].
Qed.

Lemma stock_add_add_remove_witness :
  let p := mkProduct "test-product" "Test Product" "Test Description"
             99.5 10 "Test Category" 1 1 true in
  let r : gmap string Product := <["test-product" := p]> ∅ in
  exists r1 p1 r2 p2,
    ProductProcessor.AddStock r "test-product" 5 2 = (r1, Ok p1) /\
    Stock p1 = 15 /\
    ProductProcessor.AddStock r1 "test-product" 10 3 = (r2, Ok p2) /\
    Stock p2 = 25 /\
    r2 !! "test-product" = Some p2 /\
    ProductProcessor.RemoveStock r2 "test-product" 30 4 =
      (r2, Err "insufficient stock") /\
    "insufficient stock" ≠ "quantity must be positive" /\
    Stock <$> r2 !! "test-product" = Some 25 /\
    forall (W : Type)
           (eventBus : gmap string (list (@InMemoryEventBus.EventHandler W)))
           (w : W),
    exists w1 w2,
      ProductService.AddStock eventBus r w "test-product" 5 2 =
        (r1, w1, Ok p1) /\
      ProductService.AddStock eventBus r1 w1 "test-product" 10 3 =
        (r2, w2, Ok p2) /\
      ProductService.RemoveStock eventBus r2 w2 "test-product" 30 4 =
        (r2, w2, Err "insufficient stock").
Proof.
  apply (stock_add_add_remove _ "test-product"
           (mkProduct "test-product" "Test Product" "Test Description"
              99.5 10 "Test Category" 1 1 true) 2 3 4).
  - reflexivity.
  - reflexivity.
  - reflexivity.
Defined.

End StockMoves.

(** ** Sign of price and stock *)

Section NonNegative.

(** The constructor turns down a negative price and a negative stock. *)
Lemma NewProduct_rejects_negative id name description category price stock
    now :
  (price <? 0)%float = true \/ stock < 0 ->
  is_err (NewProduct id name description category price stock now) = true.
Proof.
  intros Hneg. unfold NewProduct.
  destruct (decide (id = "")); [done|].
  destruct (decide (name = "")); [done|].
  destruct (price <? 0)%float; [done|].
  destruct Hneg as [?|Hstock]; [done|].
  destruct (Z.ltb_spec stock 0); [done|lia].
Qed.

(** [UpdatePrice] and [UpdateStock] turn down a negative value, and
    [RemoveStock] a quantity above the stock. *)
Lemma mutators_reject_negative (p : Product) (now : Time) :
  (forall v, (v <? 0)%float = true ->
             Product_UpdatePrice p v now = (p, Some "price cannot be negative")) /\
  (forall v, v < 0 ->
             Product_UpdateStock p v now = (p, Some "stock cannot be negative")) /\
  (forall q, 0 < q -> Stock p - q < 0 ->
             Product_RemoveStock p q now = (p, Some "insufficient stock")) /\
  (forall q, q <= 0 ->
             Product_AddStock p q now = (p, Some "quantity must be positive") /\
             Product_RemoveStock p q now =
               (p, Some "quantity must be positive")).
Proof.
  unfold Product_UpdatePrice, Product_UpdateStock, Product_AddStock,
    Product_RemoveStock.
  repeat split.
  - intros v ->. reflexivity.
  - intros v Hv. destruct (Z.ltb_spec v 0); [done|lia].
  - intros q Hq Hlow. destruct (Z.leb_spec q 0); [lia|].
    destruct (Z.ltb_spec (Stock p) q); [done|lia].
  - destruct (Z.leb_spec q 0); [done|lia].
  - destruct (Z.leb_spec q 0); [done|lia].
Qed.

(** A mutator that returns an error returns the receiver as it was. *)
Lemma rejected_mutation_unchanged (p p' : Product) (now : Time) err :
  (forall v, Product_UpdatePrice p v now = (p', Some err) -> p' = p) /\
  (forall v, Product_UpdateStock p v now = (p', Some err) -> p' = p) /\
  (forall q, Product_AddStock p q now = (p', Some err) -> p' = p) /\
  (forall q, Product_RemoveStock p q now = (p', Some err) -> p' = p).
Proof.
  unfold Product_UpdatePrice, Product_UpdateStock, Product_AddStock,
    Product_RemoveStock.
  repeat split; intros v.
  - destruct (v <? 0)%float; [by intros [= <-]|discriminate].
  - destruct (v <? 0); [by intros [= <-]|discriminate].
  - destruct (v <=? 0); [by intros [= <-]|discriminate].
  - destruct (v <=? 0); [by intros [= <-]|].
    destruct (Stock p <? v); [by intros [= <-]|discriminate].
Qed.

(** As long as the sum stays within [int], the stock mutators keep a
    non-negative stock non-negative. *)
Lemma stock_mutators_keep_sign (p p' : Product) (now : Time) :
  0 <= Stock p -> GoInt.in_range (Stock p) ->
  (forall v, Product_UpdateStock p v now = (p', None) -> 0 <= Stock p') /\
  (forall q, Stock p + q <= GoInt.max_int ->
             Product_AddStock p q now = (p', None) -> 0 <= Stock p') /\
  (forall q, Product_RemoveStock p q now = (p', None) -> 0 <= Stock p').
Proof.
  intros Hsign Hrange.
  unfold Product_UpdateStock, Product_AddStock, Product_RemoveStock.
  repeat split; intros v.
  - destruct (Z.ltb_spec v 0); [discriminate|]. by intros [= <-].
  - intros Hsum. destruct (Z.leb_spec v 0); [discriminate|].
    intros [= <-]. simpl. rewrite GoIntFacts.add_exact; [lia|].
    unfold GoInt.in_range, GoInt.min_int in *. lia.
  - destruct (Z.leb_spec v 0); [discriminate|].
    destruct (Z.ltb_spec (Stock p) v); [discriminate|].
    intros [= <-]. simpl. rewrite GoIntFacts.sub_exact; [lia|].
    unfold GoInt.in_range, GoInt.min_int, GoInt.max_int in *. lia.
Qed.

(** C9, where the code departs from it: a product created through the
    service with stock 10 and then given [AddStock] of the largest [int]
    is saved with a negative stock.  The addition wraps around, no check
    stands in its way, and the stored product fails the entity's own
    [IsValid]. *)
Theorem add_stock_overflow_goes_negative :
  exists r1 p1 r2 p2,
    ProductService.CreateProduct (W := unit) AsciiStdlib.TrimSpace ∅ ∅ tt
      "test-product" "Test Product" "Test Description" "Test Category"
      99.5 10 1 = (r1, tt, Ok p1) /\
    Stock p1 = 10 /\
    ProductService.AddStock (W := unit) ∅ r1 tt
      "test-product" 9223372036854775807 2 = (r2, tt, Ok p2) /\
    r2 !! "test-product" = Some p2 /\
    Stock p2 = -9223372036854775799 /\
    Product_IsValid p2 = false.
Proof.
  eexists _, _, _, _.
  split; [vm_compute; reflexivity|].
  split; [reflexivity|].
  split; [vm_compute; reflexivity|].
  split; [vm_compute; reflexivity|].
  split; reflexivity.
Qed.

(** A NaN price passes the validator and the constructor, which only ask
    whether the price is below zero, although it is not [>= 0]. *)
Lemma nan_price_is_stored :
  exists r1 p1,
    ProductService.CreateProduct (W := unit) AsciiStdlib.TrimSpace ∅ ∅ tt
      "test-product" "Test Product" "Test Description" "Test Category"
      nan 10 1 = (r1, tt, Ok p1) /\
    r1 !! "test-product" = Some p1 /\
    (0 <=? Price p1)%float = false /\
    Product_IsValid p1 = false.
Proof.
  eexists _, _.
  split; [vm_compute; reflexivity|].
  split; [vm_compute; reflexivity|].
  split; reflexivity.
Qed.

End NonNegative.

(** ** Publishing *)

Section Publishing.
Import InMemoryEventBus.
Context {W : Type}.




Lemma handlers_Subscribe_other (b : gmap string (list (@EventHandler W)))
    eventType other handler :
  other ≠ eventType ->
  handlers (Subscribe b other handler) eventType = handlers b eventType.
Proof.
  intros Hne. unfold handlers at 1, Subscribe. by rewrite lookup_insert_ne.
Qed.


End Publishing.


(** ** Pagination *)

Section Pagination.
Context {A : Type}.
Implicit Types xs result : list A.

Lemma copy_loop_spec xs (i : Z) (n : nat) result :
  0 <= i -> i + Z.of_nat n <= GoInt.len xs ->
  copy_loop xs i n result =
    Returns (result ++ take n (drop (Z.to_nat i) xs)).
Proof.
  revert i result. induction n as [|n IH]; intros i result Hi Hend.
  - simpl. by rewrite take_0, app_nil_r.
  - unfold GoInt.len in *. cbn [copy_loop].
    destruct (Z.leb_spec 0 i); [|lia].
    destruct (Z.ltb_spec i (GoInt.len xs)); unfold GoInt.len in *; [|lia].
    simpl.
    destruct (lookup_lt_is_Some_2 xs (Z.to_nat i)) as [x Hx]; [lia|].
    rewrite Hx, IH by lia.
    rewrite (drop_S _ _ _ Hx). simpl.
    replace (Z.to_nat (i + 1)) with (S (Z.to_nat i)) by lia.
    by rewrite <- app_assoc.
Qed.

(** Past the last match every finder returns the empty slice, whatever the
    limit. *)
Lemma paginate_offset_beyond xs (limit offset : Z) :
  GoInt.len xs <= offset -> paginate xs limit offset = Returns ([], None).
Proof.
  intros Hbeyond. unfold paginate.
  destruct (Z.leb_spec (GoInt.len xs) offset); [done|lia].
Qed.

(** With a non-negative offset and limit whose sum is an [int], on a slice
    the runtime can hold, the pagination block returns the [limit] elements
    after the first [offset], or as many as there are. *)
Lemma paginate_spec xs (limit offset : Z) :
  0 <= offset -> 0 <= limit -> offset + limit <= GoInt.max_int ->
  GoInt.len xs <= maxSliceCap ->
  paginate xs limit offset =
    Returns (take (Z.to_nat limit) (drop (Z.to_nat offset) xs), None).
Proof.
  intros Hoffset Hlimit Hsum Hfits. unfold paginate.
  rewrite GoIntFacts.add_exact
    by (unfold GoInt.in_range, GoInt.min_int; lia).
  destruct (Z.leb_spec (GoInt.len xs) offset) as [Hbeyond|Hwithin].
  - rewrite drop_ge by (unfold GoInt.len in *; lia). by rewrite take_nil.
  - pose proof (GoIntFacts.len_nonneg xs) as Hlen.
    assert (Hcap : maxSliceCap <= GoInt.max_int) by (vm_compute; discriminate).
    destruct (Z.ltb_spec (GoInt.len xs) (offset + limit)) as [Hcut|Hfull].
    + rewrite GoIntFacts.sub_exact
        by (unfold GoInt.in_range, GoInt.min_int; lia).
      unfold makeslice_ok.
      destruct (Z.leb_spec 0 (GoInt.len xs - offset)); [|lia].
      destruct (Z.leb_spec (GoInt.len xs - offset) maxSliceCap); [|lia].
      simpl. rewrite copy_loop_spec by lia. simpl.
      rewrite !take_ge; [done| |];
        rewrite length_drop; unfold GoInt.len in *; lia.
    + rewrite GoIntFacts.sub_exact
        by (unfold GoInt.in_range, GoInt.min_int; lia).
      unfold makeslice_ok.
      destruct (Z.leb_spec 0 (offset + limit - offset)); [|lia].
      destruct (Z.leb_spec (offset + limit - offset) maxSliceCap); [|lia].
      simpl. rewrite copy_loop_spec by lia. simpl.
      by replace (offset + limit - offset) with limit by lia.
Qed.

(** On a non-empty slice, offset 0 and a negative limit ask [make] for a
    negative capacity. *)
Lemma paginate_negative_limit xs (limit : Z) :
  xs <> [] -> limit < 0 -> GoInt.in_range limit ->
  GoInt.sub (GoInt.add 0 limit) 0 < 0 /\
  paginate xs limit 0 = Panics "makeslice: cap out of range".
Proof.
  intros Hne Hneg Hrange. unfold paginate.
  assert (Hcap : GoInt.sub (GoInt.add 0 limit) 0 = limit).
  { unfold GoInt.add, GoInt.sub.
    rewrite Z.add_0_l, (GoIntFacts.wrap_id limit Hrange), Z.sub_0_r.
    by apply GoIntFacts.wrap_id. }
  split; [lia|].
  assert (0 < GoInt.len xs)
    by (destruct xs; [done|unfold GoInt.len; simpl; lia]).
  destruct (Z.leb_spec (GoInt.len xs) 0); [lia|].
  assert (Hend : GoInt.add 0 limit = limit)
    by (unfold GoInt.add; by rewrite Z.add_0_l, GoIntFacts.wrap_id).
  rewrite Hend in *.
  destruct (Z.ltb_spec (GoInt.len xs) limit); [lia|].
  rewrite Hcap. unfold makeslice_ok.
  destruct (Z.leb_spec 0 limit); [lia|done].
Qed.

End Pagination.

(** ** Listing *)

Section Listing.

Lemma ranges_over_length {V} (m : gmap string V) (iter : list V) :
  ranges_over m iter -> length iter = size m.
Proof.
  unfold ranges_over. intros Hperm.
  by rewrite Hperm, length_fmap, length_map_to_list.
Qed.

Lemma ranges_over_nonempty {V} (m : gmap string V) (iter : list V) :
  ranges_over m iter -> m ≠ ∅ -> iter ≠ [].
Proof.
  intros Hrange Hne ->. apply Hne, map_size_empty_iff.
  by rewrite <- (ranges_over_length m []).
Qed.

(** A store built from users with distinct identifiers is visited as some
    reordering of them. *)
Lemma user_store_ranges (users : list User) :
  NoDup (map user_ID users) -> ranges_over (user_store users) users.
Proof.
  intros Hnodup. unfold ranges_over, user_store.
  rewrite map_to_list_to_map.
  - rewrite <- list_fmap_compose. by rewrite list_fmap_id.
  - by rewrite <- list_fmap_compose.
Qed.

Lemma filter_length_le {A} (keep : A -> bool) (xs : list A) :
  GoInt.len (List.filter keep xs) <= GoInt.len xs.
Proof.
  unfold GoInt.len. induction xs as [|x xs IH]; simpl; [lia|].
  destruct (keep x); simpl; lia.
Qed.

Lemma FindAll_paginate (iter : list User) limit offset :
  GoInt.len iter <= maxSliceCap ->
  InMemoryUserRepository.FindAll iter limit offset =
    paginate iter limit offset.
Proof.
  intros Hfits. unfold InMemoryUserRepository.FindAll, makeslice_ok.
  pose proof (GoIntFacts.len_nonneg iter).
  destruct (Z.leb_spec 0 (GoInt.len iter)); [|lia].
  destruct (Z.leb_spec (GoInt.len iter) maxSliceCap); [done|lia].
Qed.

Lemma product_FindAll_paginate (iter : list Product) limit offset :
  GoInt.len iter <= maxSliceCap ->
  InMemoryProductRepository.FindAll iter limit offset =
    paginate iter limit offset.
Proof.
  intros Hfits. unfold InMemoryProductRepository.FindAll, makeslice_ok.
  pose proof (GoIntFacts.len_nonneg iter).
  destruct (Z.leb_spec 0 (GoInt.len iter)); [|lia].
  destruct (Z.leb_spec (GoInt.len iter) maxSliceCap); [done|lia].
Qed.

Lemma find_where_spec {A} (keep : A -> bool) (iter : list A) limit offset :
  0 <= offset -> 0 <= limit -> offset + limit <= GoInt.max_int ->
  GoInt.len iter <= maxSliceCap ->
  find_where keep iter limit offset =
    Returns (take (Z.to_nat limit)
               (drop (Z.to_nat offset) (List.filter keep iter)), None).
Proof.
  intros. unfold find_where. apply paginate_spec; try done.
  pose proof (filter_length_le keep iter). lia.
Qed.

End Listing.

Section ListingClaims.
Import InMemoryUserRepository.

(** Inside the range of [int] every finder paginates what is left after its
    filter.  For an offset and a limit that are not negative and whose sum
    is an [int], on a store the runtime can list, it returns the [limit] matches
    after the first [offset], cut short at the last match when
    [offset + limit] lies beyond it; an offset at or beyond the number of
    matches yields the empty sequence for every limit.  In particular on a
    store of 15 users [FindAll] returns exactly 10 for limit 10 offset 0,
    none for offset 15, and exactly 3 for offset 12 limit 10. *)
Theorem pagination_after_filtering :
  (forall (T : Type) (keep : T -> bool) (iter : list T) (limit offset : Z),
      0 <= offset -> 0 <= limit -> offset + limit <= GoInt.max_int ->
      GoInt.len iter <= maxSliceCap ->
      find_where keep iter limit offset =
        Returns (take (Z.to_nat limit)
                   (drop (Z.to_nat offset) (List.filter keep iter)), None)) /\
  (forall (T : Type) (keep : T -> bool) (iter : list T) (limit offset : Z),
      GoInt.len (List.filter keep iter) <= offset ->
      find_where keep iter limit offset = Returns ([], None)) /\
  (forall (iter : list Product) (limit offset : Z),
      0 <= offset -> 0 <= limit -> offset + limit <= GoInt.max_int ->
      GoInt.len iter <= maxSliceCap ->
      InMemoryProductRepository.FindAvailable iter limit offset =
        Returns (take (Z.to_nat limit)
                   (drop (Z.to_nat offset)
                      (List.filter Product_IsAvailable iter)), None)) /\
  (forall (iter : list User) (limit offset : Z),
      0 <= offset -> 0 <= limit -> offset + limit <= GoInt.max_int ->
      GoInt.len iter <= maxSliceCap ->
      FindAll iter limit offset =
        Returns (take (Z.to_nat limit) (drop (Z.to_nat offset) iter), None)) /\
  (forall (r : gmap string User) (iter : list User),
      ranges_over r iter -> size r = 15%nat ->
      (exists page, FindAll iter 10 0 = Returns (page, None) /\
                    length page = 10%nat) /\
      (forall limit, FindAll iter limit 15 = Returns ([], None)) /\
      (exists page, FindAll iter 10 12 = Returns (page, None) /\
                    length page = 3%nat)).
Proof.
  split; [|split; [|split; [|split]]].
  - intros. by apply find_where_spec.
  - intros. by apply paginate_offset_beyond.
  - intros. by apply find_where_spec.
  - intros. rewrite FindAll_paginate by done. by apply paginate_spec.
  - intros r iter Hrange Hsize.
    apply ranges_over_length in Hrange. rewrite Hsize in Hrange.
    assert (Hlen : GoInt.len iter = 15) by (unfold GoInt.len; lia).
    assert (Hfits : GoInt.len iter <= maxSliceCap)
      by (rewrite Hlen; vm_compute; discriminate).
    split; [|split].
    + eexists. rewrite FindAll_paginate, paginate_spec;
        [split; [reflexivity|] | | | | |]; try done.
      rewrite length_take, length_drop. lia.
    + intros limit. rewrite FindAll_paginate by done.
      apply paginate_offset_beyond. lia.
    + eexists. rewrite FindAll_paginate, paginate_spec;
        [split; [reflexivity|] | | | | |]; try done.
      rewrite length_take, length_drop. lia.
Qed.

Lemma pagination_after_filtering_witness :
  let users := sample_users 15 in
  InMemoryUserRepository.FindActive users 10 12 =
    Returns (take 10 (drop 12 (List.filter user_IsActive users)), None) /\
  FindAll users 10 12 = Returns (take 10 (drop 12 users), None) /\
  (exists page, FindAll users 10 0 = Returns (page, None) /\
                length page = 10%nat) /\
  (forall limit, FindAll users limit 15 = Returns ([], None)) /\
  (exists page, FindAll users 10 12 = Returns (page, None) /\
                length page = 3%nat).
Proof.
  intros users.
  assert (Hfits : GoInt.len users <= maxSliceCap)
    by (vm_compute; discriminate).
  assert (Hsum : 12 + 10 <= GoInt.max_int) by (vm_compute; discriminate).
  split; [|split].
  - apply (proj1 pagination_after_filtering User user_IsActive users 10 12);
      [lia|lia|exact Hsum|exact Hfits].
  - apply (proj1 (proj2 (proj2 (proj2 pagination_after_filtering)))
             users 10 12); [lia|lia|exact Hsum|exact Hfits].
  - apply (proj2 (proj2 (proj2 (proj2 pagination_after_filtering)))
             (user_store users) users).
    + apply user_store_ranges. apply (bool_decide_unpack _).
      vm_compute. reflexivity.
    + vm_compute. reflexivity.
Defined.

(** The end and the capacity the pagination block computes when the sum of
    offset and limit lies beyond the largest [int]. *)
Lemma overflowing_end (limit offset : Z) :
  0 <= offset <= GoInt.max_int -> limit <= GoInt.max_int ->
  GoInt.max_int < offset + limit ->
  GoInt.add offset limit = offset + limit - 2 ^ 64 /\
  GoInt.add offset limit < 0 /\
  GoInt.sub (GoInt.add offset limit) offset = limit.
Proof.
  unfold GoInt.max_int. intros Hoffset Hlimit Hsum.
  assert (Hend : GoInt.add offset limit = offset + limit - 2 ^ 64).
  { unfold GoInt.add, GoInt.wrap.
    replace (offset + limit + 2 ^ 63)
      with (offset + limit - 2 ^ 63 + 1 * 2 ^ 64) by lia.
    rewrite Z_mod_plus_full, Z.mod_small by lia. lia. }
  rewrite Hend. split; [done|]. split; [lia|].
  unfold GoInt.sub, GoInt.wrap.
  replace (offset + limit - 2 ^ 64 - offset + 2 ^ 63)
    with (limit + 2 ^ 63 + (-1) * 2 ^ 64) by lia.
  rewrite Z_mod_plus_full, Z.mod_small by lia. lia.
Qed.

Lemma paginate_overflow {A} (xs : list A) (limit offset : Z) :
  0 <= offset <= GoInt.max_int -> limit <= GoInt.max_int ->
  GoInt.max_int < offset + limit ->
  offset < GoInt.len xs ->
  drop (Z.to_nat offset) xs ≠ [] /\
  paginate xs limit offset =
    (if limit <=? maxSliceCap then Returns ([], None)
     else Panics "makeslice: cap out of range").
Proof.
  intros Hoffset Hlimit Hsum Hinside.
  destruct (overflowing_end limit offset Hoffset Hlimit Hsum)
    as (Hend & Hneg & Hcap).
  split.
  - intros Hnil. apply (f_equal length) in Hnil.
    rewrite length_drop in Hnil. unfold GoInt.len in Hinside.
    simpl in Hnil. lia.
  - unfold paginate.
    destruct (Z.leb_spec (GoInt.len xs) offset); [lia|].
    pose proof (GoIntFacts.len_nonneg xs).
    destruct (Z.ltb_spec (GoInt.len xs) (GoInt.add offset limit)); [lia|].
    rewrite Hcap. unfold makeslice_ok, GoInt.max_int in *.
    destruct (Z.leb_spec 0 limit); [|lia]. simpl.
    destruct (Z.leb_spec limit maxSliceCap); [|done].
    replace (Z.to_nat (GoInt.add offset limit - offset)) with 0%nat by lia.
    reflexivity.
Qed.

(** C7, where the code departs from it: the finders add the limit to the
    offset as [int]s and then clamp the end to the number of matches.  For
    an offset inside the matches and a limit that takes the sum beyond the
    largest [int], the end wraps around below zero, the clamp
    [if end > len] does not fire, and the finder does not return the
    matches that remain after the offset: it asks [make] for the limit as
    capacity and panics, or, for a limit [make] accepts, copies nothing and
    returns the empty page.  [FindAll] panics in either case. *)
Theorem truncation_is_lost_on_overflow (limit offset : Z) :
  0 <= offset <= GoInt.max_int -> limit <= GoInt.max_int ->
  GoInt.max_int < offset + limit ->
  (forall (T : Type) (keep : T -> bool) (iter : list T),
      offset < GoInt.len (List.filter keep iter) ->
      drop (Z.to_nat offset) (List.filter keep iter) ≠ [] /\
      find_where keep iter limit offset =
        (if limit <=? maxSliceCap then Returns ([], None)
         else Panics "makeslice: cap out of range")) /\
  (forall iter : list Product,
      offset < GoInt.len (List.filter Product_IsAvailable iter) ->
      drop (Z.to_nat offset) (List.filter Product_IsAvailable iter) ≠ [] /\
      InMemoryProductRepository.FindAvailable iter limit offset =
        (if limit <=? maxSliceCap then Returns ([], None)
         else Panics "makeslice: cap out of range")) /\
  (forall iter : list User,
      offset < GoInt.len iter ->
      drop (Z.to_nat offset) iter ≠ [] /\
      FindAll iter limit offset = Panics "makeslice: cap out of range").
Proof.
  intros Hoffset Hlimit Hsum. split; [|split].
  - intros T keep iter Hinside. by apply paginate_overflow.
  - intros iter Hinside. by apply paginate_overflow.
  - intros iter Hinside.
    destruct (paginate_overflow iter limit offset Hoffset Hlimit Hsum
                Hinside) as [Hrest Hpage].
    split; [exact Hrest|].
    unfold FindAll, makeslice_ok.
    destruct (Z.leb_spec 0 (GoInt.len iter)); [|done].
    destruct (Z.leb_spec (GoInt.len iter) maxSliceCap); [|done].
    simpl. rewrite Hpage.
    assert (Hcap : maxSliceCap = 2 ^ 45) by reflexivity.
    unfold GoInt.max_int in *.
    destruct (Z.leb_spec limit maxSliceCap); [lia|done].
Qed.

Lemma truncation_is_lost_on_overflow_witness :
  let users := sample_users 15 in
  (15 < 12 + GoInt.max_int /\
   drop 12 (List.filter user_IsActive users) ≠ [] /\
   InMemoryUserRepository.FindActive users GoInt.max_int 12 =
     Panics "makeslice: cap out of range") /\
  (drop 12 users ≠ [] /\
   FindAll users GoInt.max_int 12 = Panics "makeslice: cap out of range").
Proof.
  intros users.
  assert (Hlost := truncation_is_lost_on_overflow GoInt.max_int 12
                     ltac:(vm_compute; split; discriminate)
                     ltac:(vm_compute; discriminate)
                     ltac:(vm_compute; reflexivity)).
  split.
  - split; [vm_compute; reflexivity|].
    apply (proj1 Hlost User user_IsActive users).
    vm_compute. reflexivity.
  - apply (proj2 (proj2 Hlost) users). vm_compute. reflexivity.
Defined.

End ListingClaims.

Section NegativeLimit.

(** C10 as stated fails for the finders that filter: on a store holding one
    inactive user, [FindActive] with offset 0 and limit -1 finds no match,
    leaves before the allocation and returns the empty slice with a nil
    error. *)
Lemma filtering_finder_returns_on_no_match :
  let users := [sample_user false 0] in
  ranges_over (user_store users) users /\
  user_store users ≠ ∅ /\
  InMemoryUserRepository.FindActive users (-1) 0 = Returns ([], None).
Proof.
  intros users. split; [|split].
  - apply user_store_ranges. apply (bool_decide_unpack _).
    vm_compute. reflexivity.
  - intros Hempty.
    assert (Hsize : size (user_store users) = 0%nat) by by rewrite Hempty.
    vm_compute in Hsize. discriminate.
  - vm_compute. reflexivity.
Qed.

(** C10, amended: with offset 0 and a negative limit, [FindAll] on every
    non-empty store, and every filtering finder on a store in which at
    least one entity passes its filter, neither returns a sequence nor an
    error: the capacity [end - start] it asks [make] for is negative and
    the call panics. *)
Theorem negative_limit_panics (limit : Z) :
  limit < 0 -> GoInt.in_range limit ->
  GoInt.sub (GoInt.add 0 limit) 0 < 0 /\
  (forall (r : gmap string User) iter,
      ranges_over r iter -> r ≠ ∅ ->
      InMemoryUserRepository.FindAll iter limit 0 =
        Panics "makeslice: cap out of range") /\
  (forall (r : gmap string Product) iter,
      ranges_over r iter -> r ≠ ∅ ->
      InMemoryProductRepository.FindAll iter limit 0 =
        Panics "makeslice: cap out of range") /\
  (forall (T : Type) (keep : T -> bool) (iter : list T) (x : T),
      In x iter -> keep x = true ->
      find_where keep iter limit 0 = Panics "makeslice: cap out of range").
Proof.
  intros Hneg Hrange.
  assert (Hcap : GoInt.sub (GoInt.add 0 limit) 0 < 0).
  { apply (paginate_negative_limit [tt]); done. }
  split; [done|]. split; [|split].
  - intros r iter Hvisit Hne.
    unfold InMemoryUserRepository.FindAll.
    destruct (makeslice_ok (GoInt.len iter)); [|done].
    apply paginate_negative_limit; eauto using ranges_over_nonempty.
  - intros r iter Hvisit Hne.
    unfold InMemoryProductRepository.FindAll.
    destruct (makeslice_ok (GoInt.len iter)); [|done].
    apply paginate_negative_limit; eauto using ranges_over_nonempty.
  - intros T keep iter x Hin Hkeep. unfold find_where.
    apply paginate_negative_limit; try done.
    intros Hnil.
    assert (Hx : In x (List.filter keep iter)) by (apply filter_In; auto).
    rewrite Hnil in Hx. destruct Hx.
Qed.

Lemma negative_limit_panics_witness :
  let users := sample_users 3 in
  InMemoryUserRepository.FindAll users (-1) 0 =
    Panics "makeslice: cap out of range" /\
  InMemoryUserRepository.FindActive users (-1) 0 =
    Panics "makeslice: cap out of range".
Proof.
  intros users.
  assert (Hneg : -1 < 0) by lia.
  assert (Hrange : GoInt.in_range (-1)) by (vm_compute; split; discriminate).
  pose proof (negative_limit_panics (-1) Hneg Hrange)
    as (_ & Hall & _ & Hfilter).
  split.
  - apply (Hall (user_store users)).
    + apply user_store_ranges. apply (bool_decide_unpack _).
      vm_compute. reflexivity.
    + intros Hempty.
      assert (Hsize : size (user_store users) = 0%nat) by by rewrite Hempty.
      vm_compute in Hsize. discriminate.
  - apply (Hfilter User user_IsActive users (sample_user true 0)).
    + left. reflexivity.
    + reflexivity.
Defined.

End NegativeLimit.

(** ** The repositories as keyed stores *)

Section Stores.

Lemma ranges_over_elem {V} (m : gmap string V) (iter : list V) (v : V) :
  ranges_over m iter -> (In v iter <-> exists k, m !! k = Some v).
Proof.
  unfold ranges_over. intros Hperm.
  rewrite <- list_elem_of_In, Hperm, list_elem_of_fmap. split.
  - intros [[k v'] [-> Hin]]. exists k. by apply elem_of_map_to_list.
  - intros [k Hk]. exists (k, v). split; [done|].
    by apply elem_of_map_to_list.
Qed.

(** X1: [Delete] on an absent identifier fails and leaves the store; on a
    stored one it removes that entry and no other: the identifier no longer
    exists, the count drops by one, and a user may be created under it
    again. *)
Theorem user_delete_removes_one_entry (r : gmap string User) (id : string) :
  (r !! id = None ->
   InMemoryUserRepository.Delete r id = (r, Some "user not found")) /\
  (forall u, r !! id = Some u ->
     exists r',
       InMemoryUserRepository.Delete r id = (r', None) /\
       InMemoryUserRepository.Exists r' id = Ok false /\
       InMemoryUserRepository.FindByID r' id = Ok None /\
       UserProcessor.GetUser r' id = Err "user not found" /\
       InMemoryUserRepository.Count r' = Ok (Z.of_nat (size r) - 1) /\
       (forall k, k ≠ id -> r' !! k = r !! k) /\
       (forall iter email name now,
           ranges_over r' iter ->
           (forall k v, r' !! k = Some v -> user_Email v ≠ email) ->
           id ≠ "" -> email ≠ "" -> name ≠ "" ->
           exists r'' created,
             UserProcessor.CreateUser r' iter id email name now =
               (r'', Ok created) /\
             r'' !! id = Some created)).
Proof.
  unfold InMemoryUserRepository.Delete. split.
  - by intros ->.
  - intros u Hu. rewrite Hu. exists (delete id r).
    unfold InMemoryUserRepository.Exists, InMemoryUserRepository.FindByID,
      UserProcessor.GetUser, InMemoryUserRepository.FindByID,
      InMemoryUserRepository.Count.
    rewrite lookup_delete_eq.
    rewrite bool_decide_eq_false_2 by (by intros [? ?]).
    rewrite map_size_delete, Hu.
    pose proof (map_size_ne_0_lookup_2 r id (mk_is_Some _ _ Hu)) as Hpos.
    simpl. repeat split; try done.
    + f_equal. lia.
    + intros k Hk. by apply lookup_delete_ne.
    + intros iter email name now Hvisit Hfree Hid Hemail Hname.
      eexists _, _. split.
      * apply CreateUser_fresh; try done; [apply lookup_delete_eq|].
        destruct (List.find _ iter) as [v|] eqn:Hfind; [|done].
        apply find_some in Hfind as [Hin Heq].
        apply (ranges_over_elem _ _ _ Hvisit) in Hin as [k Hk].
        apply String.eqb_eq in Heq. by destruct (Hfree k v Hk).
      * apply lookup_insert_eq.
Qed.

Lemma user_delete_removes_one_entry_witness :
  let u := mkUser "user-1" "ana@example.com" "Ana" 10 10 true in
  let r : gmap string User := <["user-1" := u]> ∅ in
  exists r',
    InMemoryUserRepository.Delete r "user-1" = (r', None) /\
    InMemoryUserRepository.Exists r' "user-1" = Ok false /\
    InMemoryUserRepository.Count r' = Ok 0.
Proof.
  intros u r.
  destruct (proj2 (user_delete_removes_one_entry r "user-1") u eq_refl)
    as (r' & Hdel & Hex & _ & _ & Hcount & _).
  exists r'. split; [exact Hdel|]. split; [exact Hex|]. exact Hcount.
Defined.

(** X2: [Save] never fails and is an upsert: the saved user is what [FindByID]
    returns for its identifier, the other entries stay, and the count grows
    by one for a new identifier and stays for one already there. *)
Theorem user_save_is_upsert (r : gmap string User) (user : User) :
  exists r',
    InMemoryUserRepository.Save r user = (r', None) /\
    InMemoryUserRepository.FindByID r' (user_ID user) = Ok (Some user) /\
    InMemoryUserRepository.Exists r' (user_ID user) = Ok true /\
    (forall k, k ≠ user_ID user -> r' !! k = r !! k) /\
    InMemoryUserRepository.Count r' =
      Ok (Z.of_nat (size r) +
          (if InMemoryUserRepository.Exists r (user_ID user)
              is Ok true then 0 else 1)).
Proof.
  exists (<[user_ID user := user]> r).
  unfold InMemoryUserRepository.Save, InMemoryUserRepository.FindByID,
    InMemoryUserRepository.Exists, InMemoryUserRepository.Count.
  rewrite lookup_insert_eq, bool_decide_eq_true_2 by eauto.
  repeat split.
  - intros k Hk. by apply lookup_insert_ne.
  - destruct (r !! user_ID user) as [old|] eqn:Hold.
    + rewrite bool_decide_eq_true_2 by eauto.
      rewrite map_size_insert_Some by eauto. f_equal. lia.
    + rewrite bool_decide_eq_false_2 by (by intros [? ?]).
      rewrite map_size_insert_None by done. f_equal. lia.
Qed.

(** X3: [FindByEmail] finds nothing exactly when no stored user has the email,
    and what it finds is a stored user with that email, whatever the order
    of the visit. *)
Theorem find_by_email_sound_and_complete (r : gmap string User)
    (iter : list User) (email : string) :
  ranges_over r iter ->
  (InMemoryUserRepository.FindByEmail iter email = Ok None <->
   forall k u, r !! k = Some u -> user_Email u ≠ email) /\
  (forall found,
      InMemoryUserRepository.FindByEmail iter email = Ok (Some found) ->
      user_Email found = email /\ exists k, r !! k = Some found) /\
  (forall k u, emails_unique r -> r !! k = Some u -> user_Email u = email ->
      InMemoryUserRepository.FindByEmail iter email = Ok (Some u)).
Proof.
  intros Hvisit. unfold InMemoryUserRepository.FindByEmail.
  assert (Hsound : forall found,
             List.find (fun user => String.eqb (user_Email user) email) iter =
               Some found ->
             user_Email found = email /\ exists k, r !! k = Some found).
  { intros found Hfind. apply find_some in Hfind as [Hin Heq].
    apply String.eqb_eq in Heq.
    by apply (ranges_over_elem _ _ _ Hvisit) in Hin. }
  split; [|split].
  - split.
    + intros [= Hnone] k u Hk Heq.
      assert (Hin : In u iter) by (apply (ranges_over_elem _ _ _ Hvisit); eauto).
      pose proof (find_none _ _ Hnone u Hin) as Hne. simpl in Hne.
      apply String.eqb_neq in Hne. done.
    + intros Hfree. destruct (List.find _ iter) as [found|] eqn:Hfind; [|done].
      destruct (Hsound found eq_refl) as [Heq [k Hk]].
      by destruct (Hfree k found Hk).
  - intros found [= Hfind]. by apply Hsound.
  - intros k u Huniq Hk Heq.
    destruct (List.find _ iter) as [found|] eqn:Hfind.
    + destruct (Hsound found eq_refl) as [Heq' [k' Hk']].
      assert (k' = k) by (apply (Huniq k' k found u); congruence).
      subst k'. congruence.
    + assert (Hin : In u iter) by (apply (ranges_over_elem _ _ _ Hvisit); eauto).
      pose proof (find_none _ _ Hfind u Hin) as Hne. simpl in Hne.
      apply String.eqb_neq in Hne. done.
Qed.

Lemma find_by_email_sound_and_complete_witness :
  let users := sample_users 3 in
  InMemoryUserRepository.FindByEmail users "nobody@example.com" = Ok None <->
  forall k u, user_store users !! k = Some u ->
              user_Email u ≠ "nobody@example.com".
Proof.
  intros users.
  apply (find_by_email_sound_and_complete (user_store users) users
           "nobody@example.com").
  apply user_store_ranges. apply (bool_decide_unpack _).
  vm_compute. reflexivity.
Defined.

End Stores.

(** ** What the finders return *)

Section FinderResults.

(** Whenever the copy loop returns, it has appended a run of [n] consecutive
    elements, all read inside the slice. *)
Lemma copy_loop_returns {A} (xs : list A) (i : Z) (n : nat) acc page :
  copy_loop xs i n acc = Returns page ->
  page = acc ++ take n (drop (Z.to_nat i) xs) /\
  (n = 0%nat \/ (0 <= i /\ i + Z.of_nat n <= GoInt.len xs)).
Proof.
  revert i acc. induction n as [|n IH]; intros i acc.
  - simpl. intros [= <-]. rewrite take_0, app_nil_r. auto.
  - cbn [copy_loop].
    destruct (Z.leb_spec 0 i); [|discriminate].
    destruct (Z.ltb_spec i (GoInt.len xs)); [|discriminate]. simpl.
    destruct (xs !! Z.to_nat i) as [x|] eqn:Hx; [|discriminate].
    intros Hloop. apply IH in Hloop as [-> Hrange].
    rewrite (drop_S _ _ _ Hx). simpl.
    replace (Z.to_nat (i + 1)) with (S (Z.to_nat i)) by lia.
    rewrite <- app_assoc. split; [done|right].
    destruct Hrange as [->|?]; lia.
Qed.

Lemma paginate_returns {A} (xs : list A) (limit offset : Z) page err :
  GoInt.in_range limit -> GoInt.in_range offset ->
  paginate xs limit offset = Returns (page, err) ->
  err = None /\
  (page = [] \/
   exists i n, page = take n (drop i xs) /\ (i + n <= length xs)%nat) /\
  Z.of_nat (length page) <= Z.max 0 limit.
Proof.
  intros Hlimit Hoffset. unfold paginate.
  destruct (Z.leb_spec (GoInt.len xs) offset).
  { intros [= <- <-]. simpl. repeat split; [auto|lia]. }
  set (end_ := if GoInt.len xs <? GoInt.add offset limit
               then GoInt.len xs else GoInt.add offset limit).
  destruct (makeslice_ok _); [|discriminate].
  destruct (copy_loop _ _ _ _) as [res|] eqn:Hloop; [|discriminate].
  intros [= <- <-]. apply copy_loop_returns in Hloop as [-> Hrange].
  simpl. split; [done|].
  destruct Hrange as [Hzero|[Hpos Hend]].
  - rewrite Hzero, take_0. simpl. split; [auto|lia].
  - split.
    + right. exists (Z.to_nat offset), (Z.to_nat (end_ - offset)).
      split; [done|]. unfold GoInt.len in *. lia.
    + rewrite length_take, length_drop.
      assert (Hend' : end_ <= GoInt.add offset limit).
      { unfold end_. destruct (Z.ltb_spec (GoInt.len xs)
                                 (GoInt.add offset limit)); lia. }
      assert (Hadd : GoInt.add offset limit <= offset + limit).
      { unfold GoInt.add, GoInt.wrap, GoInt.in_range, GoInt.min_int,
          GoInt.max_int in *.
        pose proof (Z.mod_pos_bound (offset + limit + 2 ^ 63) (2 ^ 64)
                      ltac:(lia)).
        destruct (Z.lt_ge_cases (offset + limit) (2 ^ 63)).
        - rewrite Z.mod_small by lia. lia.
        - lia. }
      lia.
Qed.

(** X4: Whatever limit and offset a finder is given, if it returns at all it
    returns a nil error and a page of stored entities that pass its filter,
    a consecutive run of the matches in the order of the visit, never
    longer than the limit. *)
Theorem finders_return_stored_matches {T : Type} (r : gmap string T)
    (keep : T -> bool) (iter : list T) (limit offset : Z) page err :
  GoInt.in_range limit -> GoInt.in_range offset ->
  ranges_over r iter ->
  find_where keep iter limit offset = Returns (page, err) ->
  err = None /\
  (forall x, In x page -> keep x = true /\ exists k, r !! k = Some x) /\
  sublist page (List.filter keep iter) /\
  Z.of_nat (length page) <= Z.max 0 limit.
Proof.
  intros Hlimit Hoffset Hvisit. unfold find_where. intros Hpage.
  apply paginate_returns in Hpage as (-> & Hrun & Hlen); try done.
  assert (Hsub : sublist page (List.filter keep iter)).
  { destruct Hrun as [-> | (i & n & -> & _)]; [apply sublist_nil_l|].
    etrans; [apply sublist_take|apply sublist_drop]. }
  repeat split; try done.
  - assert (Hin : In x (List.filter keep iter)).
    { apply list_elem_of_In. eapply elem_of_sublist; [|exact Hsub].
      by apply list_elem_of_In. }
    by apply filter_In in Hin as [_ ?].
  - assert (Hin : In x (List.filter keep iter)).
    { apply list_elem_of_In. eapply elem_of_sublist; [|exact Hsub].
      by apply list_elem_of_In. }
    apply filter_In in Hin as [Hin _].
    by apply (ranges_over_elem _ _ _ Hvisit).
Qed.

Lemma finders_return_stored_matches_witness :
  let users := sample_users 3 ++ [sample_user false 3] in
  let page := [sample_user true 1; sample_user true 2] in
  (None : option error) = None /\
  (forall x, In x page ->
             user_IsActive x = true /\
             exists k, user_store users !! k = Some x) /\
  sublist page (List.filter user_IsActive users) /\
  Z.of_nat (length page) <= Z.max 0 5.
Proof.
  intros users page.
  apply (finders_return_stored_matches (user_store users) user_IsActive
           users 5 1 page None).
  - vm_compute. split; discriminate.
  - vm_compute. split; discriminate.
  - apply user_store_ranges. apply (bool_decide_unpack _).
    vm_compute. reflexivity.
  - vm_compute. reflexivity.
Defined.

End FinderResults.

Section Pages.

(** X5: On one visit of the store, the page after a page continues it: the two
    together are the page of their joint length. *)
Theorem consecutive_pages_concatenate {T : Type} (keep : T -> bool)
    (iter : list T) (offset k1 k2 : Z) :
  0 <= offset -> 0 <= k1 -> 0 <= k2 ->
  offset + k1 + k2 <= GoInt.max_int ->
  GoInt.len iter <= maxSliceCap ->
  exists p1 p2,
    find_where keep iter k1 offset = Returns (p1, None) /\
    find_where keep iter k2 (offset + k1) = Returns (p2, None) /\
    find_where keep iter (k1 + k2) offset = Returns (p1 ++ p2, None).
Proof.
  intros Hoffset Hk1 Hk2 Hsum Hfits.
  rewrite !find_where_spec by lia.
  eexists _, _. split; [reflexivity|]. split; [reflexivity|].
  do 2 f_equal.
  replace (Z.to_nat (offset + k1)) with (Z.to_nat offset + Z.to_nat k1)%nat
    by lia.
  replace (Z.to_nat (k1 + k2)) with (Z.to_nat k1 + Z.to_nat k2)%nat by lia.
  rewrite <- take_take_drop. f_equal. by rewrite drop_drop.
Qed.

Lemma consecutive_pages_concatenate_witness :
  let users := sample_users 5 in
  exists p1 p2,
    InMemoryUserRepository.FindActive users 2 1 = Returns (p1, None) /\
    InMemoryUserRepository.FindActive users 3 (1 + 2) = Returns (p2, None) /\
    InMemoryUserRepository.FindActive users (2 + 3) 1 =
      Returns (p1 ++ p2, None).
Proof.
  intros users.
  apply (consecutive_pages_concatenate user_IsActive users 1 2 3).
  - lia.
  - lia.
  - lia.
  - vm_compute. discriminate.
  - vm_compute. discriminate.
Defined.

Lemma count_fold (category : string) (iter : list Product) (count : Z) :
  0 <= count -> count + GoInt.len iter <= GoInt.max_int ->
  fold_left
    (fun count product =>
       if String.eqb (Category product) category
       then GoInt.add count 1 else count) iter count =
  count + GoInt.len
            (List.filter
               (fun product => String.eqb (Category product) category) iter).
Proof.
  revert count. unfold GoInt.len.
  induction iter as [|p iter IH]; intros count Hcount Hsum; simpl in *.
  - lia.
  - destruct (String.eqb (Category p) category); simpl.
    + rewrite GoIntFacts.add_exact
        by (unfold GoInt.in_range, GoInt.min_int; lia).
      rewrite IH by lia. lia.
    + rewrite IH by lia. lia.
Qed.

(** X6: [CountByCategory] is the number of stored products of the category,
    whatever the order of the visit, and [FindByCategory] with that number
    as limit and offset 0 returns all of them. *)
Theorem count_by_category_counts_matches (r : gmap string Product)
    (iter : list Product) (category : string) :
  ranges_over r iter ->
  GoInt.len iter <= maxSliceCap ->
  exists matches,
    matches =
      List.filter (fun p => String.eqb (Category p) category) iter /\
    InMemoryProductRepository.CountByCategory iter category =
      Ok (GoInt.len matches) /\
    InMemoryProductRepository.FindByCategory iter category
      (GoInt.len matches) 0 = Returns (matches, None) /\
    (forall p, In p matches <->
               Category p = category /\ exists k, r !! k = Some p) /\
    (forall iter', ranges_over r iter' ->
       InMemoryProductRepository.CountByCategory iter' category =
         Ok (GoInt.len matches)).
Proof.
  intros Hvisit Hfits. eexists. split; [reflexivity|].
  assert (Hcap : maxSliceCap <= GoInt.max_int) by (vm_compute; discriminate).
  pose proof (filter_length_le
                (fun p => String.eqb (Category p) category) iter) as Hle.
  pose proof (GoIntFacts.len_nonneg
                (List.filter (fun p => String.eqb (Category p) category) iter)).
  repeat split.
  - unfold InMemoryProductRepository.CountByCategory.
    rewrite count_fold by lia. f_equal.
  - unfold InMemoryProductRepository.FindByCategory.
    rewrite find_where_spec; [|lia..].
    unfold GoInt.len. rewrite Nat2Z.id. change (Z.to_nat 0) with 0%nat.
    by rewrite drop_0, firstn_all.
  - by apply String.eqb_eq, (proj1 (filter_In _ _ _) H0).
  - apply (ranges_over_elem _ _ _ Hvisit).
    by apply (proj1 (filter_In _ _ _) H0).
  - intros [Hcat Hstored]. apply filter_In. split.
    + by apply (ranges_over_elem _ _ _ Hvisit).
    + by apply String.eqb_eq.
  - intros iter' Hvisit'.
    assert (Hperm : iter' ≡ₚ iter)
      by (unfold ranges_over in *; by rewrite Hvisit, Hvisit').
    assert (Hlen : GoInt.len iter' = GoInt.len iter)
      by (unfold GoInt.len; by rewrite Hperm).
    unfold InMemoryProductRepository.CountByCategory.
    rewrite count_fold by lia. f_equal.
    unfold GoInt.len. rewrite Z.add_0_l. f_equal.
    apply Permutation_length.
    clear -Hperm. induction Hperm; simpl; auto.
    + destruct (String.eqb (Category x) category); auto.
    + destruct (String.eqb (Category x) category),
        (String.eqb (Category y) category); auto. apply perm_swap.
    + etrans; eauto.
Qed.

End Pages.

Section MoreFinders.

Lemma product_store_ranges (products : list Product) :
  NoDup (map ID products) -> ranges_over (product_store products) products.
Proof.
  intros Hnodup. unfold ranges_over, product_store.
  rewrite map_to_list_to_map.
  - rewrite <- list_fmap_compose. by rewrite list_fmap_id.
  - by rewrite <- list_fmap_compose.
Qed.

Lemma count_by_category_counts_matches_witness :
  let products := sample_products 5 in
  exists matches,
    matches = List.filter (fun p => String.eqb (Category p) "Home") products /\
    InMemoryProductRepository.CountByCategory products "Home" =
      Ok (GoInt.len matches) /\
    InMemoryProductRepository.FindByCategory products "Home"
      (GoInt.len matches) 0 = Returns (matches, None) /\
    (forall p, In p matches <->
               Category p = "Home" /\
               exists k, product_store products !! k = Some p) /\
    (forall iter', ranges_over (product_store products) iter' ->
       InMemoryProductRepository.CountByCategory iter' "Home" =
         Ok (GoInt.len matches)).
Proof.
  intros products.
  apply (count_by_category_counts_matches (product_store products) products
           "Home").
  - apply product_store_ranges. apply (bool_decide_unpack _).
    vm_compute. reflexivity.
  - vm_compute. discriminate.
Defined.

(** X7: [FindByName] never fails and never paginates: it returns exactly the
    stored products of that name. *)
Theorem find_by_name_returns_all_of_the_name (r : gmap string Product)
    (iter : list Product) (name : string) :
  ranges_over r iter ->
  exists found,
    InMemoryProductRepository.FindByName iter name = (found, None) /\
    (forall p, In p found <-> Name p = name /\ exists k, r !! k = Some p) /\
    (length found <= size r)%nat.
Proof.
  intros Hvisit. eexists. split; [reflexivity|]. split.
  - intros p. rewrite filter_In, String.eqb_eq,
      (ranges_over_elem _ _ _ Hvisit). tauto.
  - rewrite <- (ranges_over_length r iter Hvisit).
    pose proof (filter_length_le
                  (fun product => String.eqb (Name product) name) iter).
    unfold GoInt.len in *. lia.
Qed.

Lemma find_by_name_returns_all_of_the_name_witness :
  let products := sample_products 3 in
  exists found,
    InMemoryProductRepository.FindByName products "Product B" =
      (found, None) /\
    (forall p, In p found <->
               Name p = "Product B" /\
               exists k, product_store products !! k = Some p) /\
    (length found <= size (product_store products))%nat.
Proof.
  intros products.
  apply (find_by_name_returns_all_of_the_name (product_store products)).
  apply product_store_ranges. apply (bool_decide_unpack _).
  vm_compute. reflexivity.
Defined.

End MoreFinders.

(** ** Statistics *)

Section Statistics.

Lemma filter_partition_length {A} (keep : A -> bool) (xs : list A) :
  GoInt.len (List.filter keep xs) +
  GoInt.len (List.filter (fun x => negb (keep x)) xs) = GoInt.len xs.
Proof.
  unfold GoInt.len. induction xs as [|x xs IH]; simpl; [done|].
  destruct (keep x); simpl; lia.
Qed.

(** The page the statistics ask for: the first 1000 matches. *)
Lemma first_thousand {A} (keep : A -> bool) (iter : list A) :
  GoInt.len iter <= maxSliceCap ->
  exists page,
    find_where keep iter 1000 0 = Returns (page, None) /\
    GoInt.len page = Z.min 1000 (GoInt.len (List.filter keep iter)).
Proof.
  intros Hfits. eexists. split.
  - apply find_where_spec; try done; vm_compute; discriminate.
  - unfold GoInt.len. rewrite length_take, length_drop. lia.
Qed.

(** X8: [GetUserStatistics] and [GetProductStatistics] report the size of the
    store as the total and count the active users (the available products)
    on a page of at most 1000: up to 1000 of them the three numbers are
    exact and the last two add up to the first; beyond 1000 the second
    number stays at 1000 and the rest is reported as inactive
    (unavailable). *)
Theorem statistics_count_up_to_1000 :
  (forall (r : gmap string User) (iter : list User),
      ranges_over r iter -> Z.of_nat (size r) <= maxSliceCap ->
      let active := GoInt.len (List.filter user_IsActive iter) in
      let inactive :=
        GoInt.len (List.filter (fun u => negb (user_IsActive u)) iter) in
      UserManagementService.GetUserStatistics r iter =
        Returns (Ok {| TotalUsers := Z.of_nat (size r);
                       ActiveUsers := Z.min 1000 active;
                       InactiveUsers :=
                         inactive + (active - Z.min 1000 active) |}) /\
      Z.of_nat (size r) = active + inactive) /\
  (forall (r : gmap string Product) (iter : list Product),
      ranges_over r iter -> Z.of_nat (size r) <= maxSliceCap ->
      let available := GoInt.len (List.filter Product_IsAvailable iter) in
      let unavailable :=
        GoInt.len (List.filter (fun p => negb (Product_IsAvailable p)) iter) in
      ProductManagementService.GetProductStatistics r iter =
        Returns (Ok {| TotalProducts := Z.of_nat (size r);
                       AvailableProducts := Z.min 1000 available;
                       UnavailableProducts :=
                         unavailable + (available - Z.min 1000 available) |}) /\
      Z.of_nat (size r) = available + unavailable).
Proof.
  assert (Hcap : maxSliceCap <= GoInt.max_int) by (vm_compute; discriminate).
  split.
  - intros r iter Hvisit Hfits. cbv zeta.
    pose proof (ranges_over_length r iter Hvisit) as Hlen.
    pose proof (filter_partition_length user_IsActive iter) as Hpart.
    assert (Hsize : GoInt.len iter = Z.of_nat (size r))
      by (unfold GoInt.len; lia).
    destruct (first_thousand user_IsActive iter) as (page & Hpage & Hn);
      [lia|].
    pose proof (GoIntFacts.len_nonneg
                  (List.filter (fun u => negb (user_IsActive u)) iter)).
    pose proof (GoIntFacts.len_nonneg (List.filter user_IsActive iter)).
    split; [|lia].
    unfold UserManagementService.GetUserStatistics,
      InMemoryUserRepository.Count, InMemoryUserRepository.FindActive.
    rewrite Hpage, Hn.
    rewrite GoIntFacts.sub_exact
      by (unfold GoInt.in_range, GoInt.min_int; lia).
    do 3 f_equal. lia.
  - intros r iter Hvisit Hfits. cbv zeta.
    pose proof (ranges_over_length r iter Hvisit) as Hlen.
    pose proof (filter_partition_length Product_IsAvailable iter) as Hpart.
    assert (Hsize : GoInt.len iter = Z.of_nat (size r))
      by (unfold GoInt.len; lia).
    destruct (first_thousand Product_IsAvailable iter)
      as (page & Hpage & Hn); [lia|].
    pose proof (GoIntFacts.len_nonneg
                  (List.filter (fun p => negb (Product_IsAvailable p)) iter)).
    pose proof (GoIntFacts.len_nonneg (List.filter Product_IsAvailable iter)).
    split; [|lia].
    unfold ProductManagementService.GetProductStatistics,
      InMemoryProductRepository.Count, InMemoryProductRepository.FindAvailable.
    rewrite Hpage, Hn.
    rewrite GoIntFacts.sub_exact
      by (unfold GoInt.in_range, GoInt.min_int; lia).
    do 3 f_equal. lia.
Qed.

Lemma statistics_count_up_to_1000_witness :
  let users := sample_users 3 ++ [sample_user false 3] in
  UserManagementService.GetUserStatistics (user_store users) users =
    Returns (Ok {| TotalUsers := 4; ActiveUsers := 3; InactiveUsers := 1 |}).
Proof.
  intros users.
  assert (Hvisit : ranges_over (user_store users) users).
  { apply user_store_ranges. apply (bool_decide_unpack _).
    vm_compute. reflexivity. }
  assert (Hfits : Z.of_nat (size (user_store users)) <= maxSliceCap)
    by (vm_compute; discriminate).
  destruct (proj1 statistics_count_up_to_1000 (user_store users) users
              Hvisit Hfits) as [Hstats _].
  rewrite Hstats. vm_compute. reflexivity.
Defined.

End Statistics.

(** ** Invariants of the user store *)

Section UserStoreInvariants.
Import InMemoryUserRepository.

(** What [UpdateUser] does: it fails and returns the store it was given, or
    it saves the stored user with the provided fields replaced. *)
Lemma UpdateUser_inv (r r' : gmap string User) iter id email name
    nowEmail nowName res :
  UserProcessor.UpdateUser r iter id email name nowEmail nowName = (r', res) ->
  (r' = r /\ is_err res = true) \/
  exists u u',
    r !! id = Some u /\ res = Ok u' /\ r' = <[user_ID u := u']> r /\
    u' = mkUser (user_ID u) (default (user_Email u) email)
           (default (user_Name u) name) (user_CreatedAt u)
           (match name, email with
            | Some _, _ => nowName
            | None, Some _ => nowEmail
            | None, None => user_UpdatedAt u
            end)
           (user_IsActive u) /\
    (forall e, email = Some e ->
       e ≠ "" /\
       forall existing,
         List.find (fun user => String.eqb (user_Email user) e) iter =
           Some existing ->
         user_ID existing = id) /\
    (forall n, name = Some n -> n ≠ "").
Proof.
  unfold UserProcessor.UpdateUser, FindByID, FindByEmail, Save,
    User_UpdateEmail, User_UpdateName.
  destruct (r !! id) as [u|] eqn:Hu; [|intros [= <- <-]; by left].
  assert (Hsaved : forall u' : User,
             (forall e, email = Some e ->
                e ≠ "" /\
                forall existing,
                  List.find (fun user => String.eqb (user_Email user) e) iter =
                    Some existing ->
                  user_ID existing = id) ->
             (forall n, name = Some n -> n ≠ "") ->
             u' = mkUser (user_ID u) (default (user_Email u) email)
                    (default (user_Name u) name) (user_CreatedAt u)
                    (match name, email with
                     | Some _, _ => nowName
                     | None, Some _ => nowEmail
                     | None, None => user_UpdatedAt u
                     end)
                    (user_IsActive u) ->
             (<[user_ID u' := u']> r, Ok u') = (r', res) ->
             (r' = r /\ is_err res = true) \/
             exists u0 u'0,
               Some u = Some u0 /\ res = Ok u'0 /\
               r' = <[user_ID u0 := u'0]> r /\
               u'0 = mkUser (user_ID u0) (default (user_Email u0) email)
                       (default (user_Name u0) name) (user_CreatedAt u0)
                       (match name, email with
                        | Some _, _ => nowName
                        | None, Some _ => nowEmail
                        | None, None => user_UpdatedAt u0
                        end)
                       (user_IsActive u0) /\
               (forall e, email = Some e ->
                  e ≠ "" /\
                  forall existing,
                    List.find (fun user => String.eqb (user_Email user) e)
                      iter = Some existing ->
                    user_ID existing = id) /\
               (forall n, name = Some n -> n ≠ "")).
  { intros u' Hemail Hname -> [= <- <-]. right. exists u. eexists.
    split; [done|]. split; [reflexivity|]. split; [reflexivity|].
    split; [reflexivity|]. by split. }
  destruct email as [e|].
  - destruct (List.find _ iter) as [existing|] eqn:Hfind.
    + destruct (String.eqb_spec (user_ID existing) id) as [Hsame|Hother];
        simpl; [|intros [= <- <-]; by left].
      destruct (decide (e = "")) as [->|He]; [intros [= <- <-]; by left|].
      destruct name as [n|].
      * destruct (decide (n = "")) as [->|Hn]; [intros [= <- <-]; by left|].
        apply Hsaved; [|by intros ? [= <-]|done].
        intros ? [= <-]. split; [done|]. intros ex. rewrite Hfind.
        by intros [= <-].
      * apply Hsaved; [|by intros ? [=]|done].
        intros ? [= <-]. split; [done|]. intros ex. rewrite Hfind.
        by intros [= <-].
    + simpl.
      destruct (decide (e = "")) as [->|He]; [intros [= <- <-]; by left|].
      destruct name as [n|].
      * destruct (decide (n = "")) as [->|Hn]; [intros [= <- <-]; by left|].
        apply Hsaved; [|by intros ? [= <-]|done].
        intros ? [= <-]. split; [done|]. intros ex. by rewrite Hfind.
      * apply Hsaved; [|by intros ? [=]|done].
        intros ? [= <-]. split; [done|]. intros ex. by rewrite Hfind.
  - destruct name as [n|].
    + destruct (decide (n = "")) as [->|Hn]; [intros [= <- <-]; by left|].
      apply Hsaved; [by intros ? [=]|by intros ? [= <-]|done].
    + apply Hsaved; [by intros ? [=]|by intros ? [=]|by destruct u].
Qed.

Lemma toggle_inv (r r' : gmap string User) id now res (active : bool) :
  (if active then UserProcessor.ActivateUser r id now
   else UserProcessor.DeactivateUser r id now) = (r', res) ->
  (r' = r /\ res = Err "user not found" /\ r !! id = None) \/
  exists u,
    r !! id = Some u /\
    res = Ok (mkUser (user_ID u) (user_Email u) (user_Name u)
                (user_CreatedAt u) now active) /\
    r' = <[user_ID u := mkUser (user_ID u) (user_Email u) (user_Name u)
                          (user_CreatedAt u) now active]> r.
Proof.
  destruct active;
    unfold UserProcessor.ActivateUser, UserProcessor.DeactivateUser,
      FindByID, Save, User_Activate, User_Deactivate;
    (destruct (r !! id) as [u|] eqn:Hu;
     [intros [= <- <-]; right; by exists u|intros [= <- <-]; by left]).
Qed.

Lemma CreateUser_inv (r r' : gmap string User) iter id email name now res :
  UserProcessor.CreateUser r iter id email name now = (r', res) ->
  (r' = r /\ is_err res = true) \/
  (res = Ok (mkUser id email name now now true) /\
   r' = <[id := mkUser id email name now now true]> r /\
   r !! id = None /\
   List.find (fun user => String.eqb (user_Email user) email) iter = None /\
   id ≠ "" /\ email ≠ "" /\ name ≠ "").
Proof.
  unfold UserProcessor.CreateUser, Exists, FindByEmail, Save.
  destruct (r !! id) as [old|] eqn:Hold.
  { rewrite bool_decide_eq_true_2 by eauto. intros [= <- <-]. by left. }
  rewrite bool_decide_eq_false_2 by (by intros [? ?]).
  destruct (List.find _ iter) eqn:Hfind; [intros [= <- <-]; by left|].
  destruct (NewUser id email name now) as [user|err] eqn:Hnew;
    [|intros [= <- <-]; by left].
  apply NewUser_inv in Hnew as (-> & ? & ? & ?). simpl.
  intros [= <- <-]. by right.
Qed.

Lemma User_IsValid_true (u : User) :
  User_IsValid u = true <->
  user_ID u ≠ "" /\ user_Email u ≠ "" /\ user_Name u ≠ "".
Proof.
  unfold User_IsValid.
  rewrite !andb_true_iff, !negb_true_iff, !String.eqb_neq. tauto.
Qed.

(** What one call can do to the store: nothing, remove one entry, or put
    one entry under the identifier it carries, valid if the stored users
    are, and with an email no other entry has if the stored emails are
    distinct. *)
Lemma user_step_shape (r : gmap string User) (op : UserOp) :
  users_keyed r -> user_op_visits r op ->
  run_user_op r op = r \/
  (exists id, run_user_op r op = delete id r) \/
  exists u',
    run_user_op r op = <[user_ID u' := u']> r /\
    (users_valid r -> User_IsValid u' = true) /\
    (emails_unique r ->
     forall k v, r !! k = Some v -> k ≠ user_ID u' ->
                 user_Email v ≠ user_Email u').
Proof.
  intros Hkeyed Hvisit. destruct op; simpl in *.
  - destruct (UserProcessor.CreateUser r iter id email name now)
      as [r' res] eqn:Hcall.
    apply CreateUser_inv in Hcall
      as [[-> _]|(-> & -> & Hfree & Hfind & Hid & Hemail & Hname)];
      [by left|right; right].
    exists (mkUser id email name now now true).
    split; [reflexivity|]. split.
    + intros _. by apply User_IsValid_true.
    + intros _ k v Hk _ Heq. simpl in Heq.
      assert (Hin : In v iter)
        by (apply (ranges_over_elem _ _ _ Hvisit); eauto).
      pose proof (find_none _ _ Hfind v Hin) as Hne. simpl in Hne.
      by apply String.eqb_neq in Hne.
  - destruct (UserProcessor.UpdateUser r iter id email name nowEmail nowName)
      as [r' res] eqn:Hcall.
    apply UpdateUser_inv in Hcall
      as [[-> _]|(u & u' & Hu & -> & -> & -> & Hemail & Hname)];
      [by left|right; right].
    pose proof (Hkeyed id u Hu) as Hid.
    match goal with |- context [<[_ := ?u']> r] => exists u' end.
    split; [reflexivity|]. simpl. split.
    + intros Hvalid. apply User_IsValid_true. simpl.
      apply Hvalid, User_IsValid_true in Hu as (? & ? & ?).
      repeat split; [done| |].
      * destruct email as [e|]; simpl; [by apply (Hemail e)|done].
      * destruct name as [n|]; simpl; [by apply (Hname n)|done].
    + intros Huniq k v Hk Hne Heq.
      destruct email as [e|]; simpl in Heq.
      * destruct (Hemail e eq_refl) as [_ Hfound].
        assert (Hin : In v iter)
          by (apply (ranges_over_elem _ _ _ Hvisit); eauto).
        destruct (List.find (fun user => String.eqb (user_Email user) e) iter)
          as [existing|] eqn:Hfind.
        -- pose proof (Hfound existing eq_refl) as Hex.
           apply find_some in Hfind as [Hexin Hexeq].
           apply String.eqb_eq in Hexeq.
           apply (ranges_over_elem _ _ _ Hvisit) in Hexin as [k' Hk'].
           pose proof (Hkeyed k' existing Hk') as Hk'id.
           apply Hne. rewrite Hid, <- Hex, Hk'id.
           apply (Huniq k k' v existing); congruence.
        -- pose proof (find_none _ _ Hfind v Hin) as Hnone. simpl in Hnone.
           by apply String.eqb_neq in Hnone.
      * apply Hne. rewrite Hid. by apply (Huniq k id v u).
  - destruct (UserProcessor.DeactivateUser r id now) as [r' res] eqn:Hcall.
    apply (toggle_inv r r' id now res false) in Hcall
      as [(-> & _)|(u & Hu & -> & ->)]; [by left|right; right].
    pose proof (Hkeyed id u Hu) as Hid.
    match goal with |- context [<[_ := ?u']> r] => exists u' end.
    split; [reflexivity|]. simpl. split.
    + intros Hvalid. apply User_IsValid_true. simpl.
      by apply Hvalid, User_IsValid_true in Hu.
    + intros Huniq k v Hk Hne Heq.
      apply Hne. rewrite Hid. by apply (Huniq k id v u).
  - destruct (UserProcessor.ActivateUser r id now) as [r' res] eqn:Hcall.
    apply (toggle_inv r r' id now res true) in Hcall
      as [(-> & _)|(u & Hu & -> & ->)]; [by left|right; right].
    pose proof (Hkeyed id u Hu) as Hid.
    match goal with |- context [<[_ := ?u']> r] => exists u' end.
    split; [reflexivity|]. simpl. split.
    + intros Hvalid. apply User_IsValid_true. simpl.
      by apply Hvalid, User_IsValid_true in Hu.
    + intros Huniq k v Hk Hne Heq.
      apply Hne. rewrite Hid. by apply (Huniq k id v u).
  - unfold Delete. destruct (r !! id); simpl; eauto.
Qed.

Lemma reachable_users_inv (r : gmap string User) :
  reachable_users r -> users_keyed r /\ users_valid r /\ emails_unique r.
Proof.
  induction 1 as [|r op _ (Hkeyed & Hvalid & Huniq) Hvisit].
  - repeat split; intros ?; intros; by rewrite lookup_empty in *.
  - destruct (user_step_shape r op Hkeyed Hvisit)
      as [-> | [[id ->] | (u' & -> & Hv & Hu)]]; [done| |].
    + repeat split.
      * intros k u Hk. apply lookup_delete_Some in Hk as [_ Hk]. eauto.
      * intros k u Hk. apply lookup_delete_Some in Hk as [_ Hk]. eauto.
      * intros k1 k2 u1 u2 H1 H2.
        apply lookup_delete_Some in H1 as [_ H1].
        apply lookup_delete_Some in H2 as [_ H2]. eauto.
    + specialize (Hv Hvalid). specialize (Hu Huniq). repeat split.
      * intros k u Hk. apply lookup_insert_Some in Hk as [[<- <-]|[_ Hk]];
          eauto.
      * intros k u Hk. apply lookup_insert_Some in Hk as [[<- <-]|[_ Hk]];
          eauto.
      * intros k1 k2 u1 u2 H1 H2 Heq.
        apply lookup_insert_Some in H1 as [[<- <-]|[Hn1 H1]];
          apply lookup_insert_Some in H2 as [[<- <-]|[Hn2 H2]]; try done.
        -- by destruct (Hu k2 u2 H2).
        -- by destruct (Hu k1 u1 H1).
        -- eauto.
Qed.

(** X9: In every store the processor's calls and [Delete] lead to from the
    empty store, each user sits under the identifier it carries and passes
    the entity's [IsValid]: no stored user has an empty ID, Email or
    Name. *)
Theorem reachable_users_keyed_and_valid (r : gmap string User) :
  reachable_users r ->
  forall k u, r !! k = Some u ->
    user_ID u = k /\ User_IsValid u = true /\
    UserProcessor.GetUser r k = Ok u.
Proof.
  intros Hreach k u Hk.
  destruct (reachable_users_inv r Hreach) as (Hkeyed & Hvalid & _).
  repeat split; eauto.
  unfold UserProcessor.GetUser, FindByID. by rewrite Hk.
Qed.

(** X10: In every such store no two users share an email: what [CreateUser]
    and [UpdateUser] check before they save is enough to keep the emails
    distinct, whatever the order of the repository's visits. *)
Theorem reachable_users_emails_unique (r : gmap string User) :
  reachable_users r ->
  forall k1 k2 u1 u2,
    r !! k1 = Some u1 -> r !! k2 = Some u2 ->
    user_Email u1 = user_Email u2 -> k1 = k2 /\ u1 = u2.
Proof.
  intros Hreach k1 k2 u1 u2 H1 H2 Heq.
  destruct (reachable_users_inv r Hreach) as (_ & _ & Huniq).
  assert (k1 = k2) by eauto. subst. split; congruence.
Qed.

End UserStoreInvariants.

Lemma reachable_users_keyed_and_valid_witness :
  let r := run_user_op
             (run_user_op ∅ (OpCreateUser [] "user-1" "ana@example.com"
                               "Ana" 10))
             (OpDeactivateUser "user-1" 20) in
  let u := mkUser "user-1" "ana@example.com" "Ana" 10 20 false in
  user_ID u = "user-1" /\ User_IsValid u = true /\
  UserProcessor.GetUser r "user-1" = Ok u.
Proof.
  intros r u.
  refine (reachable_users_keyed_and_valid r _ "user-1" u _).
  - apply reachable_users_step; [|exact I].
    apply reachable_users_step; [apply reachable_users_empty|].
    simpl. unfold ranges_over. rewrite map_to_list_empty. reflexivity.
  - vm_compute. reflexivity.
Defined.

Lemma reachable_users_emails_unique_witness :
  let u := mkUser "user-1" "ana@example.com" "Ana" 10 10 true in
  "user-1" = "user-1" /\ u = u.
Proof.
  intros u.
  refine (reachable_users_emails_unique
            (run_user_op ∅ (OpCreateUser [] "user-1" "ana@example.com"
                              "Ana" 10))
            _ "user-1" "user-1" u u _ _ _).
  - apply reachable_users_step; [apply reachable_users_empty|].
    simpl. unfold ranges_over. rewrite map_to_list_empty. reflexivity.
  - vm_compute. reflexivity.
  - vm_compute. reflexivity.
  - reflexivity.
Defined.

(** ** Invariants of the product store *)

Section ProductStoreInvariants.
Import InMemoryProductRepository.

Lemma mutate_inv (r r' : gmap string Product) id mutator res :
  ProductProcessor.mutate r id mutator = (r', res) ->
  (r' = r /\ is_err res = true) \/
  exists p p',
    r !! id = Some p /\ mutator p = (p', None) /\
    res = Ok p' /\ r' = <[ID p' := p']> r.
Proof.
  unfold ProductProcessor.mutate, FindByID, Save.
  destruct (r !! id) as [p|]; [|intros [= <- <-]; by left].
  destruct (mutator p) as [p' [err|]] eqn:Hmut.
  - intros [= <- <-]. by left.
  - intros [= <- <-]. right. by exists p, p'.
Qed.

(** The entity's mutators change neither ID nor CreatedAt, and only
    [UpdatePrice] changes the price, to a value that is not below zero. *)
Lemma stock_mutators_keep_identity (p p' : Product) (now : Time) :
  (forall v, Product_UpdateStock p v now = (p', None) ->
     ID p' = ID p /\ CreatedAt p' = CreatedAt p /\ Price p' = Price p) /\
  (forall q, Product_AddStock p q now = (p', None) ->
     ID p' = ID p /\ CreatedAt p' = CreatedAt p /\ Price p' = Price p) /\
  (forall q, Product_RemoveStock p q now = (p', None) ->
     ID p' = ID p /\ CreatedAt p' = CreatedAt p /\ Price p' = Price p).
Proof.
  unfold Product_UpdateStock, Product_AddStock, Product_RemoveStock.
  split; [|split]; intros v.
  - destruct (v <? 0); [discriminate|]. by intros [= <-].
  - destruct (v <=? 0); [discriminate|]. by intros [= <-].
  - destruct (v <=? 0); [discriminate|].
    destruct (Stock p <? v); [discriminate|]. by intros [= <-].
Qed.

Lemma apply_fields_keeps_identity (p p' : Product) name description category
    price stock nowPrice nowStock :
  ProductProcessor.apply_fields p name description category price stock
    nowPrice nowStock = Ok p' ->
  ID p' = ID p /\ CreatedAt p' = CreatedAt p /\
  (Price p' = Price p \/ (Price p' <? 0)%float = false).
Proof.
  unfold ProductProcessor.apply_fields, Product_UpdatePrice,
    Product_UpdateStock.
  destruct name, description, category; simpl;
    (destruct price as [v|];
     [destruct (v <? 0)%float eqn:Hv; [discriminate|]|]);
    (destruct stock as [newStock|];
     [destruct (newStock <? 0); [discriminate|]|]);
    intros [= <-]; simpl; auto.
Qed.

Lemma CreateProduct_inv (r r' : gmap string Product)
    id name description category price stock now res :
  ProductProcessor.CreateProduct r id name description category price stock
    now = (r', res) ->
  (r' = r /\ is_err res = true) \/
  (res = Ok (mkProduct id name description price stock category now now true)
   /\ r' = <[id := mkProduct id name description price stock category
                              now now true]> r /\
   r !! id = None /\ id ≠ "" /\ name ≠ "" /\
   (price <? 0)%float = false /\ 0 <= stock).
Proof.
  unfold ProductProcessor.CreateProduct, Exists, Save.
  destruct (r !! id) as [old|] eqn:Hold.
  { rewrite bool_decide_eq_true_2 by eauto. intros [= <- <-]. by left. }
  rewrite bool_decide_eq_false_2 by (by intros [? ?]).
  destruct (NewProduct id name description category price stock now)
    as [product|err] eqn:Hnew; [|intros [= <- <-]; by left].
  apply NewProduct_inv in Hnew as (-> & ? & ? & ? & ?). simpl.
  intros [= <- <-]. by right.
Qed.

(** What one call can do to the store: nothing, remove one entry, put a
    freshly built product under a free identifier, or replace a stored
    product by one of the same ID and CreatedAt whose price is the old one
    or is not below zero. *)
Lemma product_step_shape (r : gmap string Product) (op : ProductOp) :
  products_keyed r ->
  run_product_op r op = r \/
  (exists id, run_product_op r op = delete id r) \/
  exists p',
    run_product_op r op = <[ID p' := p']> r /\
    ((r !! ID p' = None /\ ID p' ≠ "" /\ (Price p' <? 0)%float = false) \/
     exists p,
       r !! ID p' = Some p /\ CreatedAt p' = CreatedAt p /\
       (Price p' = Price p \/ (Price p' <? 0)%float = false)).
Proof.
  intros Hkeyed.
  assert (Hmutate : forall id mutator,
             (forall p p', mutator p = (p', None) ->
                ID p' = ID p /\ CreatedAt p' = CreatedAt p /\
                Price p' = Price p) ->
             (ProductProcessor.mutate r id mutator).1 = r \/
             (exists id',
                 (ProductProcessor.mutate r id mutator).1 = delete id' r) \/
             exists p',
               (ProductProcessor.mutate r id mutator).1 = <[ID p' := p']> r /\
               ((r !! ID p' = None /\ ID p' ≠ "" /\
                 (Price p' <? 0)%float = false) \/
                exists p,
                  r !! ID p' = Some p /\ CreatedAt p' = CreatedAt p /\
                  (Price p' = Price p \/ (Price p' <? 0)%float = false))).
  { intros id mutator Hkeeps.
    destruct (ProductProcessor.mutate r id mutator) as [r' res] eqn:Hcall.
    apply mutate_inv in Hcall as [[-> _]|(p & p' & Hp & Hmut & -> & ->)];
      [by left|right; right].
    destruct (Hkeeps p p' Hmut) as (Hid & Hcreated & Hprice).
    exists p'. split; [done|right]. exists p.
    rewrite Hid, (Hkeyed id p Hp). auto. }
  destruct op; simpl.
  - destruct (ProductProcessor.CreateProduct r id name description category
                price stock now) as [r' res] eqn:Hcall.
    apply CreateProduct_inv in Hcall
      as [[-> _]|(-> & -> & Hfree & Hid & _ & Hprice & _)];
      [by left|right; right].
    exists (mkProduct id name description price stock category now now true).
    split; [done|left]. done.
  - unfold ProductProcessor.UpdateProduct, FindByID, Save.
    destruct (r !! id) as [p|] eqn:Hp; [|by left].
    destruct (ProductProcessor.apply_fields p name description category
                price stock nowPrice nowStock) as [p'|err] eqn:Happly;
      [|by left].
    apply apply_fields_keeps_identity in Happly as (Hid & Hcreated & Hprice).
    right; right. exists p'. split; [done|right]. exists p.
    rewrite Hid, (Hkeyed id p Hp). auto.
  - apply Hmutate. intros p p'.
    apply (stock_mutators_keep_identity p p' now).
  - apply Hmutate. intros p p'.
    apply (stock_mutators_keep_identity p p' now).
  - apply Hmutate. intros p p'.
    apply (stock_mutators_keep_identity p p' now).
  - apply Hmutate. by intros p p' [= <-].
  - apply Hmutate. by intros p p' [= <-].
  - unfold Delete. destruct (r !! id); simpl; eauto.
Qed.

Lemma reachable_products_inv (r : gmap string Product) :
  reachable_products r ->
  products_keyed r /\
  forall k p, r !! k = Some p -> k ≠ "" /\ (Price p <? 0)%float = false.
Proof.
  induction 1 as [|r op _ (Hkeyed & Hok)].
  - split; intros ?; intros; by rewrite lookup_empty in *.
  - destruct (product_step_shape r op Hkeyed)
      as [-> | [[id ->] | (p' & -> & Hshape)]]; [done| |].
    + split.
      * intros k p Hk. apply lookup_delete_Some in Hk as [_ Hk]. eauto.
      * intros k p Hk. apply lookup_delete_Some in Hk as [_ Hk]. eauto.
    + split.
      * intros k p Hk. apply lookup_insert_Some in Hk as [[<- <-]|[_ Hk]];
          eauto.
      * intros k p Hk. apply lookup_insert_Some in Hk as [[<- <-]|[_ Hk]];
          [|eauto].
        destruct Hshape as [(_ & ? & ?)|(p & Hp & _ & Hprice)]; [done|].
        destruct (Hok _ _ Hp) as [Hne Hsign]. split; [done|].
        destruct Hprice as [-> | ?]; done.
Qed.

(** X11: In every store the processor's calls and [Delete] lead to from the
    empty store, each product sits under the identifier it carries, the
    identifier is not empty, and the price is not below zero. *)
Theorem reachable_products_keyed_and_priced (r : gmap string Product) :
  reachable_products r ->
  forall k p, r !! k = Some p ->
    ID p = k /\ ID p ≠ "" /\ (Price p <? 0)%float = false /\
    ProductProcessor.GetProduct r k = Ok p.
Proof.
  intros Hreach k p Hk.
  destruct (reachable_products_inv r Hreach) as (Hkeyed & Hok).
  destruct (Hok k p Hk) as [Hne Hprice].
  pose proof (Hkeyed k p Hk) as Hid.
  repeat split; try done; [by rewrite Hid|].
  unfold ProductProcessor.GetProduct, FindByID. by rewrite Hk.
Qed.

(** X12: No call changes the ID or the CreatedAt of a product that is in the
    store before and after it. *)
Theorem product_identity_and_creation_are_kept (r : gmap string Product)
    (op : ProductOp) :
  reachable_products r ->
  forall k p p',
    r !! k = Some p -> run_product_op r op !! k = Some p' ->
    ID p' = ID p /\ CreatedAt p' = CreatedAt p.
Proof.
  intros Hreach k p p' Hp Hp'.
  destruct (reachable_products_inv r Hreach) as (Hkeyed & _).
  destruct (product_step_shape r op Hkeyed)
    as [Heq | [[id Heq] | (q & Heq & Hshape)]]; rewrite Heq in Hp'.
  - by simplify_eq.
  - apply lookup_delete_Some in Hp' as [_ Hp']. by simplify_eq.
  - apply lookup_insert_Some in Hp' as [[<- <-]|[_ Hp']]; [|by simplify_eq].
    destruct Hshape as [(Hfree & _)|(p0 & Hp0 & Hcreated & _)];
      [congruence|].
    simplify_eq. split; [|done].
    rewrite (Hkeyed _ _ Hp). done.
Qed.

End ProductStoreInvariants.

Lemma reachable_products_keyed_and_priced_witness :
  let r := run_product_op
             (run_product_op ∅ (OpCreateProduct "prod-1" "Lamp" "Desk lamp"
                                  "Home" 20 10 1))
             (OpAddStock "prod-1" 5 2) in
  let p := mkProduct "prod-1" "Lamp" "Desk lamp" 20 15 "Home" 1 2 true in
  ID p = "prod-1" /\ ID p ≠ "" /\ (Price p <? 0)%float = false /\
  ProductProcessor.GetProduct r "prod-1" = Ok p.
Proof.
  intros r p.
  refine (reachable_products_keyed_and_priced r _ "prod-1" p _).
  - do 2 apply reachable_products_step. apply reachable_products_empty.
  - vm_compute. reflexivity.
Defined.

Lemma product_identity_and_creation_are_kept_witness :
  let p := mkProduct "prod-1" "Lamp" "Desk lamp" 20 10 "Home" 1 1 true in
  let p' := mkProduct "prod-1" "Floor lamp" "Desk lamp" 25 10 "Home" 1 7
              true in
  ID p' = ID p /\ CreatedAt p' = CreatedAt p.
Proof.
  intros p p'.
  refine (product_identity_and_creation_are_kept
            (run_product_op ∅ (OpCreateProduct "prod-1" "Lamp" "Desk lamp"
                                 "Home" 20 10 1))
            (OpUpdateProduct "prod-1" (Some "Floor lamp") None None
               (Some 25%float) None 7 8)
            _ "prod-1" p p' _ _).
  - apply reachable_products_step. apply reachable_products_empty.
  - vm_compute. reflexivity.
  - vm_compute. reflexivity.
Defined.

(** ** Calls that fail *)

Section FailedCalls.

(** X13: No call of either processor that returns an error has written to the
    store. *)
Theorem failed_calls_write_nothing :
  (forall (r r' : gmap string User) iter id email name now err,
      UserProcessor.CreateUser r iter id email name now = (r', Err err) ->
      r' = r) /\
  (forall (r r' : gmap string User) iter id email name nowEmail nowName err,
      UserProcessor.UpdateUser r iter id email name nowEmail nowName =
        (r', Err err) -> r' = r) /\
  (forall (r r' : gmap string User) id now err,
      (UserProcessor.DeactivateUser r id now = (r', Err err) -> r' = r) /\
      (UserProcessor.ActivateUser r id now = (r', Err err) -> r' = r)) /\
  (forall (r r' : gmap string Product) id name description category
          price stock now err,
      ProductProcessor.CreateProduct r id name description category
        price stock now = (r', Err err) -> r' = r) /\
  (forall (r r' : gmap string Product) id v now err,
      (ProductProcessor.UpdateStock r id v now = (r', Err err) -> r' = r) /\
      (ProductProcessor.AddStock r id v now = (r', Err err) -> r' = r) /\
      (ProductProcessor.RemoveStock r id v now = (r', Err err) -> r' = r) /\
      (ProductProcessor.DeactivateProduct r id now = (r', Err err) ->
       r' = r) /\
      (ProductProcessor.ActivateProduct r id now = (r', Err err) ->
       r' = r)).
Proof.
  assert (Hmutate : forall (r r' : gmap string Product) id mutator err,
             ProductProcessor.mutate r id mutator = (r', Err err) -> r' = r).
  { intros * Hcall.
    by apply mutate_inv in Hcall as [[-> _]|(? & ? & _ & _ & [=] & _)]. }
  split; [|split; [|split; [|split]]].
  - intros * Hcall.
    by apply CreateUser_inv in Hcall as [[-> _]|([=] & _)].
  - intros * Hcall.
    by apply UpdateUser_inv in Hcall as [[-> _]|(? & ? & _ & [=] & _)].
  - intros *. split; intros Hcall.
    + by apply (toggle_inv r r' id now _ false) in Hcall
        as [(-> & _)|(? & _ & [=] & _)].
    + by apply (toggle_inv r r' id now _ true) in Hcall
        as [(-> & _)|(? & _ & [=] & _)].
  - intros * Hcall.
    by apply CreateProduct_inv in Hcall as [[-> _]|([=] & _)].
  - intros *. repeat split; apply Hmutate.
Qed.

Lemma failed_calls_write_nothing_witness :
  let r : gmap string Product :=
    <["prod-1" := mkProduct "prod-1" "Lamp" "" 20 10 "Home" 1 1 true]> ∅ in
  r = r.
Proof.
  intros r.
  refine (proj1 (proj2 (proj2
            (proj2 (proj2 (proj2 (proj2 failed_calls_write_nothing)))
               r r "prod-1" 30 2 "insufficient stock"))) _).
  vm_compute. reflexivity.
Defined.

(** On an identifier the store does not hold, every processor call that
    needs the entity answers with the not-found error and an unchanged
    store, whatever its other arguments. *)
Theorem calls_on_a_missing_id_are_not_found :
  (forall (r : gmap string User) id, r !! id = None ->
     (forall iter email name nowEmail nowName,
         UserProcessor.UpdateUser r iter id email name nowEmail nowName =
           (r, Err "user not found")) /\
     (forall now, UserProcessor.DeactivateUser r id now =
                    (r, Err "user not found")) /\
     (forall now, UserProcessor.ActivateUser r id now =
                    (r, Err "user not found")) /\
     UserProcessor.GetUser r id = Err "user not found") /\
  (forall (r : gmap string Product) id, r !! id = None ->
     (forall name description category price stock nowPrice nowStock,
         ProductProcessor.UpdateProduct r id name description category
           price stock nowPrice nowStock = (r, Err "product not found")) /\
     (forall v now,
         ProductProcessor.UpdateStock r id v now =
           (r, Err "product not found") /\
         ProductProcessor.AddStock r id v now =
           (r, Err "product not found") /\
         ProductProcessor.RemoveStock r id v now =
           (r, Err "product not found") /\
         ProductProcessor.DeactivateProduct r id now =
           (r, Err "product not found") /\
         ProductProcessor.ActivateProduct r id now =
           (r, Err "product not found")) /\
     ProductProcessor.GetProduct r id = Err "product not found").
Proof.
  split; intros r id Hmissing.
  - unfold UserProcessor.UpdateUser, UserProcessor.DeactivateUser,
      UserProcessor.ActivateUser, UserProcessor.GetUser,
      InMemoryUserRepository.FindByID.
    rewrite Hmissing. done.
  - unfold ProductProcessor.UpdateProduct, ProductProcessor.UpdateStock,
      ProductProcessor.AddStock, ProductProcessor.RemoveStock,
      ProductProcessor.DeactivateProduct, ProductProcessor.ActivateProduct,
      ProductProcessor.mutate, ProductProcessor.GetProduct,
      InMemoryProductRepository.FindByID.
    rewrite Hmissing. done.
Qed.

End FailedCalls.

(** ** Services and their events *)

Section ServiceCalls.
Import InMemoryEventBus.
Context {W : Type}.
Variable TrimSpace : string -> string.
Variable emailRegex_MatchString : string -> bool.

Lemma stock_step_inv
    (eventBus : gmap string (list (@EventHandler W)))
    (r r' : gmap string Product) (w w' : W) id process res :
  ProductService.stock_step eventBus r w id process = (r', w', res) ->
  (exists err, res = Err err /\ w' = w /\
               (r' = r \/ process r = (r', Err err))) \/
  exists p p',
    r !! id = Some p /\ process r = (r', Ok p') /\ res = Ok p' /\
    w' = run_handlers (handlers eventBus "product.stock.updated")
           (StockUpdatedEvent (ID p') (Name p') (Stock p) (Stock p')
              (UpdatedAt p')) w.
Proof.
  unfold ProductService.stock_step, ProductProcessor.GetProduct,
    InMemoryProductRepository.FindByID.
  destruct (r !! id) as [p|]; [|intros [= <- <- <-]; left; eauto].
  destruct (process r) as [r1 [p'|err]] eqn:Hprocess.
  - unfold ProductEventPublisher.PublishStockUpdated, Publish.
    intros [= <- <- <-]. right. by exists p, p'.
  - intros [= <- <- <-]. left. eauto.
Qed.

(** X14: A service call that returns an error has changed neither the store nor
    the handlers' world: nothing was saved and no event was published. *)
Theorem failed_service_calls_change_nothing
    (userBus productBus : gmap string (list (@EventHandler W))) :
  (forall (r r' : gmap string User) (w w' : W) err,
      (forall iter id email name now,
          UserService.CreateUser TrimSpace emailRegex_MatchString userBus
            r w iter id email name now = (r', w', Err err) ->
          r' = r /\ w' = w) /\
      (forall iter id email name nowEmail nowName,
          UserService.UpdateUser TrimSpace emailRegex_MatchString userBus
            r w iter id email name nowEmail nowName = (r', w', Err err) ->
          r' = r /\ w' = w) /\
      (forall id now,
          UserService.DeactivateUser userBus r w id now = (r', w', Err err) ->
          r' = r /\ w' = w) /\
      (forall id now,
          UserService.ActivateUser userBus r w id now = (r', w', Err err) ->
          r' = r /\ w' = w)) /\
  (forall (r r' : gmap string Product) (w w' : W) err,
      (forall id name description category price stock now,
          ProductService.CreateProduct TrimSpace productBus r w id name
            description category price stock now = (r', w', Err err) ->
          r' = r /\ w' = w) /\
      (forall id name description category price stock nowPrice nowStock,
          ProductService.UpdateProduct TrimSpace productBus r w id name
            description category price stock nowPrice nowStock =
            (r', w', Err err) ->
          r' = r /\ w' = w) /\
      (forall id v now,
          (ProductService.UpdateStock TrimSpace productBus r w id v now =
             (r', w', Err err) -> r' = r /\ w' = w) /\
          (ProductService.AddStock productBus r w id v now =
             (r', w', Err err) -> r' = r /\ w' = w) /\
          (ProductService.RemoveStock productBus r w id v now =
             (r', w', Err err) -> r' = r /\ w' = w) /\
          (ProductService.DeactivateProduct productBus r w id now =
             (r', w', Err err) -> r' = r /\ w' = w) /\
          (ProductService.ActivateProduct productBus r w id now =
             (r', w', Err err) -> r' = r /\ w' = w))).
Proof.
  assert (Hstep : forall (r r' : gmap string Product) (w w' : W) id mutator
                         err,
             ProductService.stock_step productBus r w id
               (fun r => ProductProcessor.mutate r id mutator) =
               (r', w', Err err) -> r' = r /\ w' = w).
  { intros * Hcall.
    apply stock_step_inv in Hcall
      as [(e & [= <-] & -> & [-> | Hproc])|(? & ? & _ & _ & [=] & _)];
      [done|].
    by apply mutate_inv in Hproc as [[-> _]|(? & ? & _ & _ & [=] & _)]. }
  split; intros r r' w w' err.
  - split; [|split; [|split]].
    + intros *. unfold UserService.CreateUser.
      destruct (UserValidator.ValidateCreateUser _ _ _ _ _);
        [by intros [= <- <- <-]|].
      destruct (UserProcessor.CreateUser _ _ _ _ _ _) as [r1 [u|e]] eqn:Hcall.
      * by destruct (UserEventPublisher.PublishUserCreated _ _ _).
      * intros [= <- <- <-].
        by apply CreateUser_inv in Hcall as [[-> _]|([=] & _)].
    + intros *. unfold UserService.UpdateUser.
      destruct (UserValidator.ValidateUpdateUser _ _ _ _ _);
        [by intros [= <- <- <-]|].
      destruct (UserProcessor.UpdateUser _ _ _ _ _ _ _)
        as [r1 [u|e]] eqn:Hcall.
      * by destruct (UserEventPublisher.PublishUserUpdated _ _ _).
      * intros [= <- <- <-].
        by apply UpdateUser_inv in Hcall as [[-> _]|(? & ? & _ & [=] & _)].
    + intros *. unfold UserService.DeactivateUser.
      destruct (UserProcessor.DeactivateUser _ _ _) as [r1 [u|e]] eqn:Hcall.
      * by destruct (UserEventPublisher.PublishUserDeactivated _ _ _).
      * intros [= <- <- <-].
        by apply (toggle_inv r r1 id now _ false) in Hcall
          as [(-> & _)|(? & _ & [=] & _)].
    + intros *. unfold UserService.ActivateUser.
      destruct (UserProcessor.ActivateUser _ _ _) as [r1 [u|e]] eqn:Hcall.
      * by destruct (UserEventPublisher.PublishUserActivated _ _ _).
      * intros [= <- <- <-].
        by apply (toggle_inv r r1 id now _ true) in Hcall
          as [(-> & _)|(? & _ & [=] & _)].
  - split; [|split].
    + intros *. unfold ProductService.CreateProduct.
      destruct (ProductValidator.ValidateCreateProduct _ _ _ _ _ _ _);
        [by intros [= <- <- <-]|].
      destruct (ProductProcessor.CreateProduct _ _ _ _ _ _ _ _)
        as [r1 [p|e]] eqn:Hcall.
      * by destruct (ProductEventPublisher.PublishProductCreated _ _ _).
      * intros [= <- <- <-].
        by apply CreateProduct_inv in Hcall as [[-> _]|([=] & _)].
    + intros *. unfold ProductService.UpdateProduct.
      destruct (ProductValidator.ValidateUpdateProduct _ _ _ _ _ _ _);
        [by intros [= <- <- <-]|].
      destruct (ProductProcessor.UpdateProduct _ _ _ _ _ _ _ _ _)
        as [r1 [p|e]] eqn:Hcall.
      * by destruct (ProductEventPublisher.PublishProductUpdated _ _ _).
      * intros [= <- <- <-].
        by apply UpdateProduct_Err_unchanged in Hcall as ->.
    + intros id v now. split; [|split; [|split; [|split]]].
      * unfold ProductService.UpdateStock.
        destruct (ProductValidator.ValidateUpdateProduct _ _ _ _ _ _ _);
          [by intros [= <- <- <-]|]. apply Hstep.
      * apply Hstep.
      * apply Hstep.
      * unfold ProductService.DeactivateProduct.
        destruct (ProductProcessor.DeactivateProduct _ _ _)
          as [r1 [p|e]] eqn:Hcall.
        -- by destruct (ProductEventPublisher.PublishProductDeactivated _ _ _).
        -- intros [= <- <- <-].
           by apply mutate_inv in Hcall as [[-> _]|(? & ? & _ & _ & [=] & _)].
      * unfold ProductService.ActivateProduct.
        destruct (ProductProcessor.ActivateProduct _ _ _)
          as [r1 [p|e]] eqn:Hcall.
        -- by destruct (ProductEventPublisher.PublishProductActivated _ _ _).
        -- intros [= <- <- <-].
           by apply mutate_inv in Hcall as [[-> _]|(? & ? & _ & _ & [=] & _)].
Qed.

End ServiceCalls.

Section ServiceEvents.
Import InMemoryEventBus.
Context {W : Type}.
Variable TrimSpace : string -> string.
Variable emailRegex_MatchString : string -> bool.

(** X15: A successful stock call of the service publishes one
    [product.stock.updated] event to the handlers of that type, and the
    event carries the stock stored before the call, the stock stored after
    it and the new UpdatedAt. *)
Theorem stock_events_carry_old_and_new_stock
    (eventBus : gmap string (list (@EventHandler W)))
    (r r' : gmap string Product) (w w' : W) id (v : Z) (now : Time) p' :
  ProductService.AddStock eventBus r w id v now = (r', w', Ok p') \/
  ProductService.RemoveStock eventBus r w id v now = (r', w', Ok p') \/
  ProductService.UpdateStock TrimSpace eventBus r w id v now =
    (r', w', Ok p') ->
  exists p,
    r !! id = Some p /\ r' !! ID p' = Some p' /\
    UpdatedAt p' = now /\
    w' = run_handlers (handlers eventBus "product.stock.updated")
           (StockUpdatedEvent (ID p') (Name p') (Stock p) (Stock p') now) w.
Proof.
  assert (Hstep : forall mutator,
             (forall p q, mutator p = (q, None) -> UpdatedAt q = now) ->
             ProductService.stock_step eventBus r w id
               (fun r => ProductProcessor.mutate r id mutator) =
               (r', w', Ok p') ->
             exists p,
               r !! id = Some p /\ r' !! ID p' = Some p' /\
               UpdatedAt p' = now /\
               w' = run_handlers (handlers eventBus "product.stock.updated")
                      (StockUpdatedEvent (ID p') (Name p') (Stock p)
                         (Stock p') now) w).
  { intros mutator Hstamp Hcall.
    apply stock_step_inv in Hcall
      as [(e & [=] & _)|(p & q & Hp & Hproc & [= <-] & ->)].
    apply mutate_inv in Hproc
      as [[_ [=]]|(p0 & q & Hp0 & Hmut & [= <-] & ->)].
    exists p. rewrite lookup_insert_eq, (Hstamp _ _ Hmut). done. }
  intros [Hcall|[Hcall|Hcall]].
  - apply (Hstep _ (fun p q => proj1 (proj2 (proj2
                      (product_mutators_stamp p q now))) v) Hcall).
  - apply (Hstep _ (fun p q => proj1 (proj2 (proj2 (proj2
                      (product_mutators_stamp p q now)))) v) Hcall).
  - unfold ProductService.UpdateStock in Hcall.
    destruct (ProductValidator.ValidateUpdateProduct _ _ _ _ _ _ _);
      [discriminate|].
    apply (Hstep _ (fun p q => proj1 (proj2
                      (product_mutators_stamp p q now)) v) Hcall).
Qed.

End ServiceEvents.

Lemma stock_events_carry_old_and_new_stock_witness :
  let logging : @InMemoryEventBus.EventHandler (list Z) :=
    fun event log =>
      match event with
      | StockUpdatedEvent _ _ old new _ => (log ++ [old; new], None)
      | _ => (log, None)
      end in
  let bus := InMemoryEventBus.Subscribe InMemoryEventBus.NewInMemoryEventBus
               "product.stock.updated" logging in
  let p := mkProduct "prod-1" "Lamp" "" 20 10 "Home" 1 1 true in
  let p' := mkProduct "prod-1" "Lamp" "" 20 15 "Home" 1 2 true in
  let r : gmap string Product := <["prod-1" := p]> ∅ in
  exists p0,
    r !! "prod-1" = Some p0 /\
    (<["prod-1" := p']> r) !! ID p' = Some p' /\
    UpdatedAt p' = 2 /\
    [10; 15] =
      InMemoryEventBus.run_handlers
        (InMemoryEventBus.handlers bus "product.stock.updated")
        (StockUpdatedEvent (ID p') (Name p') (Stock p0) (Stock p') 2) [].
Proof.
  intros logging bus p p' r.
  refine (stock_events_carry_old_and_new_stock AsciiStdlib.TrimSpace bus
            r (<["prod-1" := p']> r) [] [10; 15] "prod-1" 5 2 p' _).
  left. vm_compute. reflexivity.
Defined.

(** ** Bulk calls *)

Section Bulk.

(** The loop hands every request to the service once: each turn adds one
    entity or one error, and the errors carry the positions of the failed
    requests in ascending order. *)
Lemma bulk_loop_spec {St Req Ent : Type}
    (call : nat -> St -> Req -> St * result Ent)
    (i : nat) (st : St) (reqs : list Req) entities errors st' entities'
    errors' :
  bulk_loop call i st reqs entities errors = (st', (entities', errors')) ->
  exists newEntities newErrors,
    entities' = entities ++ newEntities /\
    errors' = errors ++ newErrors /\
    (length newEntities + length newErrors = length reqs)%nat /\
    Forall (fun e => Z.of_nat i <= Index e < Z.of_nat (i + length reqs))
           newErrors /\
    StronglySorted (fun e1 e2 => Index e1 < Index e2) newErrors.
Proof.
  revert i st entities errors.
  induction reqs as [|req rest IH]; intros i st entities errors; simpl.
  - intros [= <- <- <-]. exists [], [].
    rewrite !app_nil_r. repeat split; constructor.
  - destruct (call i st req) as [st1 [ent|err]].
    + intros Hloop. apply IH in Hloop
        as (newE & newR & -> & -> & Hlen & Hidx & Hsorted).
      exists (ent :: newE), newR. rewrite <- app_assoc. simpl.
      repeat split; [lia| |done].
      eapply Forall_impl; [exact Hidx|]. simpl. intros e. lia.
    + intros Hloop. apply IH in Hloop
        as (newE & newR & -> & -> & Hlen & Hidx & Hsorted).
      exists newE, (mkBulkOperationError (Z.of_nat i) err :: newR).
      rewrite <- app_assoc. simpl.
      repeat split; [lia| |].
      * constructor; [simpl; lia|].
        eapply Forall_impl; [exact Hidx|]. simpl. intros e. lia.
      * constructor; [done|].
        eapply Forall_impl; [exact Hidx|]. simpl. intros e. lia.
Qed.

End Bulk.

Section BulkCalls.
Import InMemoryEventBus.
Context {W : Type}.
Variable TrimSpace : string -> string.
Variable emailRegex_MatchString : string -> bool.

(** X17: Every bulk method answers every request exactly once, with an entity
    or with an error: a failed request does not end the batch.  The errors
    come in the order of the requests, each with the position of its
    request. *)
Theorem bulk_calls_answer_every_request
    (userBus productBus : gmap string (list (@EventHandler W))) :
  let answered {Ent : Type} (n : nat)
        (out : list Ent * list BulkOperationError) : Prop :=
    (length out.1 + length out.2 = n)%nat /\
    Forall (fun e => 0 <= Index e < Z.of_nat n) out.2 /\
    StronglySorted (fun e1 e2 => Index e1 < Index e2) out.2 in
  (forall r w visit clock users,
      answered (length users)
        (UserManagementService.BulkCreateUsers TrimSpace
           emailRegex_MatchString userBus r w visit clock users).2) /\
  (forall r w clock userIDs,
      answered (length userIDs)
        (UserManagementService.BulkDeactivateUsers userBus r w clock
           userIDs).2) /\
  (forall r w clock products,
      answered (length products)
        (ProductManagementService.BulkCreateProducts TrimSpace productBus
           r w clock products).2) /\
  (forall r w clock stockUpdates,
      answered (length stockUpdates)
        (ProductManagementService.BulkUpdateStock TrimSpace productBus
           r w clock stockUpdates).2).
Proof.
  assert (Hloop : forall (St Req Ent : Type)
                         (call : nat -> St -> Req -> St * result Ent) st reqs,
             let out := (bulk_loop call 0 st reqs [] []).2 in
             (length out.1 + length out.2 = length reqs)%nat /\
             Forall (fun e => 0 <= Index e < Z.of_nat (length reqs)) out.2 /\
             StronglySorted (fun e1 e2 => Index e1 < Index e2) out.2).
  { intros St Req Ent call st reqs.
    destruct (bulk_loop call 0 st reqs [] []) as [st' [ents errs]] eqn:Hrun.
    apply bulk_loop_spec in Hrun
      as (newE & newR & -> & -> & Hlen & Hidx & Hsorted).
    simpl. repeat split; done. }
  simpl. repeat split; apply Hloop.
Qed.

End BulkCalls.

Section BulkDeactivate.
Import InMemoryEventBus.
Context {W : Type}.

Lemma service_deactivate_inv
    (eventBus : gmap string (list (@EventHandler W)))
    (r r1 : gmap string User) (w w1 : W) id now res :
  UserService.DeactivateUser eventBus r w id now = (r1, w1, res) ->
  (r1 = r /\ w1 = w /\ res = Err "user not found" /\ r !! id = None) \/
  exists u,
    r !! id = Some u /\
    res = Ok (mkUser (user_ID u) (user_Email u) (user_Name u)
                (user_CreatedAt u) now false) /\
    r1 = <[user_ID u := mkUser (user_ID u) (user_Email u) (user_Name u)
                          (user_CreatedAt u) now false]> r.
Proof.
  unfold UserService.DeactivateUser.
  destruct (UserProcessor.DeactivateUser r id now) as [r2 res2] eqn:Hcall.
  apply (toggle_inv r r2 id now res2 false) in Hcall
    as [(-> & -> & Hmissing)|(u & Hu & -> & ->)].
  - intros [= <- <- <-]. by left.
  - destruct (UserEventPublisher.PublishUserDeactivated _ _ _).
    intros [= <- <- <-]. right. by exists u.
Qed.

(** X18: [BulkDeactivateUsers] on a store keyed by the identifiers leaves every
    listed user that was stored inactive, with its ID, Email and Name
    untouched, whatever happens to the other identifiers of the list; it
    adds no user and touches no user outside the list. *)
Theorem bulk_deactivate_deactivates_the_stored
    (eventBus : gmap string (list (@EventHandler W)))
    (r : gmap string User) (w : W) (clock : nat -> Time)
    (userIDs : list string) :
  users_keyed r ->
  let r' := (UserManagementService.BulkDeactivateUsers eventBus r w clock
               userIDs).1.1 in
  (forall k u, In k userIDs -> r !! k = Some u ->
     exists u', r' !! k = Some u' /\ user_IsActive u' = false /\
                user_ID u' = user_ID u /\ user_Email u' = user_Email u /\
                user_Name u' = user_Name u) /\
  (forall k, ~ In k userIDs -> r' !! k = r !! k) /\
  (forall k, r !! k = None -> r' !! k = None).
Proof.
  unfold UserManagementService.BulkDeactivateUsers.
  generalize (@nil User) (@nil BulkOperationError) 0%nat.
  revert r w.
  induction userIDs as [|id rest IH]; intros r w ents errs i Hkeyed; simpl.
  - repeat split; [by intros k u []|done..].
  - destruct (UserService.DeactivateUser eventBus r w id (clock i))
      as [[r1 w1] res] eqn:Hcall.
    apply service_deactivate_inv in Hcall
      as [(-> & -> & -> & Hmissing)|(u0 & Hu0 & -> & ->)].
    + destruct (IH r w ents
                  (errs ++ [mkBulkOperationError (Z.of_nat i)
                              "user not found"]) (S i) Hkeyed)
        as (Hin & Hout & Hnone).
      split; [|split].
      * intros k u [<-|Hk] Hu; [congruence|by apply Hin].
      * intros k Hk. apply Hout. tauto.
      * done.
    + pose proof (Hkeyed id u0 Hu0) as Hid. rewrite Hid.
      set (d := mkUser id (user_Email u0) (user_Name u0)
                  (user_CreatedAt u0) (clock i) false).
      assert (Hkeyed1 : users_keyed (<[id := d]> r)).
      { intros k u Hk. apply lookup_insert_Some in Hk as [[<- <-]|[_ Hk]];
          [done|eauto]. }
      destruct (IH (<[id := d]> r) w1 (ents ++ [d]) errs (S i) Hkeyed1)
        as (Hin & Hout & Hnone).
      split; [|split].
      * intros k u Hk Hu.
        destruct (in_dec string_dec k rest) as [Hrest|Hrest].
        -- destruct (decide (k = id)) as [->|Hne].
           ++ destruct (Hin id d Hrest (lookup_insert_eq _ _ _))
                as (u' & Hu' & ? & ? & ? & ?).
              exists u'. simplify_eq. simpl in *. repeat split; congruence.
           ++ apply Hin; [done|]. by rewrite lookup_insert_ne.
        -- destruct Hk as [<-|Hk]; [|done].
           exists d. rewrite (Hout id Hrest), lookup_insert_eq.
           simplify_eq. repeat split; done.
      * intros k Hk. rewrite Hout by tauto.
        apply lookup_insert_ne. tauto.
      * intros k Hk. apply Hnone.
        rewrite lookup_insert_ne; [done|]. intros <-. congruence.
Qed.

End BulkDeactivate.

Lemma user_store_keyed (users : list User) : users_keyed (user_store users).
Proof.
  intros k u Hk. unfold user_store in Hk.
  apply elem_of_list_to_map_2, list_elem_of_fmap in Hk as [x [[= -> ->] _]].
  done.
Qed.

Lemma bulk_deactivate_deactivates_the_stored_witness :
  let r := user_store (sample_users 2) in
  let r' := (UserManagementService.BulkDeactivateUsers (W := unit) ∅ r tt
               (fun i => Z.of_nat i) ["user-A"; "nobody"; "user-A"]).1.1 in
  (forall k u, In k ["user-A"; "nobody"; "user-A"] -> r !! k = Some u ->
     exists u', r' !! k = Some u' /\ user_IsActive u' = false /\
                user_ID u' = user_ID u /\ user_Email u' = user_Email u /\
                user_Name u' = user_Name u) /\
  (forall k, ~ In k ["user-A"; "nobody"; "user-A"] -> r' !! k = r !! k) /\
  (forall k, r !! k = None -> r' !! k = None).
Proof.
  intros r.
  apply (bulk_deactivate_deactivates_the_stored (W := unit) ∅ r tt
           (fun i => Z.of_nat i) ["user-A"; "nobody"; "user-A"]).
  apply user_store_keyed.
Defined.

(** ** What the validators let through *)

Section ValidatorBounds.
Variable TrimSpace : string -> string.
Variable emailRegex_MatchString : string -> bool.

(** X19: [ValidateCreateUser] lets a request through exactly when the ID has 3
    to 50 bytes, the email at most 255 and the shape of the pattern, the
    name 2 to 100, and none of the three is blank; a request it lets
    through also passes [ValidateUpdateUser], with every choice of the
    optional fields. *)
Theorem user_validator_accepts_exactly (id email name : string) :
  (UserValidator.ValidateCreateUser TrimSpace emailRegex_MatchString
     id email name = None <->
   (TrimSpace id ≠ "" /\ 3 <= GoInt.strlen id <= 50) /\
   (TrimSpace email ≠ "" /\ GoInt.strlen email <= 255 /\
    emailRegex_MatchString email = true) /\
   (TrimSpace name ≠ "" /\ 2 <= GoInt.strlen name <= 100)) /\
  (UserValidator.ValidateCreateUser TrimSpace emailRegex_MatchString
     id email name = None ->
   forall (e n : bool),
     UserValidator.ValidateUpdateUser TrimSpace emailRegex_MatchString id
       (if e then Some email else None) (if n then Some name else None) =
       None).
Proof.
  assert (Hid : UserValidator.validateID TrimSpace id = None <->
                TrimSpace id ≠ "" /\ 3 <= GoInt.strlen id <= 50).
  { unfold UserValidator.validateID.
    destruct (decide (TrimSpace id = "")); [split; [discriminate|tauto]|].
    destruct (Z.ltb_spec (GoInt.strlen id) 3); [split; [discriminate|lia]|].
    destruct (Z.ltb_spec 50 (GoInt.strlen id)); [split; [discriminate|lia]|].
    split; [auto with lia|done]. }
  assert (Hemail : UserValidator.validateEmail TrimSpace
                     emailRegex_MatchString email = None <->
                   TrimSpace email ≠ "" /\ GoInt.strlen email <= 255 /\
                   emailRegex_MatchString email = true).
  { unfold UserValidator.validateEmail.
    destruct (decide (TrimSpace email = "")); [split; [discriminate|tauto]|].
    destruct (Z.ltb_spec 255 (GoInt.strlen email));
      [split; [discriminate|lia]|].
    destruct (emailRegex_MatchString email); simpl;
      [split; [auto with lia|done]|split; [discriminate|]].
    by intros (_ & _ & [=]). }
  assert (Hname : UserValidator.validateName TrimSpace name = None <->
                  TrimSpace name ≠ "" /\ 2 <= GoInt.strlen name <= 100).
  { unfold UserValidator.validateName.
    destruct (decide (TrimSpace name = "")); [split; [discriminate|tauto]|].
    destruct (Z.ltb_spec (GoInt.strlen name) 2); [split; [discriminate|lia]|].
    destruct (Z.ltb_spec 100 (GoInt.strlen name));
      [split; [discriminate|lia]|].
    split; [auto with lia|done]. }
  assert (Hall : UserValidator.ValidateCreateUser TrimSpace
                   emailRegex_MatchString id email name = None <->
                 UserValidator.validateID TrimSpace id = None /\
                 UserValidator.validateEmail TrimSpace
                   emailRegex_MatchString email = None /\
                 UserValidator.validateName TrimSpace name = None).
  { unfold UserValidator.ValidateCreateUser.
    destruct (UserValidator.validateID TrimSpace id);
      [split; [discriminate|by intros [[=] _]]|].
    destruct (UserValidator.validateEmail _ _ email);
      [split; [discriminate|by intros (_ & [=] & _)]|].
    tauto. }
  split.
  - rewrite Hall, Hid, Hemail, Hname. tauto.
  - intros (Hi & He & Hn)%Hall e n.
    unfold UserValidator.ValidateUpdateUser. rewrite Hi.
    destruct e, n; by rewrite ?He, ?Hn.
Qed.

End ValidatorBounds.

Section ProductValidatorBounds.
Context {W : Type}.
Variable TrimSpace : string -> string.

Lemma first_error_None (checks : list (option error)) :
  ProductValidator.first_error checks = None <->
  Forall (fun check => check = None) checks.
Proof.
  induction checks as [|[err|] checks IH]; simpl.
  - split; [constructor|done].
  - split; [discriminate|]. by intros [[=] _]%Forall_cons.
  - rewrite IH. split; [by constructor|by intros [_ ?]%Forall_cons].
Qed.

Lemma ValidateCreateProduct_None id name description category price stock :
  ProductValidator.ValidateCreateProduct TrimSpace id name description
    category price stock = None <->
  (TrimSpace id ≠ "" /\ 3 <= GoInt.strlen id <= 50) /\
  (TrimSpace name ≠ "" /\ 2 <= GoInt.strlen name <= 200) /\
  GoInt.strlen description <= 1000 /\
  (TrimSpace category ≠ "" /\ 2 <= GoInt.strlen category <= 100) /\
  ((price <? 0)%float = false /\ (1000000 <? price)%float = false) /\
  0 <= stock <= 1000000.
Proof.
  unfold ProductValidator.ValidateCreateProduct.
  rewrite first_error_None, !Forall_cons, Forall_nil.
  unfold ProductValidator.validateID, ProductValidator.validateName,
    ProductValidator.validateDescription, ProductValidator.validateCategory,
    ProductValidator.validatePrice, ProductValidator.validateStock.
  destruct (decide (TrimSpace id = "")); [split; [by intros [[=] _]|tauto]|].
  destruct (Z.ltb_spec (GoInt.strlen id) 3);
    [split; [by intros [[=] _]|lia]|].
  destruct (Z.ltb_spec 50 (GoInt.strlen id));
    [split; [by intros [[=] _]|lia]|].
  destruct (decide (TrimSpace name = ""));
    [split; [by intros (_ & [=] & _)|tauto]|].
  destruct (Z.ltb_spec (GoInt.strlen name) 2);
    [split; [by intros (_ & [=] & _)|lia]|].
  destruct (Z.ltb_spec 200 (GoInt.strlen name));
    [split; [by intros (_ & [=] & _)|lia]|].
  destruct (Z.ltb_spec 1000 (GoInt.strlen description));
    [split; [by intros (_ & _ & [=] & _)|lia]|].
  destruct (decide (TrimSpace category = ""));
    [split; [by intros (_ & _ & _ & [=] & _)|tauto]|].
  destruct (Z.ltb_spec (GoInt.strlen category) 2);
    [split; [by intros (_ & _ & _ & [=] & _)|lia]|].
  destruct (Z.ltb_spec 100 (GoInt.strlen category));
    [split; [by intros (_ & _ & _ & [=] & _)|lia]|].
  destruct (price <? 0)%float;
    [split; [by intros (_ & _ & _ & _ & [=] & _)|
             by intros (_ & _ & _ & _ & [[=] _] & _)]|].
  destruct (1000000 <? price)%float;
    [split; [by intros (_ & _ & _ & _ & [=] & _)|
             by intros (_ & _ & _ & _ & [_ [=]] & _)]|].
  destruct (Z.ltb_spec stock 0);
    [split; [by intros (_ & _ & _ & _ & _ & [=] & _)|lia]|].
  destruct (Z.ltb_spec 1000000 stock);
    [split; [by intros (_ & _ & _ & _ & _ & [=] & _)|lia]|].
  split; [intros _; repeat split; auto; lia|done].
Qed.

(** X20: [ValidateCreateProduct] lets a request through exactly when the ID has
    3 to 50 bytes, the name 2 to 200, the category 2 to 100, none of them
    blank, the description at most 1000, the price is neither below zero
    nor above 1,000,000 and the stock lies between 0 and 1,000,000; and a
    product the service creates is stored with fields within these
    bounds. *)
Theorem created_products_are_within_bounds
    (eventBus : gmap string (list (@InMemoryEventBus.EventHandler W)))
    (r r' : gmap string Product) (w w' : W)
    id name description category price stock now p :
  (ProductValidator.ValidateCreateProduct TrimSpace id name description
     category price stock = None <->
   (TrimSpace id ≠ "" /\ 3 <= GoInt.strlen id <= 50) /\
   (TrimSpace name ≠ "" /\ 2 <= GoInt.strlen name <= 200) /\
   GoInt.strlen description <= 1000 /\
   (TrimSpace category ≠ "" /\ 2 <= GoInt.strlen category <= 100) /\
   ((price <? 0)%float = false /\ (1000000 <? price)%float = false) /\
   0 <= stock <= 1000000) /\
  (ProductService.CreateProduct TrimSpace eventBus r w id name description
     category price stock now = (r', w', Ok p) ->
   r !! id = None /\ r' !! id = Some p /\
   p = mkProduct id name description price stock category now now true /\
   3 <= GoInt.strlen (ID p) <= 50 /\
   2 <= GoInt.strlen (Name p) <= 200 /\
   GoInt.strlen (Description p) <= 1000 /\
   2 <= GoInt.strlen (Category p) <= 100 /\
   (Price p <? 0)%float = false /\ (1000000 <? Price p)%float = false /\
   0 <= Stock p <= 1000000).
Proof.
  split; [apply ValidateCreateProduct_None|].
  unfold ProductService.CreateProduct.
  destruct (ProductValidator.ValidateCreateProduct _ _ _ _ _ _ _) eqn:Hvalid;
    [discriminate|].
  apply ValidateCreateProduct_None in Hvalid
    as ((_ & ?) & (_ & ?) & ? & (_ & ?) & (? & ?) & ?).
  destruct (ProductProcessor.CreateProduct _ _ _ _ _ _ _ _)
    as [r1 [q|e]] eqn:Hcall; [|discriminate].
  destruct (ProductEventPublisher.PublishProductCreated _ _ _).
  intros [= <- <- <-].
  apply CreateProduct_Ok_inv in Hcall as (-> & -> & Hfree & _).
  rewrite lookup_insert_eq. simpl. repeat split; try done; lia.
Qed.

End ProductValidatorBounds.

Lemma created_products_are_within_bounds_witness :
  let p := mkProduct "test-product" "Test Product" "Test Description"
             99.5 10 "Test Category" 1 1 true in
  (∅ : gmap string Product) !! "test-product" = None /\
  (<["test-product" := p]> ∅ : gmap string Product) !! "test-product" =
    Some p /\
  p = mkProduct "test-product" "Test Product" "Test Description" 99.5 10
        "Test Category" 1 1 true /\
  3 <= GoInt.strlen (ID p) <= 50 /\
  2 <= GoInt.strlen (Name p) <= 200 /\
  GoInt.strlen (Description p) <= 1000 /\
  2 <= GoInt.strlen (Category p) <= 100 /\
  (Price p <? 0)%float = false /\ (1000000 <? Price p)%float = false /\
  0 <= Stock p <= 1000000.
Proof.
  intros p.
  refine (proj2 (created_products_are_within_bounds (W := unit)
                   AsciiStdlib.TrimSpace ∅ ∅ (<["test-product" := p]> ∅)
                   tt tt "test-product" "Test Product" "Test Description"
                   "Test Category" 99.5 10 1 p) _).
  vm_compute. reflexivity.
Defined.

(** ** Updating a user *)

Section UserUpdates.
Import InMemoryUserRepository.

(** X21: In a store the calls lead to, [UpdateUser] turns down an email that
    another stored user has and leaves the store alone, whatever the order
    of the visit; the user's own email it accepts. *)
Theorem update_user_guards_the_email (r : gmap string User)
    (iter : list User) (id : string) (u : User) :
  reachable_users r -> ranges_over r iter -> r !! id = Some u ->
  (forall k v name nowEmail nowName,
      r !! k = Some v -> k ≠ id ->
      UserProcessor.UpdateUser r iter id (Some (user_Email v)) name
        nowEmail nowName =
        (r, Err "email already in use by another user")) /\
  (forall nowEmail nowName,
      exists u',
        UserProcessor.UpdateUser r iter id (Some (user_Email u)) None
          nowEmail nowName = (<[id := u']> r, Ok u') /\
        u' = mkUser (user_ID u) (user_Email u) (user_Name u)
               (user_CreatedAt u) nowEmail (user_IsActive u)).
Proof.
  intros Hreach Hvisit Hu.
  destruct (reachable_users_inv r Hreach) as (Hkeyed & Hvalid & Huniq).
  assert (Hfind : forall k v, r !! k = Some v ->
             List.find (fun user => String.eqb (user_Email user)
                                      (user_Email v)) iter = Some v).
  { intros k v Hv.
    destruct (List.find _ iter) as [found|] eqn:Hfind.
    - apply find_some in Hfind as [Hin Heq]. apply String.eqb_eq in Heq.
      apply (ranges_over_elem _ _ _ Hvisit) in Hin as [k' Hk'].
      assert (k' = k) by eauto. subst. congruence.
    - assert (Hin : In v iter)
        by (apply (ranges_over_elem _ _ _ Hvisit); eauto).
      pose proof (find_none _ _ Hfind v Hin) as Hne. simpl in Hne.
      by rewrite String.eqb_refl in Hne. }
  split.
  - intros k v name nowEmail nowName Hv Hne.
    unfold UserProcessor.UpdateUser, FindByID, FindByEmail.
    rewrite Hu, (Hfind k v Hv), (Hkeyed k v Hv).
    destruct (String.eqb_spec k id); [done|reflexivity].
  - intros nowEmail nowName. eexists. split; [|reflexivity].
    unfold UserProcessor.UpdateUser, FindByID, FindByEmail, Save,
      User_UpdateEmail.
    rewrite Hu, (Hfind id u Hu), (Hkeyed id u Hu), String.eqb_refl. simpl.
    apply Hvalid, User_IsValid_true in Hu as (_ & Hemail & _).
    destruct (decide (user_Email u = "")); [done|]. reflexivity.
Qed.

(** X22: [DeactivateUser] then [ActivateUser] gives the user back as it was but
    for UpdatedAt, and deactivating twice leaves what deactivating once at
    the later instant leaves. *)
Theorem user_toggles_round_trip (r : gmap string User) (id : string)
    (u : User) (t1 t2 : Time) :
  r !! id = Some u -> user_ID u = id -> user_IsActive u = true ->
  let r1 := (UserProcessor.DeactivateUser r id t1).1 in
  UserProcessor.ActivateUser r1 id t2 =
    (<[id := mkUser id (user_Email u) (user_Name u) (user_CreatedAt u) t2
                    true]> r,
     Ok (mkUser id (user_Email u) (user_Name u) (user_CreatedAt u) t2 true)) /\
  UserProcessor.DeactivateUser r1 id t2 = UserProcessor.DeactivateUser r id t2.
Proof.
  intros Hu <- Hactive. cbv zeta.
  unfold UserProcessor.DeactivateUser, UserProcessor.ActivateUser,
    FindByID, Save, User_Deactivate, User_Activate.
  rewrite Hu. simpl. rewrite lookup_insert_eq. simpl.
  by rewrite !insert_insert_eq.
Qed.

End UserUpdates.

Lemma update_user_guards_the_email_witness :
  let u1 := mkUser "user-1" "ana@example.com" "Ana" 10 10 true in
  let r1 := run_user_op ∅ (OpCreateUser [] "user-1" "ana@example.com"
                             "Ana" 10) in
  let r := run_user_op r1 (OpCreateUser [u1] "user-2" "bob@example.com"
                             "Bob" 20) in
  let iter := (map_to_list r).*2 in
  (forall k v name nowEmail nowName,
      r !! k = Some v -> k ≠ "user-1" ->
      UserProcessor.UpdateUser r iter "user-1" (Some (user_Email v)) name
        nowEmail nowName =
        (r, Err "email already in use by another user")) /\
  (forall nowEmail nowName,
      exists u',
        UserProcessor.UpdateUser r iter "user-1" (Some (user_Email u1)) None
          nowEmail nowName = (<["user-1" := u']> r, Ok u') /\
        u' = mkUser (user_ID u1) (user_Email u1) (user_Name u1)
               (user_CreatedAt u1) nowEmail (user_IsActive u1)).
Proof.
  intros u1 r1 r iter.
  apply (update_user_guards_the_email r iter "user-1" u1).
  - apply reachable_users_step.
    + apply reachable_users_step; [apply reachable_users_empty|].
      simpl. unfold ranges_over. rewrite map_to_list_empty. reflexivity.
    + simpl. unfold ranges_over. vm_compute. reflexivity.
  - unfold ranges_over. reflexivity.
  - vm_compute. reflexivity.
Defined.

Lemma user_toggles_round_trip_witness :
  let u := mkUser "user-1" "ana@example.com" "Ana" 10 10 true in
  let r : gmap string User := <["user-1" := u]> ∅ in
  let r1 := (UserProcessor.DeactivateUser r "user-1" 20).1 in
  UserProcessor.ActivateUser r1 "user-1" 30 =
    (<["user-1" := mkUser "user-1" (user_Email u) (user_Name u)
                     (user_CreatedAt u) 30 true]> r,
     Ok (mkUser "user-1" (user_Email u) (user_Name u) (user_CreatedAt u) 30
           true)) /\
  UserProcessor.DeactivateUser r1 "user-1" 30 =
    UserProcessor.DeactivateUser r "user-1" 30.
Proof.
  intros u r.
  apply (user_toggles_round_trip r "user-1" u 20 30); reflexivity.
Defined.

(** ** Stock back and forth *)

Section StockRoundTrip.
Import InMemoryProductRepository.

(** X23: Adding a quantity and removing it again, or removing what is in stock
    and adding it again, brings the stored product back to what it was but
    for UpdatedAt, as long as the sum is an [int]. *)
Theorem stock_round_trips (r : gmap string Product) (id : string)
    (p : Product) (q : Z) (t1 t2 : Time) :
  r !! id = Some p -> ID p = id ->
  0 <= Stock p -> 0 < q -> Stock p + q <= GoInt.max_int ->
  (exists r1 p1,
      ProductProcessor.AddStock r id q t1 = (r1, Ok p1) /\
      Stock p1 = Stock p + q /\
      ProductProcessor.RemoveStock r1 id q t2 =
        (<[id := set_UpdatedAt p t2]> r, Ok (set_UpdatedAt p t2))) /\
  (q <= Stock p ->
   exists r1 p1,
     ProductProcessor.RemoveStock r id q t1 = (r1, Ok p1) /\
     Stock p1 = Stock p - q /\
     ProductProcessor.AddStock r1 id q t2 =
       (<[id := set_UpdatedAt p t2]> r, Ok (set_UpdatedAt p t2))).
Proof.
  intros Hp <- Hstock Hq Hsum.
  assert (Hmax : GoInt.max_int = 2 ^ 63 - 1) by reflexivity.
  assert (Hadd : GoInt.add (Stock p) q = Stock p + q).
  { apply GoIntFacts.add_exact.
    unfold GoInt.in_range, GoInt.min_int. lia. }
  unfold ProductProcessor.AddStock, ProductProcessor.RemoveStock,
    ProductProcessor.mutate, FindByID, Save,
    Product_AddStock, Product_RemoveStock.
  rewrite Hp. destruct (Z.leb_spec q 0); [lia|]. simpl. split.
  - eexists _, _. split; [reflexivity|]. simpl. split; [done|].
    rewrite lookup_insert_eq. simpl. rewrite Hadd.
    destruct (Z.leb_spec q 0); [lia|].
    destruct (Z.ltb_spec (Stock p + q) q); [lia|]. simpl.
    rewrite insert_insert_eq.
    rewrite GoIntFacts.sub_exact
      by (unfold GoInt.in_range, GoInt.min_int; lia).
    replace (Stock p + q - q) with (Stock p) by lia.
    by destruct p.
  - intros Hle. destruct (Z.ltb_spec (Stock p) q); [lia|]. simpl.
    assert (Hsub : GoInt.sub (Stock p) q = Stock p - q).
    { apply GoIntFacts.sub_exact.
      unfold GoInt.in_range, GoInt.min_int. lia. }
    eexists _, _. split; [reflexivity|]. simpl. split; [done|].
    rewrite lookup_insert_eq. simpl. rewrite Hsub.
    destruct (Z.leb_spec q 0); [lia|]. simpl.
    rewrite insert_insert_eq.
    rewrite GoIntFacts.add_exact
      by (unfold GoInt.in_range, GoInt.min_int; lia).
    replace (Stock p - q + q) with (Stock p) by lia.
    by destruct p.
Qed.

Lemma stock_round_trips_witness :
  let p := mkProduct "prod-1" "Lamp" "" 20 10 "Home" 1 1 true in
  let r : gmap string Product := <["prod-1" := p]> ∅ in
  exists r1 p1,
    ProductProcessor.AddStock r "prod-1" 5 2 = (r1, Ok p1) /\
    Stock p1 = Stock p + 5 /\
    ProductProcessor.RemoveStock r1 "prod-1" 5 3 =
      (<["prod-1" := set_UpdatedAt p 3]> r, Ok (set_UpdatedAt p 3)).
Proof.
  intros p r.
  refine (proj1 (stock_round_trips r "prod-1" p 5 2 3 _ _ _ _ _)).
  - reflexivity.
  - reflexivity.
  - vm_compute. discriminate.
  - lia.
  - vm_compute. discriminate.
Defined.

End StockRoundTrip.

(** ** Searches and listings *)

Section Searches.

(** Whatever the limit and the offset, a page the pagination block returns
    comes with a nil error and is cut out of the slice it was given. *)
Lemma paginate_returns_sublist {A} (xs : list A) (limit offset : Z) page err :
  paginate xs limit offset = Returns (page, err) ->
  err = None /\ sublist page xs.
Proof.
  unfold paginate.
  destruct (Z.leb_spec (GoInt.len xs) offset).
  { intros [= <- <-]. split; [done|apply sublist_nil_l]. }
  destruct (makeslice_ok _); [|discriminate].
  destruct (copy_loop _ _ _ _) as [res|] eqn:Hloop; [|discriminate].
  intros [= <- <-]. apply copy_loop_returns in Hloop as [-> _].
  simpl. split; [done|].
  etrans; [apply sublist_take|apply sublist_drop].
Qed.

Lemma find_where_returns {A} (keep : A -> bool) (iter : list A)
    (limit offset : Z) page err :
  find_where keep iter limit offset = Returns (page, err) ->
  err = None /\ forall x, In x page -> In x iter /\ keep x = true.
Proof.
  unfold find_where. intros Hpage.
  apply paginate_returns_sublist in Hpage as [-> Hsub].
  split; [done|]. intros x Hx. apply filter_In.
  apply list_elem_of_In. eapply elem_of_sublist; [|exact Hsub].
  by apply list_elem_of_In.
Qed.

Lemma product_FindAll_returns (iter : list Product) (limit offset : Z)
    page err :
  InMemoryProductRepository.FindAll iter limit offset = Returns (page, err) ->
  err = None /\ forall x, In x page -> In x iter.
Proof.
  unfold InMemoryProductRepository.FindAll.
  destruct (makeslice_ok _); [|discriminate]. intros Hpage.
  apply paginate_returns_sublist in Hpage as [-> Hsub].
  split; [done|]. intros x Hx.
  apply list_elem_of_In. eapply elem_of_sublist; [|exact Hsub].
  by apply list_elem_of_In.
Qed.

(** X24: Whenever [SearchProducts] returns, the error is nil and every
    product of the page is stored.  With a category in the criteria each of
    them has
    that category, whatever the price bounds say; without one and with a
    positive bound, each price lies between MinPrice and MaxPrice, where a
    MaxPrice of zero stands for 1000000. *)
Theorem search_products_results_fit_the_criteria (r : gmap string Product)
    (iter : list Product) (criteria : ProductSearchCriteria) page err :
  ranges_over r iter ->
  ProductManagementService.SearchProducts iter criteria =
    Returns (page, err) ->
  err = None /\
  forall p, In p page ->
    (exists k, r !! k = Some p) /\
    (pcrit_Category criteria ≠ "" ->
     Category p = pcrit_Category criteria) /\
    (pcrit_Category criteria = "" ->
     (0 <? pcrit_MinPrice criteria)%float ||
       (0 <? pcrit_MaxPrice criteria)%float = true ->
     (pcrit_MinPrice criteria <=? Price p)%float = true /\
     (Price p <=? (if (pcrit_MaxPrice criteria =? 0)%float
                   then 1000000%float
                   else pcrit_MaxPrice criteria))%float = true).
Proof.
  intros Hvisit. unfold ProductManagementService.SearchProducts.
  destruct (String.eqb_spec (pcrit_Category criteria) "") as [Hcat|Hcat];
    simpl.
  - destruct ((0 <? pcrit_MinPrice criteria)%float ||
              (0 <? pcrit_MaxPrice criteria)%float) eqn:Hbound.
    + unfold ProductService.ListProductsByPriceRange,
        ProductProcessor.ListProductsByPriceRange,
        InMemoryProductRepository.FindByPriceRange.
      intros Hpage. apply find_where_returns in Hpage as [-> Hin].
      split; [done|]. intros p Hp. destruct (Hin p Hp) as [Hiter Hkeep].
      apply andb_true_iff in Hkeep as [Hmin Hmax].
      split; [by apply (ranges_over_elem _ _ _ Hvisit)|].
      split; [done|]. intros _ _. done.
    + unfold ProductService.ListProducts, ProductProcessor.ListProducts.
      intros Hpage. apply product_FindAll_returns in Hpage as [-> Hin].
      split; [done|]. intros p Hp.
      split; [by apply (ranges_over_elem _ _ _ Hvisit), Hin|].
      split; [done|]. intros _ [=].
  - unfold ProductService.ListProductsByCategory,
      ProductProcessor.ListProductsByCategory,
      InMemoryProductRepository.FindByCategory.
    intros Hpage. apply find_where_returns in Hpage as [-> Hin].
    split; [done|]. intros p Hp. destruct (Hin p Hp) as [Hiter Hkeep].
    apply String.eqb_eq in Hkeep.
    split; [by apply (ranges_over_elem _ _ _ Hvisit)|].
    split; [done|]. intros Hempty. done.
Qed.

Lemma search_products_results_fit_the_criteria_witness :
  let products := sample_products 4 in
  let criteria := mkProductSearchCriteria "" 5 0 2 1 in
  (None : option error) = None /\
  forall p, In p [sample_product 1; sample_product 2] ->
    (exists k, product_store products !! k = Some p) /\
    (pcrit_Category criteria ≠ "" ->
     Category p = pcrit_Category criteria) /\
    (pcrit_Category criteria = "" ->
     (0 <? pcrit_MinPrice criteria)%float ||
       (0 <? pcrit_MaxPrice criteria)%float = true ->
     (pcrit_MinPrice criteria <=? Price p)%float = true /\
     (Price p <=? (if (pcrit_MaxPrice criteria =? 0)%float
                   then 1000000%float
                   else pcrit_MaxPrice criteria))%float = true).
Proof.
  intros products criteria.
  apply (search_products_results_fit_the_criteria (product_store products)
           products criteria [sample_product 1; sample_product 2] None).
  - apply product_store_ranges. apply (bool_decide_unpack _).
    vm_compute. reflexivity.
  - vm_compute. reflexivity.
Defined.

Lemma find_email_stored (r : gmap string User) (iter : list User)
    (email : string) (k : string) (u : User) :
  ranges_over r iter -> emails_unique r ->
  r !! k = Some u -> user_Email u = email ->
  List.find (fun user => String.eqb (user_Email user) email) iter = Some u.
Proof.
  intros Hvisit Huniq Hk Heq.
  destruct (List.find _ iter) as [found|] eqn:Hfind.
  - apply find_some in Hfind as [Hin Hfound].
    apply String.eqb_eq in Hfound.
    apply (ranges_over_elem _ _ _ Hvisit) in Hin as [k' Hk'].
    assert (k' = k) by (apply (Huniq k' k found u); congruence).
    subst k'. congruence.
  - assert (Hin : In u iter)
      by (apply (ranges_over_elem _ _ _ Hvisit); eauto).
    pose proof (find_none _ _ Hfind u Hin) as Hne. simpl in Hne.
    apply String.eqb_neq in Hne. done.
Qed.

Lemma find_email_missing (r : gmap string User) (iter : list User)
    (email : string) :
  ranges_over r iter ->
  (forall k u, r !! k = Some u -> user_Email u ≠ email) ->
  List.find (fun user => String.eqb (user_Email user) email) iter = None.
Proof.
  intros Hvisit Hfree.
  destruct (List.find _ iter) as [found|] eqn:Hfind; [|done].
  apply find_some in Hfind as [Hin Hfound].
  apply String.eqb_eq in Hfound.
  apply (ranges_over_elem _ _ _ Hvisit) in Hin as [k Hk].
  by destruct (Hfree k found Hk).
Qed.

(** X25: With an email in the criteria, [SearchUsers] looks at neither the limit
    nor the offset: on a store built by the processor's calls it returns
    exactly the one stored user with that email, in whatever order the
    repository visits the store, and fails with user not found if there is
    none. *)
Theorem search_users_by_email_ignores_paging (r : gmap string User)
    (iter : list User) (criteria : SearchCriteria) :
  reachable_users r -> ranges_over r iter -> crit_Email criteria ≠ "" ->
  (forall k u,
      r !! k = Some u -> user_Email u = crit_Email criteria ->
      UserManagementService.SearchUsers iter criteria =
        Returns ([u], None)) /\
  ((forall k u, r !! k = Some u -> user_Email u ≠ crit_Email criteria) ->
   UserManagementService.SearchUsers iter criteria =
     Returns ([], Some "user not found")).
Proof.
  intros Hreach Hvisit Hemail.
  destruct (reachable_users_inv r Hreach) as (_ & _ & Huniq).
  unfold UserManagementService.SearchUsers, UserService.GetUserByEmail,
    UserProcessor.GetUserByEmail, InMemoryUserRepository.FindByEmail.
  destruct (String.eqb_spec (crit_Email criteria) ""); [done|]. simpl.
  split.
  - intros k u Hk Heq.
    by rewrite (find_email_stored r iter _ k u Hvisit Huniq Hk Heq).
  - intros Hfree. by rewrite (find_email_missing r iter _ Hvisit Hfree).
Qed.

Lemma search_users_by_email_ignores_paging_witness :
  let u1 := mkUser "user-1" "ana@example.com" "Ana" 10 10 true in
  let r1 := run_user_op ∅ (OpCreateUser [] "user-1" "ana@example.com"
                             "Ana" 10) in
  let r := run_user_op r1 (OpCreateUser [u1] "user-2" "bob@example.com"
                             "Bob" 20) in
  let iter := (map_to_list r).*2 in
  let criteria := mkSearchCriteria "bob@example.com" (-1) 7 in
  (forall k u,
      r !! k = Some u -> user_Email u = crit_Email criteria ->
      UserManagementService.SearchUsers iter criteria =
        Returns ([u], None)) /\
  ((forall k u, r !! k = Some u -> user_Email u ≠ crit_Email criteria) ->
   UserManagementService.SearchUsers iter criteria =
     Returns ([], Some "user not found")).
Proof.
  intros u1 r1 r iter criteria.
  apply (search_users_by_email_ignores_paging r iter criteria).
  - apply reachable_users_step.
    + apply reachable_users_step; [apply reachable_users_empty|].
      simpl. unfold ranges_over. rewrite map_to_list_empty. reflexivity.
    + simpl. unfold ranges_over. vm_compute. reflexivity.
  - unfold ranges_over. reflexivity.
  - vm_compute. discriminate.
Defined.

(** X26: Once [DeactivateProduct] or [UpdateStock] with a stock of zero has run
    on an identifier, no page of [ListAvailableProducts] on the store it
    leaves contains a product with that identifier, whether or not the call
    found the product. *)
Theorem unavailable_products_are_not_listed (r r' : gmap string Product)
    (id : string) (now : Time) (iter : list Product) (limit offset : Z)
    page err :
  reachable_products r ->
  r' = (ProductProcessor.DeactivateProduct r id now).1 \/
    r' = (ProductProcessor.UpdateStock r id 0 now).1 ->
  ranges_over r' iter ->
  ProductProcessor.ListAvailableProducts iter limit offset =
    Returns (page, err) ->
  forall p, In p page -> ID p ≠ id.
Proof.
  intros Hreach Hcall Hvisit Hpage p Hp Hid.
  destruct (reachable_products_inv r Hreach) as (Hkeyed & _).
  unfold ProductProcessor.ListAvailableProducts,
    InMemoryProductRepository.FindAvailable in Hpage.
  apply find_where_returns in Hpage as [_ Hin].
  destruct (Hin p Hp) as [Hiter Havailable].
  apply (ranges_over_elem _ _ _ Hvisit) in Hiter as [k Hk].
  unfold Product_IsAvailable in Havailable.
  apply andb_true_iff in Havailable as [Hactive Hstock].
  assert (Hstored : r !! k = Some p -> False).
  { intros Hold. pose proof (Hkeyed k p Hold) as Hkey.
    assert (Hfound : r !! id = Some p) by congruence.
    destruct Hcall as [-> | ->];
      unfold ProductProcessor.DeactivateProduct, ProductProcessor.UpdateStock,
        ProductProcessor.mutate, InMemoryProductRepository.FindByID,
        InMemoryProductRepository.Save, Product_Deactivate,
        Product_UpdateStock in Hk;
      rewrite Hfound in Hk; simpl in Hk; rewrite Hkey in Hk;
      rewrite lookup_insert_eq in Hk; simplify_eq;
      destruct p; cbv [set_UpdatedAt set_Stock set_IsActive] in Hk;
      simpl in *; simplify_eq; done. }
  destruct (r !! id) as [p0|] eqn:Hp0.
  - pose proof (Hkeyed id p0 Hp0) as Hkey0.
    destruct Hcall as [-> | ->];
      unfold ProductProcessor.DeactivateProduct, ProductProcessor.UpdateStock,
        ProductProcessor.mutate, InMemoryProductRepository.FindByID,
        InMemoryProductRepository.Save, Product_Deactivate,
        Product_UpdateStock in Hk;
      rewrite Hp0 in Hk; simpl in Hk; rewrite Hkey0 in Hk;
      (apply lookup_insert_Some in Hk as [[_ <-]|[_ Hk]]; [|by apply Hstored]);
      destruct p0; cbv [set_UpdatedAt set_Stock set_IsActive] in *;
      simpl in *; done.
  - destruct Hcall as [-> | ->];
      unfold ProductProcessor.DeactivateProduct, ProductProcessor.UpdateStock,
        ProductProcessor.mutate, InMemoryProductRepository.FindByID in Hk;
      rewrite Hp0 in Hk; simpl in Hk; by apply Hstored.
Qed.

Lemma unavailable_products_are_not_listed_witness :
  let r := run_product_op
             (run_product_op ∅ (OpCreateProduct "prod-1" "Lamp" "Desk lamp"
                                  "Home" 20 10 1))
             (OpCreateProduct "prod-2" "Rake" "" "Garden" 15 3 2) in
  let p2 := mkProduct "prod-2" "Rake" "" 15 3 "Garden" 2 2 true in
  let r' := (ProductProcessor.DeactivateProduct r "prod-1" 5).1 in
  ProductProcessor.ListAvailableProducts ((map_to_list r').*2) 10 0 =
    Returns ([p2], None) /\
  ID p2 ≠ "prod-1".
Proof.
  intros r p2 r'.
  assert (Hpage : ProductProcessor.ListAvailableProducts
                    ((map_to_list r').*2) 10 0 = Returns ([p2], None))
    by (vm_compute; reflexivity).
  split; [exact Hpage|].
  apply (unavailable_products_are_not_listed r r' "prod-1" 5
           ((map_to_list r').*2) 10 0 [p2] None).
  - do 2 apply reachable_products_step. apply reachable_products_empty.
  - left. reflexivity.
  - unfold ranges_over. reflexivity.
  - exact Hpage.
  - left. reflexivity.
Defined.

(** X27: Once [DeactivateUser] has run on an identifier, no page of
    [ListActiveUsers] on the store it leaves contains a user with that
    identifier. *)
Theorem deactivated_users_are_not_listed (r : gmap string User)
    (id : string) (now : Time) (iter : list User) (limit offset : Z)
    page err :
  reachable_users r ->
  ranges_over (UserProcessor.DeactivateUser r id now).1 iter ->
  UserProcessor.ListActiveUsers iter limit offset = Returns (page, err) ->
  forall u, In u page -> user_ID u ≠ id.
Proof.
  intros Hreach Hvisit Hpage u Hu Hid.
  destruct (reachable_users_inv r Hreach) as (Hkeyed & _).
  unfold UserProcessor.ListActiveUsers,
    InMemoryUserRepository.FindActive in Hpage.
  apply find_where_returns in Hpage as [_ Hin].
  destruct (Hin u Hu) as [Hiter Hactive].
  apply (ranges_over_elem _ _ _ Hvisit) in Hiter as [k Hk].
  unfold UserProcessor.DeactivateUser, InMemoryUserRepository.FindByID,
    InMemoryUserRepository.Save, User_Deactivate in Hk.
  destruct (r !! id) as [u0|] eqn:Hu0; simpl in Hk.
  - pose proof (Hkeyed id u0 Hu0) as Hkey0. rewrite Hkey0 in Hk.
    apply lookup_insert_Some in Hk as [[_ <-]|[Hne Hk]]; [done|].
    pose proof (Hkeyed k u Hk). congruence.
  - pose proof (Hkeyed k u Hk). congruence.
Qed.

Lemma deactivated_users_are_not_listed_witness :
  let u1 := mkUser "user-1" "ana@example.com" "Ana" 10 10 true in
  let u2 := mkUser "user-2" "bob@example.com" "Bob" 20 20 true in
  let r1 := run_user_op ∅ (OpCreateUser [] "user-1" "ana@example.com"
                             "Ana" 10) in
  let r := run_user_op r1 (OpCreateUser [u1] "user-2" "bob@example.com"
                             "Bob" 20) in
  let iter :=
    (map_to_list (UserProcessor.DeactivateUser r "user-1" 30).1).*2 in
  UserProcessor.ListActiveUsers iter 10 0 = Returns ([u2], None) /\
  user_ID u2 ≠ "user-1".
Proof.
  intros u1 u2 r1 r iter.
  assert (Hpage : UserProcessor.ListActiveUsers iter 10 0 =
                    Returns ([u2], None))
    by (vm_compute; reflexivity).
  split; [exact Hpage|].
  apply (deactivated_users_are_not_listed r "user-1" 30 iter 10 0 [u2] None).
  - apply reachable_users_step.
    + apply reachable_users_step; [apply reachable_users_empty|].
      simpl. unfold ranges_over. rewrite map_to_list_empty. reflexivity.
    + simpl. unfold ranges_over. vm_compute. reflexivity.
  - unfold ranges_over. reflexivity.
  - exact Hpage.
  - left. reflexivity.
Defined.

End Searches.
